(** * Next-Best-Action engine: ingestion, tagging and recommendation

    A shallow embedding of [pipeline/data_pipeline.py], [pipeline/tagging.py]
    and [pipeline/nba.py], and the properties of the conversation store that
    the pipeline maintains from one run to the next.

    Conventions of the embedding.
    - A data frame is the list of its rows, in row order.
    - A Python [dict] is an association list in insertion order; assigning to
      a key that is present replaces its value in place.
    - A Python [set] of strings used only for membership is a list.
    - [created_at] holds the outcome of
      [datetime.strptime(s, '%a %b %d %H:%M:%S %z %Y')]: [Some t] is the
      instant denoted by a well-formed stamp, [None] a stamp on which
      [strptime] raises.
    - Python exceptions are the [Raised] results of a small error monad.
    - File reads and writes are the store passed in and the list returned. *)

From Stdlib Require Import List String Ascii ZArith Bool Arith Lia Permutation.
Import ListNotations.
Local Open Scope string_scope.
Local Open Scope list_scope.

(** ** Exceptions *)

Inductive exn : Type :=
| RecursionError
| CollaboratorError
| FileNotFoundError.

Inductive result (A : Type) : Type :=
| Ok (a : A)
| Raised (e : exn).

Arguments Ok {A} a.
Arguments Raised {A} e.

Definition bind {A B : Type} (c : result A) (k : A -> result B) : result B :=
  match c with
  | Ok a => k a
  | Raised e => Raised e
  end.

Notation "x <- c ;; k" := (bind c (fun x => k))
  (at level 61, c at next level, right associativity).

(** [try: c except Exception as e: h e] *)
Definition try_except {A : Type} (c : result A) (h : exn -> result A) : result A :=
  match c with
  | Ok a => Ok a
  | Raised e => h e
  end.

(** A [for] loop whose body may raise. *)
Fixpoint for_each {S A : Type} (body : S -> A -> result S) (l : list A) (s : S)
  : result S :=
  match l with
  | [] => Ok s
  | x :: rest => s' <- body s x ;; for_each body rest s'
  end.

(** ** What the source leaves to the Python runtime *)

Record Interp : Type := {
  (** number of nested calls of [find_conversation_root] the interpreter
      allows before it raises [RecursionError] *)
  recursion_limit : nat;
  (** [list(s)[0]] for a set [s], given its elements in insertion order *)
  set_first : list string -> string
}.

(** ** Strings *)

(** A Python [str] is a [string] whose characters stand for the code points
    below 256; texts with other code points are not modelled. *)

(** [str.isspace()], which is what [str.strip()] removes and what [\s]
    matches: below 256 these are the code points 9-13, 28-32, 133 (next
    line) and 160 (no-break space). *)
Definition is_space (c : ascii) : bool :=
  let n := nat_of_ascii c in
  (Nat.leb 9 n && Nat.leb n 13) || (Nat.leb 28 n && Nat.leb n 32)
  || Nat.eqb n 133 || Nat.eqb n 160.

Fixpoint lstrip (s : string) : string :=
  match s with
  | EmptyString => EmptyString
  | String c s' => if is_space c then lstrip s' else s
  end.

Fixpoint rstrip (s : string) : string :=
  match s with
  | EmptyString => EmptyString
  | String c s' =>
      match rstrip s' with
      | EmptyString => if is_space c then EmptyString else String c EmptyString
      | r => String c r
      end
  end.

Definition strip (s : string) : string := lstrip (rstrip s).

(** [str.lower()] on one character: below 256 the upper-case letters are
    A-Z (65-90) and the accented capitals 192-222 without the multiplication
    sign 215, each 32 below its lower-case letter. *)
Definition lower_ascii (c : ascii) : ascii :=
  let n := nat_of_ascii c in
  if (Nat.leb 65 n && Nat.leb n 90)
     || (Nat.leb 192 n && Nat.leb n 222 && negb (Nat.eqb n 215))
  then ascii_of_nat (n + 32) else c.

Fixpoint lower (s : string) : string :=
  match s with
  | EmptyString => EmptyString
  | String c s' => String (lower_ascii c) (lower s')
  end.

(** [x in s] for a list or set of strings *)
Definition mem (x : string) (s : list string) : bool := existsb (String.eqb x) s.

(** [s.add(x)] *)
Definition set_add (x : string) (s : list string) : list string :=
  if mem x s then s else s ++ [x].

(** Truth value of a string, and of a string or [None]. *)
Definition truthy (s : string) : bool := negb (s =? "").

Definition truthy_opt (o : option string) : bool :=
  match o with
  | Some s => truthy s
  | None => false
  end.

(** ** Dictionaries *)

Definition Dict (V : Type) : Type := list (string * V).

Definition dict_get {V : Type} (k : string) (d : Dict V) : option V :=
  option_map snd (find (fun kv => fst kv =? k) d).

Definition dict_mem {V : Type} (k : string) (d : Dict V) : bool :=
  existsb (fun kv => fst kv =? k) d.

(** [d[k] = v] *)
Fixpoint dict_set {V : Type} (k : string) (v : V) (d : Dict V) : Dict V :=
  match d with
  | [] => [(k, v)]
  | (k', v') :: rest =>
      if k' =? k then (k, v) :: rest else (k', v') :: dict_set k v rest
  end.

(** In-place mutation of the object stored under [k]. *)
Fixpoint dict_update {V : Type} (k : string) (f : V -> V) (d : Dict V) : Dict V :=
  match d with
  | [] => []
  | (k', v') :: rest =>
      if k' =? k then (k', f v') :: rest else (k', v') :: dict_update k f rest
  end.

Definition dict_values {V : Type} (d : Dict V) : list V := map snd d.
Definition dict_keys {V : Type} (d : Dict V) : list string := map fst d.

(** ** Data model *)

(** A cell of a column read with [dtype=str]. *)
Inductive Cell : Type :=
| NaN
| Str (s : string).

(** A cell of the [inbound] column. *)
Inductive Flag : Type :=
| FlagBool (b : bool)
| FlagText (s : string).

(** A row of the CSV as [pd.read_csv] returns it. *)
Record RawRow : Type := {
  raw_tweet_id : Cell;
  raw_author_id : string;
  raw_inbound : Flag;
  raw_created_at : option Z;
  raw_text : string;
  raw_in_response_to_tweet_id : Cell
}.

(** A row after the cleaning of lines 49-52. *)
Record Row : Type := {
  tweet_id : string;
  author_id : string;
  inbound : Flag;
  created_at : option Z;
  text : string;
  in_response_to_tweet_id : string
}.

Inductive ResponseType : Type :=
| Customer
| Company.

(** An entry of [chat_history]; [msg_tweet_id], [msg_text] and
    [msg_created_at] are the fields of its [response] object, and
    [msg_customer_id] is the transient ['customer_id'] key. *)
Record Message : Type := {
  msg_response_type : ResponseType;
  msg_tweet_id : string;
  msg_text : string;
  msg_created_at : option Z;
  msg_customer_id : option string
}.

(** A JSON value that is a string or [null]. *)
Inductive PyStr : Type :=
| PyNone
| PyText (s : string).

(** The keys the tagging stage adds; [None] is an absent key. *)
Record Tags : Type := {
  nature_of_support : option string;
  sentiment : option string;
  resolved : option bool;
  resolution_status : option PyStr;
  most_frequent_sentiment : option string;
  most_frequent_support_type : option string
}.

Definition no_tags : Tags :=
  {| nature_of_support := None; sentiment := None; resolved := None;
     resolution_status := None; most_frequent_sentiment := None;
     most_frequent_support_type := None |}.

Record Conversation : Type := {
  primary_tweet_id : string;
  primary_tweet : string;
  tail_id : string;
  customer_id : option string;
  company_id : string;
  chat_history : list Message;
  processed : option bool;
  tags : Tags
}.

Definition set_chat_history (h : list Message) (c : Conversation) : Conversation :=
  {| primary_tweet_id := primary_tweet_id c; primary_tweet := primary_tweet c;
     tail_id := tail_id c; customer_id := customer_id c;
     company_id := company_id c; chat_history := h;
     processed := processed c; tags := tags c |}.

Definition set_processed (p : bool) (c : Conversation) : Conversation :=
  {| primary_tweet_id := primary_tweet_id c; primary_tweet := primary_tweet c;
     tail_id := tail_id c; customer_id := customer_id c;
     company_id := company_id c; chat_history := chat_history c;
     processed := Some p; tags := tags c |}.

Definition set_tail_id (t : string) (c : Conversation) : Conversation :=
  {| primary_tweet_id := primary_tweet_id c; primary_tweet := primary_tweet c;
     tail_id := t; customer_id := customer_id c;
     company_id := company_id c; chat_history := chat_history c;
     processed := processed c; tags := tags c |}.

Definition set_customer_id (x : string) (c : Conversation) : Conversation :=
  {| primary_tweet_id := primary_tweet_id c; primary_tweet := primary_tweet c;
     tail_id := tail_id c; customer_id := Some x;
     company_id := company_id c; chat_history := chat_history c;
     processed := processed c; tags := tags c |}.

Definition set_company_id (x : string) (c : Conversation) : Conversation :=
  {| primary_tweet_id := primary_tweet_id c; primary_tweet := primary_tweet c;
     tail_id := tail_id c; customer_id := customer_id c;
     company_id := x; chat_history := chat_history c;
     processed := processed c; tags := tags c |}.

Definition set_tags (t : Tags) (c : Conversation) : Conversation :=
  {| primary_tweet_id := primary_tweet_id c; primary_tweet := primary_tweet c;
     tail_id := tail_id c; customer_id := customer_id c;
     company_id := company_id c; chat_history := chat_history c;
     processed := processed c; tags := t |}.

(** The ids of the messages of a history, and of a whole store. *)
Definition history_ids (h : list Message) : list string := map msg_tweet_id h.

Definition store_ids (store : list Conversation) : list string :=
  flat_map (fun c => history_ids (chat_history c)) store.

(** ** data_pipeline.py: convert_twitter_csv_to_json *)

(** Lines 20-29: the conversations of the JSON file, by root id, and the ids
    of all their messages. *)
Definition load_existing (existing_data : list Conversation)
  : Dict Conversation * list string :=
  fold_left
    (fun acc conv =>
       (dict_set (primary_tweet_id conv) conv (fst acc),
        fold_left (fun s m => set_add (msg_tweet_id m) s) (chat_history conv) (snd acc)))
    existing_data ([], []).

(** Lines 50-52. *)
Definition clean_row (r : RawRow) : Row :=
  {| tweet_id := strip (match raw_tweet_id r with NaN => "nan" | Str s => s end);
     author_id := raw_author_id r;
     inbound := raw_inbound r;
     created_at := raw_created_at r;
     text := raw_text r;
     in_response_to_tweet_id :=
       strip (match raw_in_response_to_tweet_id r with NaN => "" | Str s => s end) |}.

(** Line 57: [drop_duplicates(subset=['tweet_id'], keep='first')]. *)
Fixpoint drop_duplicates_from (seen : list string) (df : list Row) : list Row :=
  match df with
  | [] => []
  | r :: rest =>
      if mem (tweet_id r) seen then drop_duplicates_from seen rest
      else r :: drop_duplicates_from (tweet_id r :: seen) rest
  end.

Definition drop_duplicates (df : list Row) : list Row := drop_duplicates_from [] df.

(** Lines 40-64: what the two loops iterate over. *)
Definition clean_frame (csv : list RawRow) : list Row :=
  filter (fun r => negb (tweet_id r =? ""))
         (drop_duplicates (map clean_row (firstn 4000 csv))).

(** [df[df['tweet_id'] == x]], and its first row when it is not empty. *)
Definition rows_with_id (x : string) (df : list Row) : option Row :=
  find (fun r => tweet_id r =? x) df.

(** Lines 67-81.  [depth] is the number of nested calls still allowed. *)
Fixpoint find_conversation_root (depth : nat) (tweet_id0 : string) (df_tweets : list Row)
  : result (option string) :=
  match depth with
  | O => Raised RecursionError
  | S depth' =>
      if tweet_id0 =? "" then Ok None
      else
        match rows_with_id tweet_id0 df_tweets with
        | None => Ok None
        | Some tweet_row =>
            let in_response_to := in_response_to_tweet_id tweet_row in
            if in_response_to =? "" then Ok (Some tweet_id0)
            else find_conversation_root depth' in_response_to df_tweets
        end
  end.

(** Lines 97-101 and 133-137: the first conversation, in dictionary order,
    whose [tail_id] is the root. *)
Definition matching_conversation (existing_convo : Dict Conversation)
           (root_id : option string) : option string :=
  match root_id with
  | None => None
  | Some r => option_map fst (find (fun kv => tail_id (snd kv) =? r) existing_convo)
  end.

(** Lines 112-120. *)
Definition new_conversation (root_id root_text : string) : Conversation :=
  {| primary_tweet_id := root_id;
     primary_tweet := root_text;
     tail_id := root_id;
     customer_id := Some "";
     company_id := "";
     chat_history := [];
     processed := Some false;
     tags := no_tags |}.

(** Lines 86-120: body of the first loop. *)
Definition identify_root (py : Interp) (df : list Row)
           (existing_convo : Dict Conversation) (existing_tweet_ids : list string)
           (new_convo : Dict Conversation) (tweet : Row) : result (Dict Conversation) :=
  let tweet_id_str := tweet_id tweet in
  if mem tweet_id_str existing_tweet_ids then Ok new_convo
  else
    root_id <- find_conversation_root (recursion_limit py) tweet_id_str df ;;
    if truthy_opt root_id then
      if truthy_opt (matching_conversation existing_convo root_id) then Ok new_convo
      else
        match root_id with
        | None => Ok new_convo
        | Some r =>
            if dict_mem r new_convo then Ok new_convo
            else
              match rows_with_id r df with
              | None => Ok new_convo
              | Some root_tweet =>
                  Ok (dict_set r (new_conversation r (text root_tweet)) new_convo)
              end
        end
    else Ok new_convo.

(** Lines 144-145 and 174-175. *)
Definition is_customer (tweet : Row) : bool :=
  match inbound tweet with
  | FlagBool b => b
  | FlagText s => lower s =? "true"
  end.

(** Lines 148-159 and 177-188. *)
Definition message_entry (tweet : Row) : Message :=
  {| msg_response_type := if is_customer tweet then Customer else Company;
     msg_tweet_id := tweet_id tweet;
     msg_text := text tweet;
     msg_created_at := created_at tweet;
     msg_customer_id := if is_customer tweet then Some (author_id tweet) else None |}.

Definition append_entry (tweet : Row) (c : Conversation) : Conversation :=
  set_chat_history (chat_history c ++ [message_entry tweet]) c.

(** The three objects the second loop mutates. *)
Record Threads : Type := {
  existing_convo : Dict Conversation;
  existing_tweet_ids : list string;
  new_convo : Dict Conversation
}.

(** Lines 139-167: the tweet continues the stored conversation [conv_id]. *)
Definition attach_existing (conv_id : string) (tweet : Row) (st : Threads) : Threads :=
  match dict_get conv_id (existing_convo st) with
  | None => st
  | Some conversation =>
      if mem (tweet_id tweet) (history_ids (chat_history conversation)) then st
      else
        {| existing_convo :=
             dict_update conv_id
               (fun c => set_processed false (append_entry tweet c))
               (existing_convo st);
           existing_tweet_ids := set_add (tweet_id tweet) (existing_tweet_ids st);
           new_convo := new_convo st |}
  end.

(** Lines 169-193: the tweet belongs to the conversation opened for [r]. *)
Definition attach_new (r : string) (tweet : Row) (st : Threads) : Threads :=
  match dict_get r (new_convo st) with
  | None => st
  | Some conversation =>
      if mem (tweet_id tweet) (history_ids (chat_history conversation)) then st
      else
        {| existing_convo := existing_convo st;
           existing_tweet_ids := existing_tweet_ids st;
           new_convo := dict_update r (append_entry tweet) (new_convo st) |}
  end.

(** Lines 123-193: body of the second loop. *)
Definition build_thread (py : Interp) (df : list Row) (st : Threads) (tweet : Row)
  : result Threads :=
  let tweet_id_str := tweet_id tweet in
  if mem tweet_id_str (existing_tweet_ids st) then Ok st
  else
    root_id <- find_conversation_root (recursion_limit py) tweet_id_str df ;;
    let matching := matching_conversation (existing_convo st) root_id in
    if truthy_opt matching then
      match matching with
      | Some conv_id => Ok (attach_existing conv_id tweet st)
      | None => Ok st
      end
    else
      match root_id with
      | Some r =>
          if truthy r && dict_mem r (new_convo st) then Ok (attach_new r tweet st)
          else Ok st
      | None => Ok st
      end.

(** [list.sort(key=...)] is a stable sort; the key of an entry is its parsed
    stamp. *)
Fixpoint insert_by_key (x : Z * Message) (l : list (Z * Message)) : list (Z * Message) :=
  match l with
  | [] => [x]
  | y :: rest =>
      if (fst x <=? fst y)%Z then x :: y :: rest else y :: insert_by_key x rest
  end.

Fixpoint sort_by_key (l : list (Z * Message)) : list (Z * Message) :=
  match l with
  | [] => []
  | x :: rest => insert_by_key x (sort_by_key rest)
  end.

(** The keys are computed before anything moves; one stamp that does not
    parse raises out of [sort]. *)
Fixpoint sort_keys (h : list Message) : option (list (Z * Message)) :=
  match h with
  | [] => Some []
  | m :: rest =>
      match msg_created_at m, sort_keys rest with
      | Some t, Some keyed => Some ((t, m) :: keyed)
      | _, _ => None
      end
  end.

(** Lines 199-204 and 238-245: [try: chat_history.sort(...) except: pass]. *)
Definition sort_chat_history (h : list Message) : list Message :=
  match sort_keys h with
  | Some keyed => map snd (sort_by_key keyed)
  | None => h
  end.

(** Lines 212-217 and 252-257. *)
Definition customer_ids_of (h : list Message) : list string :=
  fold_left
    (fun ids msg =>
       match msg_response_type msg, msg_customer_id msg with
       | Customer, Some cid => set_add cid ids
       | _, _ => ids
       end)
    h [].

(** Lines 218-225 and 258-265. *)
Definition company_ids_of (df : list Row) (h : list Message) : list string :=
  fold_left
    (fun ids msg =>
       match msg_response_type msg with
       | Customer => ids
       | Company =>
           match rows_with_id (msg_tweet_id msg) df with
           | None => ids
           | Some tweet_row =>
               if truthy (author_id tweet_row) then set_add (author_id tweet_row) ids
               else ids
           end
       end)
    h [].

(** Lines 230-232 and 274-276: [del msg['customer_id']]. *)
Definition del_customer_id (m : Message) : Message :=
  {| msg_response_type := msg_response_type m;
     msg_tweet_id := msg_tweet_id m;
     msg_text := msg_text m;
     msg_created_at := msg_created_at m;
     msg_customer_id := None |}.

(** Lines 198-232: a conversation opened in this run. *)
Definition finalize_new (py : Interp) (df : list Row) (c : Conversation) : Conversation :=
  let h := sort_chat_history (chat_history c) in
  let customer_ids := customer_ids_of h in
  let company_ids := company_ids_of df h in
  {| primary_tweet_id := primary_tweet_id c;
     primary_tweet := primary_tweet c;
     tail_id := last (history_ids h) (primary_tweet_id c);
     customer_id :=
       Some (match customer_ids with [] => "" | _ => set_first py customer_ids end);
     company_id := match company_ids with [] => "" | _ => set_first py company_ids end;
     chat_history := map del_customer_id h;
     processed := processed c;
     tags := tags c |}.

(** Lines 236-276: a conversation read from the store. *)
Definition finalize_existing (py : Interp) (df : list Row) (c : Conversation) : Conversation :=
  let h := sort_chat_history (chat_history c) in
  let customer_ids := customer_ids_of h in
  let company_ids := company_ids_of df h in
  {| primary_tweet_id := primary_tweet_id c;
     primary_tweet := primary_tweet c;
     tail_id := last (history_ids h) (tail_id c);
     customer_id :=
       match customer_ids with [] => customer_id c | _ => Some (set_first py customer_ids) end;
     company_id :=
       match company_ids with [] => company_id c | _ => set_first py company_ids end;
     chat_history := map del_customer_id h;
     processed := processed c;
     tags := tags c |}.

(** Lines 6-299.  [csv] is the table read from [csv_file_path]; [existing_data]
    is the content of the JSON file ([[]] when there is none); the value is
    the list returned, which is also what the JSON file holds afterwards. *)
Definition convert_twitter_csv_to_json (py : Interp) (csv : list RawRow)
           (existing_data : list Conversation) : result (list Conversation) :=
  let loaded := load_existing existing_data in
  let df := clean_frame csv in
  roots <- for_each (identify_root py df (fst loaded) (snd loaded)) df [] ;;
  st <- for_each (build_thread py df) df
          {| existing_convo := fst loaded;
             existing_tweet_ids := snd loaded;
             new_convo := roots |} ;;
  Ok (map (finalize_existing py df) (dict_values (existing_convo st))
      ++ map (finalize_new py df) (dict_values (new_convo st))).

(** A run of the ingestion stage on the store: an exception leaves the file
    as it was. *)
Definition ingest (py : Interp) (store : list Conversation) (csv : list RawRow)
  : list Conversation :=
  match convert_twitter_csv_to_json py csv store with
  | Ok result => result
  | Raised _ => store
  end.

(** The store after a sequence of runs that starts without a JSON file. *)
Definition ingest_all (py : Interp) (batches : list (list RawRow)) : list Conversation :=
  fold_left (ingest py) batches [].

(** A runtime for concrete runs: sets list their elements in insertion
    order. *)
Definition cpython : Interp := {| recursion_limit := 1000; set_first := hd "" |}.

Definition tweet (id parent author : string) (customer : bool) (at_ : option Z)
  : RawRow :=
  {| raw_tweet_id := Str id; raw_author_id := author;
     raw_inbound := FlagBool customer; raw_created_at := at_;
     raw_text := ("text of " ++ id)%string;
     raw_in_response_to_tweet_id := if parent =? "" then NaN else Str parent |}.

(** ** tagging.py *)

(** A call of the language-model collaborator: building the client and
    [invoke(prompt)].  The prompt is a fixed text around the conversation
    context, so a call is identified by the kind of question and the context;
    the value is [response.content], or the exception raised. *)
Inductive PromptKind : Type :=
| SupportNaturePrompt
| SentimentPrompt
| ResolutionPrompt.

Definition Collaborator : Type := PromptKind -> string -> result string.

Definition newline : string := String (ascii_of_nat 10) EmptyString.

Definition default_support_nature : string := "Technical Issue (Simple / Minor)".
Definition default_sentiment : string := "Neutral".

(** What [\d] matches, the decimal digits (category Nd): below 256 these
    are 0-9 only. *)
Definition is_digit (c : ascii) : bool :=
  let n := nat_of_ascii c in Nat.leb 48 n && Nat.leb n 57.

Fixpoint drop_digits (s : string) : string :=
  match s with
  | EmptyString => EmptyString
  | String c s' => if is_digit c then drop_digits s' else s
  end.

(** Line 108: [re.sub(r'^\d+\.\s*', '', classification)]. *)
Definition remove_enumeration (classification : string) : string :=
  match classification with
  | EmptyString => EmptyString
  | String c _ =>
      if is_digit c then
        match drop_digits classification with
        | String "."%char rest => lstrip rest
        | _ => classification
        end
      else classification
  end.

Definition is_customer_message (msg : Message) : bool :=
  match msg_response_type msg with
  | Customer => true
  | Company => false
  end.

(** Lines 25-28 and 146-149. *)
Definition customer_context (primary_tweet0 : string) (chat_history0 : list Message)
  : string :=
  String.concat newline
    (primary_tweet0 :: map msg_text (filter is_customer_message chat_history0)).

(** Lines 11-129.  [api_key] is [os.getenv("GOOGLE_API_KEY")]. *)
Definition classify_support_nature_llm (api_key : option string) (llm : Collaborator)
           (primary_tweet0 : string) (chat_history0 : list Message) : result string :=
  if truthy_opt api_key then
    let conversation_context := customer_context primary_tweet0 chat_history0 in
    try_except
      (content <- llm SupportNaturePrompt conversation_context ;;
       let classification := strip content in
       let cleaned_classification := strip (remove_enumeration classification) in
       Ok cleaned_classification)
      (fun _ => Ok default_support_nature)
  else Ok default_support_nature.

(** Lines 132-180. *)
Definition analyze_sentiment_llm (api_key : option string) (llm : Collaborator)
           (primary_tweet0 : string) (chat_history0 : list Message) : result string :=
  if truthy_opt api_key then
    let conversation_context := customer_context primary_tweet0 chat_history0 in
    try_except
      (content <- llm SentimentPrompt conversation_context ;;
       Ok (strip content))
      (fun _ => Ok default_sentiment)
  else Ok default_sentiment.

(** Lines 198-204. *)
Definition resolution_context (chat_history0 : list Message) : string :=
  String.concat newline
    (map (fun msg =>
            ((if is_customer_message msg then "Customer" else "Company")
               ++ ": " ++ msg_text msg)%string)
         chat_history0).

(** Lines 183-248.  Without a key the function prints a warning and goes on
    to the call; when the call raises, the [except] branch prints and the
    function falls off its end, returning [None]. *)
Definition determine_resolution_status_llm (api_key : option string) (llm : Collaborator)
           (chat_history0 : list Message) : result PyStr :=
  match chat_history0 with
  | [] => Ok (PyText "waiting_for_company")
  | _ :: _ =>
      let ask :=
        try_except
          (content <- llm ResolutionPrompt (resolution_context chat_history0) ;;
           Ok (PyText (strip content)))
          (fun _ => Ok PyNone) in
      if truthy_opt api_key then ask else ask
  end.

(** [collections.Counter(l)]: counts by element, in order of first
    occurrence. *)
Definition count_one (counts : Dict nat) (x : string) : Dict nat :=
  if dict_mem x counts then dict_update x S counts else dict_set x 1 counts.

Definition Counter (l : list string) : Dict nat := fold_left count_one l [].

(** [max(items, key=itemgetter(1))], which is what [most_common(1)] returns:
    the first item with the largest count. *)
Fixpoint first_max (best : string * nat) (items : Dict nat) : string * nat :=
  match items with
  | [] => best
  | kv :: rest => if Nat.ltb (snd best) (snd kv) then first_max kv rest else first_max best rest
  end.

(** [counts.most_common(1)[0][0] if counts else default] *)
Definition most_common_or (default : string) (counts : Dict nat) : string :=
  match counts with
  | [] => default
  | kv :: rest => fst (first_max kv rest)
  end.

Record Pattern : Type := {
  pattern_sentiment : string;      (* 'most_frequent_sentiment' *)
  pattern_support_type : string    (* 'most_frequent_support_type' *)
}.

(** [conv.get('sentiment', 'Neutral')] and
    [conv.get('nature_of_support', 'Technical Issue (Simple / Minor)')]. *)
Definition get_sentiment (conv : Conversation) : string :=
  match sentiment (tags conv) with Some s => s | None => default_sentiment end.

Definition get_nature_of_support (conv : Conversation) : string :=
  match nature_of_support (tags conv) with Some s => s | None => default_support_nature end.

(** Lines 264-268: body of the grouping loop. *)
Definition add_to_group (groups : Dict (list Conversation)) (conv : Conversation)
  : Dict (list Conversation) :=
  match customer_id conv with
  | Some cid =>
      if truthy cid then
        dict_update cid (fun convs => convs ++ [conv])
          (if dict_mem cid groups then groups else dict_set cid [] groups)
      else groups
  | None => groups
  end.

(** Lines 262-268. *)
Definition group_by_customer (conversations : list Conversation)
  : Dict (list Conversation) :=
  fold_left add_to_group conversations [].

(** Lines 273-287, for one customer. *)
Definition pattern_of (convs : list Conversation) : Pattern :=
  {| pattern_sentiment :=
       most_common_or default_sentiment (Counter (map get_sentiment convs));
     pattern_support_type :=
       most_common_or default_support_nature (Counter (map get_nature_of_support convs)) |}.

(** Lines 251-290. *)
Definition calculate_customer_patterns (conversations : list Conversation)
  : Dict Pattern :=
  fold_left
    (fun patterns group => dict_set (fst group) (pattern_of (snd group)) patterns)
    (group_by_customer conversations) [].

(** [not c.get('processed', False)] *)
Definition is_unprocessed (c : Conversation) : bool :=
  negb (match processed c with Some b => b | None => false end).

Definition pystr_eqb (v : PyStr) (s : string) : bool :=
  match v with
  | PyNone => false
  | PyText t => t =? s
  end.

(** Lines 313-328: body of the tagging loop. *)
Definition tag_one (api_key : option string) (llm : Collaborator) (conversation : Conversation)
  : result Conversation :=
  nature <- classify_support_nature_llm api_key llm
              (primary_tweet conversation) (chat_history conversation) ;;
  senti <- analyze_sentiment_llm api_key llm
              (primary_tweet conversation) (chat_history conversation) ;;
  status <- determine_resolution_status_llm api_key llm (chat_history conversation) ;;
  Ok (set_tags
        {| nature_of_support := Some nature;
           sentiment := Some senti;
           resolved := Some (pystr_eqb status "resolved");
           resolution_status := Some status;
           most_frequent_sentiment := most_frequent_sentiment (tags conversation);
           most_frequent_support_type := most_frequent_support_type (tags conversation) |}
        conversation).

Fixpoint map_each {A B : Type} (f : A -> result B) (l : list A) : result (list B) :=
  match l with
  | [] => Ok []
  | x :: rest => y <- f x ;; ys <- map_each f rest ;; Ok (y :: ys)
  end.

(** Lines 335-343. *)
Definition add_patterns (customer_patterns : Dict Pattern) (conversation : Conversation)
  : Conversation :=
  let found :=
    match customer_id conversation with
    | Some cid => if truthy cid then dict_get cid customer_patterns else None
    | None => None
    end in
  let t := tags conversation in
  set_tags
    {| nature_of_support := nature_of_support t;
       sentiment := sentiment t;
       resolved := resolved t;
       resolution_status := resolution_status t;
       most_frequent_sentiment :=
         Some (match found with
               | Some patterns => pattern_sentiment patterns
               | None => get_sentiment conversation
               end);
       most_frequent_support_type :=
         Some (match found with
               | Some patterns => pattern_support_type patterns
               | None => get_nature_of_support conversation
               end) |}
    conversation.

(** Lines 369-374: the tagged file after the upsert by root id. *)
Definition upsert_by_id (existing unprocessed : list Conversation) : list Conversation :=
  dict_values
    (fold_left (fun by_id c => dict_set (primary_tweet_id c) c by_id)
       (existing ++ unprocessed) []).

(** Lines 387-390. *)
Definition mark_tagged (tagged_ids : list string) (conv : Conversation) : Conversation :=
  if mem (primary_tweet_id conv) tagged_ids then set_processed true conv else conv.

(** What a run of [tag_conversations] leaves behind. *)
Record TagRun : Type := {
  tagged : list Conversation;        (* the list returned *)
  tagged_file : list Conversation;   (* [output_file_path] afterwards *)
  raw_file : list Conversation       (* [json_file_path] afterwards *)
}.

(** Lines 293-398, called with an output path.  [conversations] is the
    content of the input file and [existing] that of the output file ([[]]
    when it does not exist). *)
Definition tag_conversations (api_key : option string) (llm : Collaborator)
           (conversations existing : list Conversation) : result TagRun :=
  let unprocessed := filter is_unprocessed conversations in
  match unprocessed with
  | [] => Ok {| tagged := []; tagged_file := existing; raw_file := conversations |}
  | _ :: _ =>
      tagged0 <- map_each (tag_one api_key llm) unprocessed ;;
      let customer_patterns := calculate_customer_patterns tagged0 in
      let tagged1 := map (add_patterns customer_patterns) tagged0 in
      let tagged2 := map (set_processed false) tagged1 in
      let tagged_ids := map primary_tweet_id tagged2 in
      Ok {| tagged := tagged2;
            tagged_file := upsert_by_id existing tagged2;
            raw_file := map (mark_tagged tagged_ids) conversations |}
  end.

(** ** nba.py *)

Record Features : Type := {
  feat_customer_id : string;
  feat_primary_tweet : string;
  feat_nature_of_support : string;
  feat_sentiment : string;
  feat_most_frequent_sentiment : string;
  feat_most_frequent_support_type : string;
  feat_conversation_length : nat;
  feat_chat_history : list Message;
  feat_resolved : bool;
  feat_resolution_status : PyStr;
  feat_customer_has_reply : bool
}.

Definition get_or (o : option string) (default : string) : string :=
  match o with Some s => s | None => default end.

(** Lines 24-65.  No stage writes a ['customer_sentiment'] key, so that
    lookup yields its default. *)
Definition extract_features (conversation : Conversation) : Features :=
  let t := tags conversation in
  let company_responses :=
    filter (fun msg => negb (is_customer_message msg)) (chat_history conversation) in
  {| feat_customer_id := get_or (customer_id conversation) "";
     feat_primary_tweet := primary_tweet conversation;
     feat_nature_of_support := get_or (nature_of_support t) "";
     feat_sentiment := "";
     feat_most_frequent_sentiment := get_or (most_frequent_sentiment t) "";
     feat_most_frequent_support_type := get_or (most_frequent_support_type t) "";
     feat_conversation_length := List.length (chat_history conversation);
     feat_chat_history := chat_history conversation;
     feat_resolved := match resolved t with Some b => b | None => false end;
     feat_resolution_status :=
       match resolution_status t with
       | Some v => v
       | None => PyText "waiting_for_company"
       end;
     feat_customer_has_reply := Nat.ltb 0 (List.length company_responses) |}.

Record Recommendation : Type := {
  rec_customer_id : string;
  rec_channel : string;
  rec_send_time : string;
  rec_message : string;
  rec_reasoning : string;
  rec_issue_status : string
}.

(** The analyzer object: [self.llm] is the client, or [None]. *)
Record NBA : Type := {
  nba_llm : option (string -> result string)
}.

(** Lines 67-85.  The function returns at line 78; the prompt and the call
    of [self.llm] that follow are never reached.  [now] is the formatted
    [datetime.now(timezone.utc)]. *)
Definition determine_next_best_action_llm (self : NBA) (now : string)
           (features : Features) : Recommendation :=
  {| rec_customer_id := feat_customer_id features;
     rec_channel := "twitter_dm_reply";
     rec_send_time := now;
     rec_message := "Thank you for reaching out. We're here to help resolve your issue.";
     rec_reasoning := "Default recommendation - LLM not available";
     rec_issue_status := "pending_customer_reply" |}.

Definition waiting_for_company (features : Features) : bool :=
  pystr_eqb (feat_resolution_status features) "waiting_for_company".

(** Lines 216-218; [clock k] is the time read by call number [k]. *)
Fixpoint recommend_from (self : NBA) (clock : nat -> string) (k : nat)
         (waiting : list Features) : list Recommendation :=
  match waiting with
  | [] => []
  | features :: rest =>
      determine_next_best_action_llm self (clock k) features
        :: recommend_from self clock (S k) rest
  end.

(** Lines 224-226. *)
Definition mark_handled (processed_ids : list string) (conv : Conversation) : Conversation :=
  if is_unprocessed conv && mem (primary_tweet_id conv) processed_ids
  then set_processed true conv else conv.

(** Lines 186-233: the recommendations returned and the input file
    afterwards. *)
Definition process_conversations (self : NBA) (clock : nat -> string)
           (all_conversations : list Conversation)
  : list Recommendation * list Conversation :=
  let conversations := filter is_unprocessed all_conversations in
  let all_features := map extract_features conversations in
  let customers_waiting_for_replies := filter waiting_for_company all_features in
  let processed_ids := map primary_tweet_id conversations in
  (recommend_from self clock 0 customers_waiting_for_replies,
   map (mark_handled processed_ids) all_conversations).

(** ** Sample data *)

Definition batch12 := [tweet "1" "" "alice" true (Some 10%Z); tweet "2" "1" "acme" false (Some 20%Z)].
Definition batch123 := batch12 ++ [tweet "3" "2" "alice" true (Some 30%Z)].
Definition llm_down : Collaborator := fun _ _ => Raised CollaboratorError.

(** ** Vocabulary of the statements *)

Definition occurrences (l : list string) (x : string) : nat := count_occ string_dec l x.

(** [s] is the most frequent element of [l], and every element met before
    the first [s] is strictly less frequent: among the most frequent, [s] is
    the one encountered first. *)
Definition dominant (l : list string) (s : string) : Prop :=
  exists before after,
    l = before ++ s :: after
    /\ ~ In s before
    /\ (forall s', In s' before -> occurrences l s' < occurrences l s)
    /\ (forall s', occurrences l s' <= occurrences l s).

(** The conversations of customer [cid]. *)
Definition has_customer (cid : string) (c : Conversation) : bool :=
  match customer_id c with
  | Some x => x =? cid
  | None => false
  end.

Definition conversations_of (cid : string) (conversations : list Conversation)
  : list Conversation :=
  filter (has_customer cid) conversations.


(** The sample store of the reopening scenario: one settled conversation
    whose only message, its root, was posted at instant 10. *)
Definition settled_root : Conversation :=
  {| primary_tweet_id := "1";
     primary_tweet := "text of 1";
     tail_id := "1";
     customer_id := Some "alice";
     company_id := "";
     chat_history :=
       [{| msg_response_type := Customer; msg_tweet_id := "1";
           msg_text := "text of 1"; msg_created_at := Some 10%Z;
           msg_customer_id := None |}];
     processed := Some true;
     tags := no_tags |}.

(** A reply to that root whose stamp is earlier than the root's. *)
Definition early_reply : list RawRow :=
  [tweet "1" "" "alice" true (Some 10%Z); tweet "2" "1" "acme" false (Some 5%Z)].

(** A reply to that root with a later stamp. *)
Definition late_reply : list RawRow :=
  [tweet "1" "" "alice" true (Some 10%Z); tweet "2" "1" "acme" false (Some 20%Z)].

(** A reply whose parent is in no row of the table. *)
Definition orphan_reply : list RawRow := [tweet "7" "99" "bob" true (Some 5%Z)].


(** The ids of all messages held by the two dictionaries of the second
    loop. *)
Definition thread_ids (st : Threads) : list string :=
  store_ids (dict_values (existing_convo st)) ++ store_ids (dict_values (new_convo st)).

(** What the second loop never changes: the keys of both dictionaries and
    the tails the continuation test looks at; the set of seen ids only
    grows. *)
Definition same_frame (st st' : Threads) : Prop :=
  dict_keys (existing_convo st') = dict_keys (existing_convo st)
  /\ dict_keys (new_convo st') = dict_keys (new_convo st)
  /\ (forall o, matching_conversation (existing_convo st') o
                = matching_conversation (existing_convo st) o)
  /\ incl (existing_tweet_ids st) (existing_tweet_ids st').


Definition orphan_row : Row := clean_row (tweet "7" "99" "bob" true (Some 5%Z)).

(** A table of 4001 rows: 4000 copies of a root tweet, then a tweet that
    appears only in row 4001. *)
Definition long_table : list RawRow :=
  repeat (tweet "1" "" "alice" true (Some 10%Z)) 4000
  ++ [tweet "late" "" "zoe" true (Some 99%Z)].


(** A keyed history in nondecreasing order of its keys. *)
Fixpoint key_sorted (l : list (Z * Message)) : Prop :=
  match l with
  | [] => True
  | x :: rest =>
      match rest with
      | [] => True
      | y :: _ => (fst x <= fst y)%Z
      end /\ key_sorted rest
  end.

(** The store as the dictionary that [load_existing] builds when no two
    records share a root id. *)
Definition as_dict (store : list Conversation) : Dict Conversation :=
  map (fun c => (primary_tweet_id c, c)) store.


(** No stored message of [h] is stamped later than the tweet [n]: whenever
    both stamps parse, the stored one is not the greater. *)
Definition not_earlier (n : Row) (h : list Message) : Prop :=
  forall m t0 tn,
    In m h -> msg_created_at m = Some t0 -> created_at n = Some tn -> (t0 <= tn)%Z.

Definition reply_row : Row := clean_row (tweet "2" "1" "acme" false (Some 20%Z)).

(** The call raised. *)
Definition raises {A : Type} (r : result A) : Prop := exists e, r = Raised e.

(** What the tagging loop leaves on a conversation [c], as [c']. *)
Record tagged_from (api_key : option string) (llm : Collaborator)
       (c c' : Conversation) : Prop := {
  tf_same_id : primary_tweet_id c' = primary_tweet_id c;
  tf_same_history : chat_history c' = chat_history c;
  tf_same_customer : customer_id c' = customer_id c;
  tf_nature :
    classify_support_nature_llm api_key llm (primary_tweet c) (chat_history c)
    = Ok (get_nature_of_support c')
    /\ nature_of_support (tags c') <> None;
  tf_sentiment :
    analyze_sentiment_llm api_key llm (primary_tweet c) (chat_history c)
    = Ok (get_sentiment c')
    /\ sentiment (tags c') <> None;
  tf_status :
    exists v, determine_resolution_status_llm api_key llm (chat_history c) = Ok v
              /\ resolution_status (tags c') = Some v
              /\ resolved (tags c') = Some (pystr_eqb v "resolved")
}.

(** The state of [Counter] after counting the elements of [seen]. *)
Record counted (seen : list string) (acc : Dict nat) : Prop := {
  counted_nodup : NoDup (dict_keys acc);
  counted_get :
    forall x, dict_get x acc
              = if Nat.eqb (occurrences seen x) 0 then None else Some (occurrences seen x);
  counted_order :
    forall before s after,
      seen = before ++ s :: after -> ~ In s before ->
      exists k1 k2, dict_keys acc = k1 ++ s :: k2 /\ incl before k1
}.

(** The group of a customer after more of their conversations are met. *)
Definition merge_group (o : option (list Conversation)) (l : list Conversation)
  : option (list Conversation) :=
  match o, l with
  | None, [] => None
  | None, _ :: _ => Some l
  | Some a, _ => Some (a ++ l)
  end.

(** Every conversation opened by the first loop is rooted at a row of the
    table that answers no tweet, and starts with an empty history. *)
Definition opened_at (df : list Row) (kv : string * Conversation) : Prop :=
  exists row,
    rows_with_id (fst kv) df = Some row
    /\ in_response_to_tweet_id row = ""
    /\ snd kv = new_conversation (fst kv) (text row).

(** [del_customer_id] under a sort key. *)
Definition del_keyed (p : Z * Message) : Z * Message := (fst p, del_customer_id (snd p)).


(** Three tagged conversations of customer "X", with sentiments Negative,
    Negative, Positive, and one conversation without a customer id. *)
Definition tagged_as (cid : option string) (senti : string) : Conversation :=
  {| primary_tweet_id := "r"; primary_tweet := ""; tail_id := "r";
     customer_id := cid; company_id := ""; chat_history := [];
     processed := Some false;
     tags := {| nature_of_support := None; sentiment := Some senti;
                resolved := None; resolution_status := None;
                most_frequent_sentiment := None;
                most_frequent_support_type := None |} |}.

Definition customer_x : list Conversation :=
  [tagged_as (Some "X") "Negative"; tagged_as (Some "") "Positive";
   tagged_as (Some "X") "Negative"; tagged_as None "Positive";
   tagged_as (Some "X") "Positive"].


(** ** Vocabulary of the further properties *)

(** A path of rows from a tweet up to the root of its thread: each row
    answers the next one, and the last one answers nothing. *)
Fixpoint climbs (path : list Row) : Prop :=
  match path with
  | [] => False
  | t :: rest =>
      match rest with
      | [] => in_response_to_tweet_id t = ""
      | p :: _ => in_response_to_tweet_id t = tweet_id p /\ climbs rest
      end
  end.

(** A set of ids of the table that following parent references never
    leaves: each id has a row, and that row answers an id of the set. *)
Definition trapped (df : list Row) (ids : list string) : Prop :=
  forall x, In x ids ->
            x <> ""
            /\ exists row, rows_with_id x df = Some row
                           /\ in_response_to_tweet_id row <> ""
                           /\ In (in_response_to_tweet_id row) ids.

(** Sample tables: a thread of three tweets listed in both orders, and a
    tweet that answers itself. *)
Definition thread_up : list RawRow :=
  [tweet "a" "" "alice" true (Some 1%Z); tweet "b" "a" "acme" false (Some 2%Z);
   tweet "c" "b" "alice" true (Some 3%Z)].

Definition thread_down : list RawRow := rev thread_up.

Definition self_reply : list RawRow := [tweet "5" "5" "bob" true (Some 1%Z)].


(** A stored conversation [c] as the second loop has it, [c']: entries were
    appended or not, and the flag was reset exactly when some were. *)
Definition grown (c c' : Conversation) : Prop :=
  primary_tweet_id c' = primary_tweet_id c
  /\ primary_tweet c' = primary_tweet c
  /\ tags c' = tags c
  /\ exists extra,
      chat_history c' = chat_history c ++ extra
      /\ ((extra = [] /\ processed c' = processed c)
          \/ (extra <> [] /\ processed c' = Some false)).

(** A stored conversation [c] as a run returns it, [c']: same root, same
    root text, same tags, no message lost; either the history has the same
    length and the flag is the stored one, or the history is longer and the
    conversation is unprocessed. *)
Definition carried (c c' : Conversation) : Prop :=
  primary_tweet_id c' = primary_tweet_id c
  /\ primary_tweet c' = primary_tweet c
  /\ tags c' = tags c
  /\ incl (history_ids (chat_history c)) (history_ids (chat_history c'))
  /\ ((List.length (chat_history c') = List.length (chat_history c)
       /\ processed c' = processed c)
      \/ (List.length (chat_history c) < List.length (chat_history c')
          /\ processed c' = Some false)).


(** ** nba.py: the constructor *)

(** Lines 12-22.  [client] is what building the client gives: the client,
    or the exception raised. *)
Definition nba_init (api_key : option string) (client : result (string -> result string))
  : NBA :=
  {| nba_llm :=
       if truthy_opt api_key then
         match client with
         | Ok c => Some c
         | Raised _ => None
         end
       else None |}.

(** ** main.py: ingestion, tagging and recommendation *)

(** The three JSON files that lines 21-62 of [main.py] read and write.  A
    raw file that does not exist is read as the empty list
    (data_pipeline.py, lines 33-34) and so is a recommendation file that
    does not exist (main.py, lines 55-59).  The tagged file is opened by
    [NBA.process_conversations] outside any [try] (nba.py, lines 192-193):
    it is [None] when it does not exist. *)
Record Files : Type := {
  raw_json : list Conversation;               (* data/twitter_conversations_raw.json *)
  tagged_json : option (list Conversation);   (* data/twitter_conversations_tagged.json *)
  nba_json : list Recommendation              (* data/nba.json *)
}.

(** tagging.py, lines 363-367: an output file that does not exist is read as
    the empty list. *)
Definition read_or_empty (file : option (list Conversation)) : list Conversation :=
  match file with
  | Some existing => existing
  | None => []
  end.

(** The tagged file after the tagging stage.  [tag_conversations] writes it
    (lines 360-379) unless it returned at line 309, which is when the list
    it returns is empty; a file that did not exist is then still missing. *)
Definition tagged_file_after (before : option (list Conversation)) (run : TagRun)
  : option (list Conversation) :=
  match tagged run, before with
  | [], None => None
  | _, _ => Some (tagged_file run)
  end.

(** Lines 21-62 with [mbti = False]: one run of the three stages on the
    files.  Opening a tagged file that does not exist raises
    [FileNotFoundError], which nothing catches.  The evaluation and the
    export that follow write other files. *)
Definition main_stages (py : Interp) (api_key : option string) (llm : Collaborator)
           (client : result (string -> result string)) (clock : nat -> string)
           (csv : list RawRow) (files : Files) : result Files :=
  conversations <- convert_twitter_csv_to_json py csv (raw_json files) ;;
  run <- tag_conversations api_key llm conversations (read_or_empty (tagged_json files)) ;;
  let analyzer := nba_init api_key client in
  match tagged_file_after (tagged_json files) run with
  | None => Raised FileNotFoundError
  | Some tagged_conversations =>
      let processed := process_conversations analyzer clock tagged_conversations in
      Ok {| raw_json := raw_file run;
            tagged_json := Some (snd processed);
            nba_json := nba_json files ++ fst processed |}
  end.

Definition no_files : Files := {| raw_json := []; tagged_json := None; nba_json := [] |}.

(** ** export_to_csv.py *)

Record CsvRow : Type := {
  csv_customer_id : string;
  csv_channel : string;
  csv_send_time : string;
  csv_message : string;
  csv_reasoning : string;
  csv_issue_status : string;
  csv_chat_log : string
}.

(** Lines 32-35: the conversations by customer id; a later conversation of
    the same customer replaces an earlier one. *)
Definition conversations_by_customer (conversations : list Conversation)
  : Dict Conversation :=
  fold_left
    (fun data conv =>
       match customer_id conv with
       | Some cid => if truthy cid then dict_set cid conv data else data
       | None => data
       end)
    conversations [].

Definition response_type_name (t : ResponseType) : string :=
  match t with
  | Customer => "Customer"
  | Company => "Company"
  end.

(** Line 64. *)
Definition chat_line (msg : Message) : string :=
  ("[" ++ response_type_name (msg_response_type msg) ++ "]: " ++ msg_text msg)%string.

(** Lines 59-70: the lines of the chat log of a conversation, with the
    recommended message last when the history is not empty. *)
Definition chat_lines_with (message : string) (conversation : Conversation) : list string :=
  match map chat_line (chat_history conversation) with
  | [] => []
  | lines => lines ++ [("[Company - RECOMMENDED]: " ++ message)%string]
  end.

(** Lines 44-84: the row of one recommendation. *)
Definition export_row (conversations_data : Dict Conversation) (nba_item : Recommendation)
  : CsvRow :=
  {| csv_customer_id := rec_customer_id nba_item;
     csv_channel := rec_channel nba_item;
     csv_send_time := rec_send_time nba_item;
     csv_message := rec_message nba_item;
     csv_reasoning := rec_reasoning nba_item;
     csv_issue_status := rec_issue_status nba_item;
     csv_chat_log :=
       match dict_get (rec_customer_id nba_item) conversations_data with
       | Some conversation =>
           String.concat newline (chat_lines_with (rec_message nba_item) conversation)
       | None => ""
       end |}.

(** Lines 6-87, called with the path of the conversations file: the rows of
    the table written to [output_csv_path]. *)
Definition export_nba_to_csv (nba_data : list Recommendation)
           (conversations : list Conversation) : list CsvRow :=
  map (export_row (conversations_by_customer conversations)) nba_data.

(** A collaborator that answers every question with the same text. *)
Definition llm_says (content : string) : Collaborator := fun _ _ => Ok content.


(** Strings made of whitespace only, and of decimal digits only. *)
Fixpoint all_spaces (s : string) : bool :=
  match s with
  | EmptyString => true
  | String c s' => is_space c && all_spaces s'
  end.

Fixpoint all_digits (s : string) : bool :=
  match s with
  | EmptyString => true
  | String c s' => is_digit c && all_digits s'
  end.

(** All conversations of a file are marked processed. *)
Definition all_settled (l : list Conversation) : Prop :=
  Forall (fun c => processed c = Some true) l.

(** Two conversations of the same customer and a recommendation for that
    customer, for the export. *)
Definition two_of_bob : list Conversation :=
  [{| primary_tweet_id := "10"; primary_tweet := "first"; tail_id := "10";
      customer_id := Some "bob"; company_id := "";
      chat_history :=
        [{| msg_response_type := Customer; msg_tweet_id := "10"; msg_text := "first";
            msg_created_at := Some 1%Z; msg_customer_id := None |}];
      processed := Some true; tags := no_tags |};
   {| primary_tweet_id := "20"; primary_tweet := "second"; tail_id := "20";
      customer_id := Some "bob"; company_id := "";
      chat_history :=
        [{| msg_response_type := Customer; msg_tweet_id := "20"; msg_text := "second";
            msg_created_at := Some 2%Z; msg_customer_id := None |}];
      processed := Some true; tags := no_tags |}].

Definition for_bob : Recommendation :=
  {| rec_customer_id := "bob"; rec_channel := "twitter_dm_reply";
     rec_send_time := "now"; rec_message := "hello"; rec_reasoning := "";
     rec_issue_status := "pending_customer_reply" |}.

(** ** Running again in another process *)

(** A runtime whose sets list their elements the other way round. *)
Definition other_process : Interp :=
  {| recursion_limit := 1000; set_first := fun ids => last ids "" |}.

(** A thread that two company accounts answer. *)
Definition two_agents : list RawRow :=
  [tweet "1" "" "alice" true (Some 10%Z);
   tweet "2" "1" "acme_anna" false (Some 20%Z);
   tweet "3" "2" "acme_bob" false (Some 30%Z)].

(** [c] is as the finalization of a run under [py] on the table [df] leaves
    a conversation: the history sorted and without customer ids, the tail
    id taken from it, the company id picked by [py] among the company
    accounts of the history. *)
Definition finalized_by (py : Interp) (df : list Row) (c : Conversation) : Prop :=
  sort_chat_history (chat_history c) = chat_history c
  /\ map del_customer_id (chat_history c) = chat_history c
  /\ last (history_ids (chat_history c)) (tail_id c) = tail_id c
  /\ match company_ids_of df (chat_history c) with
     | [] => True
     | ids => company_id c = set_first py ids
     end.

(** [c'] is [c] but for its company id, which each of the two runtimes
    picked among the same company accounts, those of the history that the
    table knows; when there is none the company id is that of [c]. *)
Definition repicked (py py' : Interp) (df : list Row) (c c' : Conversation) : Prop :=
  c' = set_company_id (company_id c') c
  /\ match company_ids_of df (chat_history c) with
     | [] => company_id c' = company_id c
     | ids => company_id c = set_first py ids /\ company_id c' = set_first py' ids
     end.

(** The store a first pipeline run on the thread 1 <- 2 leaves: one
    conversation, marked processed by the tagging stage. *)
Definition settled_thread : list Conversation :=
  map (set_processed true) (ingest_all cpython [batch12]).

(** A collaborator with one reply per prompt. *)
Definition llm_answers (nature senti status : string) : Collaborator :=
  fun kind _ =>
    match kind with
    | SupportNaturePrompt => Ok nature
    | SentimentPrompt => Ok senti
    | ResolutionPrompt => Ok status
    end.

(** ** Shapes of a reply *)

(** A label without whitespace at either end. *)
Definition bare (label : string) : Prop :=
  label <> "" /\ lstrip label = label /\ rstrip label = label.

(** [reply] is [label] with whitespace around it. *)
Definition padded (reply label : string) : Prop :=
  exists before after,
    all_spaces before = true /\ all_spaces after = true
    /\ reply = (before ++ label ++ after)%string.

(** [reply] is [label] behind an enumeration marker, digits and a dot, with
    whitespace anywhere around. *)
Definition enumerated (reply label : string) : Prop :=
  exists before digits gap after,
    all_spaces before = true /\ all_spaces gap = true /\ all_spaces after = true
    /\ all_digits digits = true /\ digits <> ""
    /\ reply = (before ++ digits ++ "." ++ gap ++ label ++ after)%string.

(** * Properties *)

(** ** The enrichment stage under collaborator failure *)

Lemma classify_support_nature_llm_total api_key llm p h :
  exists v, classify_support_nature_llm api_key llm p h = Ok v.
Proof.
  unfold classify_support_nature_llm.
  destruct (truthy_opt api_key); [|eauto].
  destruct (llm SupportNaturePrompt (customer_context p h)); simpl; eauto.
Qed.

Lemma classify_support_nature_llm_failure api_key llm p h :
  raises (llm SupportNaturePrompt (customer_context p h)) ->
  classify_support_nature_llm api_key llm p h = Ok default_support_nature.
Proof.
  intros [e He]. unfold classify_support_nature_llm.
  destruct (truthy_opt api_key); [|reflexivity].
  rewrite He. reflexivity.
Qed.

Lemma analyze_sentiment_llm_total api_key llm p h :
  exists v, analyze_sentiment_llm api_key llm p h = Ok v.
Proof.
  unfold analyze_sentiment_llm.
  destruct (truthy_opt api_key); [|eauto].
  destruct (llm SentimentPrompt (customer_context p h)); simpl; eauto.
Qed.

Lemma analyze_sentiment_llm_failure api_key llm p h :
  raises (llm SentimentPrompt (customer_context p h)) ->
  analyze_sentiment_llm api_key llm p h = Ok default_sentiment.
Proof.
  intros [e He]. unfold analyze_sentiment_llm.
  destruct (truthy_opt api_key); [|reflexivity].
  rewrite He. reflexivity.
Qed.

Lemma determine_resolution_status_llm_total api_key llm h :
  exists v, determine_resolution_status_llm api_key llm h = Ok v.
Proof.
  unfold determine_resolution_status_llm.
  destruct h as [|m h]; [eauto|].
  destruct (llm ResolutionPrompt (resolution_context (m :: h))); simpl;
    destruct (truthy_opt api_key); eauto.
Qed.

Lemma determine_resolution_status_llm_failure api_key llm h :
  h <> [] ->
  raises (llm ResolutionPrompt (resolution_context h)) ->
  determine_resolution_status_llm api_key llm h = Ok PyNone.
Proof.
  intros Hh [e He]. unfold determine_resolution_status_llm.
  destruct h as [|m h]; [congruence|].
  rewrite He. simpl. destruct (truthy_opt api_key); reflexivity.
Qed.

Lemma determine_resolution_status_llm_unresolved api_key llm h :
  raises (llm ResolutionPrompt (resolution_context h)) ->
  exists v, determine_resolution_status_llm api_key llm h = Ok v
            /\ pystr_eqb v "resolved" = false.
Proof.
  intros Hr. destruct h as [|m h].
  - exists (PyText "waiting_for_company"). split; reflexivity.
  - exists PyNone. split; [|reflexivity].
    apply determine_resolution_status_llm_failure; [discriminate|assumption].
Qed.

Lemma tag_one_spec api_key llm c :
  exists c', tag_one api_key llm c = Ok c' /\ tagged_from api_key llm c c'.
Proof.
  unfold tag_one.
  destruct (classify_support_nature_llm_total api_key llm (primary_tweet c) (chat_history c))
    as [n Hn].
  destruct (analyze_sentiment_llm_total api_key llm (primary_tweet c) (chat_history c))
    as [s Hs].
  destruct (determine_resolution_status_llm_total api_key llm (chat_history c)) as [v Hv].
  rewrite Hn, Hs, Hv. simpl.
  eexists. split; [reflexivity|].
  constructor; simpl; try reflexivity.
  - split; [assumption|discriminate].
  - split; [assumption|discriminate].
  - exists v. auto.
Qed.

Lemma map_each_spec {A B : Type} (f : A -> result B) (P : A -> B -> Prop) (l : list A) :
  (forall x, exists y, f x = Ok y /\ P x y) ->
  exists ys, map_each f l = Ok ys /\ Forall2 P l ys.
Proof.
  intros Hf. induction l as [|x l IH]; simpl.
  - exists []. split; [reflexivity|constructor].
  - destruct (Hf x) as [y [Hy HP]]. destruct IH as [ys [Hys HF]].
    rewrite Hy, Hys. simpl. exists (y :: ys). split; [reflexivity|].
    constructor; assumption.
Qed.

Lemma tagged_from_add_patterns api_key llm pats c c' :
  tagged_from api_key llm c c' ->
  tagged_from api_key llm c (set_processed false (add_patterns pats c')).
Proof.
  intros [H1 H2 H3 H4 H5 H6]. constructor; simpl; assumption.
Qed.

Lemma Forall2_map_r {A B C : Type} (P : A -> B -> Prop) (Q : A -> C -> Prop)
      (g : B -> C) (l : list A) (l' : list B) :
  (forall a b, P a b -> Q a (g b)) ->
  Forall2 P l l' -> Forall2 Q l (map g l').
Proof.
  intros HPQ HF. induction HF; simpl; constructor; auto.
Qed.

Lemma tag_conversations_spec api_key llm conversations existing :
  exists run,
    tag_conversations api_key llm conversations existing = Ok run
    /\ Forall2 (tagged_from api_key llm) (filter is_unprocessed conversations) (tagged run).
Proof.
  unfold tag_conversations.
  destruct (filter is_unprocessed conversations) as [|c0 rest] eqn:Hu.
  - eexists. split; [reflexivity|]. simpl. constructor.
  - destruct (map_each_spec (tag_one api_key llm) (tagged_from api_key llm) (c0 :: rest)
                (tag_one_spec api_key llm)) as [ys [Hys HF]].
    rewrite Hys. simpl. eexists. split; [reflexivity|]. simpl.
    rewrite map_map.
    eapply Forall2_map_r; [|exact HF].
    intros a b Hab. apply tagged_from_add_patterns. exact Hab.
Qed.

(** C7.  However the collaborator behaves, the enrichment run returns, with
    one tagged record per unprocessed conversation, in order.  For each of
    them: if the support-nature call raises, the category is
    "Technical Issue (Simple / Minor)"; if the sentiment call raises, the
    sentiment is "Neutral"; if the resolution call raises, the conversation
    is not marked resolved, and its resolution status is [None] when it has
    a history. *)
Theorem tagging_defaults_on_collaborator_failure :
  forall (api_key : option string) (llm : Collaborator)
         (conversations existing : list Conversation),
  exists run,
    tag_conversations api_key llm conversations existing = Ok run
    /\ Forall2
         (fun c c' =>
            primary_tweet_id c' = primary_tweet_id c
            /\ (raises (llm SupportNaturePrompt
                          (customer_context (primary_tweet c) (chat_history c))) ->
                nature_of_support (tags c') = Some default_support_nature)
            /\ (raises (llm SentimentPrompt
                          (customer_context (primary_tweet c) (chat_history c))) ->
                sentiment (tags c') = Some default_sentiment)
            /\ (raises (llm ResolutionPrompt (resolution_context (chat_history c))) ->
                resolved (tags c') = Some false
                /\ (chat_history c <> [] -> resolution_status (tags c') = Some PyNone)))
         (filter is_unprocessed conversations) (tagged run).
Proof.
  intros api_key llm conversations existing.
  destruct (tag_conversations_spec api_key llm conversations existing) as [run [Hrun HF]].
  exists run. split; [exact Hrun|].
  eapply Forall2_impl; [|exact HF].
  intros c c' [Hid _ _ [Hn Hn'] [Hs Hs'] [v [Hv [Hst Hres]]]].
  split; [exact Hid|]. split; [|split].
  - intros Hr. rewrite (classify_support_nature_llm_failure _ _ _ _ Hr) in Hn.
    unfold get_nature_of_support in Hn.
    destruct (nature_of_support (tags c')); congruence.
  - intros Hr. rewrite (analyze_sentiment_llm_failure _ _ _ _ Hr) in Hs.
    unfold get_sentiment in Hs.
    destruct (sentiment (tags c')); congruence.
  - intros Hr. split.
    + destruct (determine_resolution_status_llm_unresolved api_key llm _ Hr)
        as [v' [Hv' Hnot]].
      rewrite Hv in Hv'. injection Hv' as <-. rewrite Hres, Hnot. reflexivity.
    + intros Hh.
      rewrite (determine_resolution_status_llm_failure _ _ _ Hh Hr) in Hv.
      injection Hv as <-. exact Hst.
Qed.

(** C10.  With an empty history the resolution status is
    "waiting_for_company".  With a history, the missing-key branch changes
    nothing, and when the call raises the function returns [None]; the
    tagging run then stores [resolution_status = None] and
    [resolved = False], and the dispatcher's filter rejects the record. *)
Theorem resolution_failure_yields_none :
  forall (api_key : option string) (llm : Collaborator),
    determine_resolution_status_llm api_key llm [] = Ok (PyText "waiting_for_company")
    /\ (forall h, determine_resolution_status_llm None llm h
                  = determine_resolution_status_llm api_key llm h)
    /\ (forall h, h <> [] ->
                  raises (llm ResolutionPrompt (resolution_context h)) ->
                  determine_resolution_status_llm api_key llm h = Ok PyNone)
    /\ (forall conversations existing,
          exists run,
            tag_conversations api_key llm conversations existing = Ok run
            /\ Forall2
                 (fun c c' =>
                    chat_history c <> [] ->
                    raises (llm ResolutionPrompt (resolution_context (chat_history c))) ->
                    resolution_status (tags c') = Some PyNone
                    /\ resolved (tags c') = Some false
                    /\ waiting_for_company (extract_features c') = false)
                 (filter is_unprocessed conversations) (tagged run)).
Proof.
  intros api_key llm. split; [reflexivity|]. split; [|split].
  - intros h. unfold determine_resolution_status_llm.
    destruct h; [reflexivity|]. simpl. destruct (truthy_opt api_key); reflexivity.
  - intros h Hh Hr. apply determine_resolution_status_llm_failure; assumption.
  - intros conversations existing.
    destruct (tag_conversations_spec api_key llm conversations existing) as [run [Hrun HF]].
    exists run. split; [exact Hrun|].
    eapply Forall2_impl; [|exact HF].
    intros c c' [_ _ _ _ _ [v [Hv [Hst Hres]]]] Hh Hr.
    rewrite (determine_resolution_status_llm_failure _ _ _ Hh Hr) in Hv.
    injection Hv as <-.
    split; [exact Hst|]. split; [exact Hres|].
    unfold waiting_for_company, extract_features. simpl. rewrite Hst. reflexivity.
Qed.

Example resolution_failure_sample :
  exists run,
    tag_conversations None llm_down (ingest_all cpython [batch12]) [] = Ok run
    /\ map (fun c => (resolution_status (tags c), resolved (tags c))) (tagged run)
       = [(Some PyNone, Some false)]
    /\ fst (process_conversations {| nba_llm := None |} (fun _ => "now") (tagged_file run))
       = [].
Proof. eexists. split; [reflexivity|]. split; reflexivity. Qed.

(** ** The recommendation stage *)

Lemma recommend_from_spec self clock waiting :
  forall k,
    Forall2
      (fun f r =>
         rec_customer_id r = feat_customer_id f
         /\ rec_channel r = "twitter_dm_reply"
         /\ rec_message r = "Thank you for reaching out. We're here to help resolve your issue."
         /\ rec_issue_status r = "pending_customer_reply")
      waiting (recommend_from self clock k waiting).
Proof.
  induction waiting as [|f rest IH]; intros k; simpl; constructor; auto.
Qed.

Lemma filter_map_comm {A B : Type} (g : A -> B) (p : B -> bool) (l : list A) :
  filter p (map g l) = map g (filter (fun a => p (g a)) l).
Proof.
  induction l as [|a l IH]; simpl; [reflexivity|].
  destruct (p (g a)); simpl; rewrite IH; reflexivity.
Qed.

Lemma filter_filter {A : Type} (p q : A -> bool) (l : list A) :
  filter p (filter q l) = filter (fun a => q a && p a) l.
Proof.
  induction l as [|a l IH]; simpl; [reflexivity|].
  destruct (q a); simpl; [destruct (p a)|]; rewrite IH; reflexivity.
Qed.

Lemma Forall2_map_l {A B C : Type} (P : B -> C -> Prop) (g : A -> B)
      (l : list A) (l' : list C) :
  Forall2 P (map g l) l' -> Forall2 (fun a c => P (g a) c) l l'.
Proof.
  revert l'. induction l as [|a l IH]; intros l' H; inversion H; subst; constructor; auto.
Qed.

(** C8.  The dispatcher returns exactly one recommendation per unprocessed
    conversation whose resolution status is "waiting_for_company", in
    order; whatever the client [self.llm] is or does, that record is the
    fixed default: channel "twitter_dm_reply", the generic acknowledgment
    and issue status "pending_customer_reply". *)
Theorem every_waiting_conversation_gets_the_default :
  forall (self : NBA) (clock : nat -> string) (all_conversations : list Conversation),
    let eligible :=
      filter (fun c => is_unprocessed c && waiting_for_company (extract_features c))
             all_conversations in
    Forall2
      (fun c r =>
         rec_customer_id r = get_or (customer_id c) ""
         /\ rec_channel r = "twitter_dm_reply"
         /\ rec_message r = "Thank you for reaching out. We're here to help resolve your issue."
         /\ rec_issue_status r = "pending_customer_reply")
      eligible (fst (process_conversations self clock all_conversations))
    /\ (forall c, In c all_conversations ->
                  is_unprocessed c = true ->
                  resolution_status (tags c) = Some (PyText "waiting_for_company") ->
                  In c eligible).
Proof.
  intros self clock all_conversations eligible. split.
  - unfold process_conversations. simpl.
    rewrite filter_map_comm, filter_filter.
    apply (Forall2_map_l
             (fun f r =>
                rec_customer_id r = feat_customer_id f
                /\ rec_channel r = "twitter_dm_reply"
                /\ rec_message r
                   = "Thank you for reaching out. We're here to help resolve your issue."
                /\ rec_issue_status r = "pending_customer_reply")
             extract_features).
    apply recommend_from_spec.
  - intros c Hin Hu Hst. apply filter_In. split; [exact Hin|].
    rewrite Hu. unfold waiting_for_company, extract_features. simpl.
    rewrite Hst. reflexivity.
Qed.

(** ** Dictionaries *)

Section DictFacts.
Context {V : Type}.
Implicit Types (d : Dict V) (k : string).

Lemma dict_mem_In k d : dict_mem k d = true <-> In k (dict_keys d).
Proof.
  unfold dict_mem, dict_keys. rewrite existsb_exists, in_map_iff. split.
  - intros [kv [Hin Heq]]. apply String.eqb_eq in Heq. eauto.
  - intros [kv [Heq Hin]]. exists kv. split; [exact Hin|]. now apply String.eqb_eq.
Qed.

Lemma dict_mem_false k d : dict_mem k d = false <-> ~ In k (dict_keys d).
Proof.
  rewrite <- dict_mem_In. destruct (dict_mem k d); split; congruence.
Qed.

Lemma dict_get_mem k d : dict_mem k d = true <-> exists v, dict_get k d = Some v.
Proof.
  unfold dict_get, dict_mem. induction d as [|[k' v'] d IH]; simpl.
  - split; [discriminate|intros [v Hv]; discriminate].
  - destruct (k' =? k); simpl; [split; eauto|exact IH].
Qed.

Lemma dict_get_none k d : dict_mem k d = false <-> dict_get k d = None.
Proof.
  pose proof (dict_get_mem k d) as H.
  destruct (dict_mem k d), (dict_get k d) as [v|]; split; try congruence.
  - intros _. destruct H as [H _]. destruct (H eq_refl); discriminate.
  - intros _. destruct H as [_ H]. exfalso.
    assert (false = true) by (apply H; eauto). discriminate.
Qed.

Lemma dict_keys_update k f d : dict_keys (dict_update k f d) = dict_keys d.
Proof.
  induction d as [|[k' v'] d IH]; simpl; [reflexivity|].
  destruct (k' =? k); simpl; [reflexivity|]. now rewrite IH.
Qed.

Lemma dict_mem_update k k' f d : dict_mem k' (dict_update k f d) = dict_mem k' d.
Proof.
  induction d as [|[k0 v0] d IH]; simpl; [reflexivity|].
  destruct (k0 =? k); simpl; [reflexivity|]. now rewrite IH.
Qed.

Lemma dict_keys_set k v d :
  dict_keys (dict_set k v d) = if dict_mem k d then dict_keys d else dict_keys d ++ [k].
Proof.
  induction d as [|[k' v'] d IH]; simpl; [reflexivity|].
  destruct (k' =? k) eqn:E; simpl.
  - apply String.eqb_eq in E. now subst.
  - rewrite IH. now destruct (dict_mem k d).
Qed.

Lemma dict_get_set_same k v d : dict_get k (dict_set k v d) = Some v.
Proof.
  unfold dict_get. induction d as [|[k' v'] d IH]; simpl.
  - now rewrite String.eqb_refl.
  - destruct (k' =? k) eqn:E; simpl.
    + now rewrite String.eqb_refl.
    + rewrite E. exact IH.
Qed.

Lemma dict_get_set_other k k' v d :
  k' <> k -> dict_get k' (dict_set k v d) = dict_get k' d.
Proof.
  intros Hne. unfold dict_get. induction d as [|[k0 v0] d IH]; simpl.
  - apply String.eqb_neq in Hne. rewrite String.eqb_sym, Hne. reflexivity.
  - destruct (k0 =? k) eqn:E; simpl.
    + apply String.eqb_eq in E. subst k0.
      assert (H : (k =? k') = false) by (apply String.eqb_neq; congruence).
      now rewrite H.
    + destruct (k0 =? k'); [reflexivity|exact IH].
Qed.

Lemma dict_get_update_same k f d :
  dict_get k (dict_update k f d) = option_map f (dict_get k d).
Proof.
  unfold dict_get. induction d as [|[k' v'] d IH]; simpl; [reflexivity|].
  destruct (k' =? k) eqn:E; simpl; rewrite E; [reflexivity|exact IH].
Qed.

Lemma dict_get_update_other k k' f d :
  k' <> k -> dict_get k' (dict_update k f d) = dict_get k' d.
Proof.
  intros Hne. unfold dict_get. induction d as [|[k0 v0] d IH]; simpl; [reflexivity|].
  destruct (k0 =? k) eqn:E; simpl.
  - apply String.eqb_eq in E. subst k0.
    assert (H : (k =? k') = false) by (apply String.eqb_neq; congruence).
    now rewrite H.
  - destruct (k0 =? k'); [reflexivity|exact IH].
Qed.

Lemma dict_get_In k v d : dict_get k d = Some v -> In (k, v) d.
Proof.
  unfold dict_get. induction d as [|[k' v'] d IH]; simpl; [discriminate|].
  destruct (k' =? k) eqn:E; simpl.
  - apply String.eqb_eq in E. intros [= <-]. left. congruence.
  - intros H. right. auto.
Qed.

Lemma dict_In_get k v d : NoDup (dict_keys d) -> In (k, v) d -> dict_get k d = Some v.
Proof.
  unfold dict_get. induction d as [|[k' v'] d IH]; simpl; [contradiction|].
  intros Hnd [Heq|Hin].
  - injection Heq as -> ->. now rewrite String.eqb_refl.
  - inversion Hnd as [|? ? Hnotin Hnd']; subst.
    destruct (k' =? k) eqn:E.
    + apply String.eqb_eq in E. subst k'. exfalso. apply Hnotin.
      apply in_map_iff. exists (k, v). auto.
    + now apply IH.
Qed.

Lemma dict_keys_set_NoDup k v d : NoDup (dict_keys d) -> NoDup (dict_keys (dict_set k v d)).
Proof.
  intros Hnd. rewrite dict_keys_set. destruct (dict_mem k d) eqn:E; [exact Hnd|].
  apply dict_mem_false in E.
  apply NoDup_app; [exact Hnd|repeat constructor; simpl; tauto|].
  intros a Ha [<-|[]]. contradiction.
Qed.
End DictFacts.

Lemma mem_In x s : mem x s = true <-> In x s.
Proof.
  unfold mem. rewrite existsb_exists. split.
  - intros [y [Hin Heq]]. apply String.eqb_eq in Heq. now subst.
  - intros Hin. exists x. split; [exact Hin|apply String.eqb_refl].
Qed.

Lemma mem_false x s : mem x s = false <-> ~ In x s.
Proof.
  rewrite <- mem_In. destruct (mem x s); split; congruence.
Qed.

Lemma set_add_In x y s : In y (set_add x s) <-> y = x \/ In y s.
Proof.
  unfold set_add. destruct (mem x s) eqn:E.
  - apply mem_In in E. split; [tauto|]. intros [->|H]; assumption.
  - rewrite in_app_iff. simpl. split; [intros [H|[H|[]]]; auto|intros [H|H]; auto].
Qed.

(** ** The customer pattern aggregator *)

Lemma occurrences_snoc l x y :
  occurrences (l ++ [x]) y = occurrences l y + (if string_dec x y then 1 else 0).
Proof.
  unfold occurrences. rewrite count_occ_app. simpl. destruct (string_dec x y); reflexivity.
Qed.

Lemma occurrences_pos l x : occurrences l x <> 0 <-> In x l.
Proof.
  unfold occurrences. rewrite (count_occ_In string_dec). lia.
Qed.

Lemma counted_keys seen acc x : counted seen acc -> In x seen -> In x (dict_keys acc).
Proof.
  intros H Hin. apply dict_mem_In. apply dict_get_mem.
  rewrite (counted_get _ _ H). apply occurrences_pos in Hin.
  destruct (Nat.eqb_spec (occurrences seen x) 0); [contradiction|eauto].
Qed.

Lemma counted_mem seen acc x : counted seen acc -> dict_mem x acc = true <-> In x seen.
Proof.
  intros H. rewrite dict_get_mem, (counted_get _ _ H), <- occurrences_pos.
  destruct (Nat.eqb_spec (occurrences seen x) 0) as [E|E]; split; try congruence.
  - intros [v Hv]. discriminate.
  - eauto.
Qed.

Lemma counted_step seen acc x :
  counted seen acc -> counted (seen ++ [x]) (count_one acc x).
Proof.
  intros H. pose proof (counted_mem seen acc x H) as Hmem.
  unfold count_one. constructor.
  - destruct (dict_mem x acc).
    + rewrite dict_keys_update. apply (counted_nodup _ _ H).
    + apply dict_keys_set_NoDup. apply (counted_nodup _ _ H).
  - intros y. rewrite occurrences_snoc.
    pose proof (counted_get _ _ H y) as Hy.
    pose proof (counted_get _ _ H x) as Hx.
    destruct (dict_mem x acc) eqn:E.
    + destruct (string_dec x y) as [->|Hne].
      * rewrite dict_get_update_same, Hy.
        destruct (Nat.eqb_spec (occurrences seen y) 0) as [E0|E0].
        -- exfalso. apply occurrences_pos in E0; [exact E0|]. now apply Hmem.
        -- simpl. destruct (Nat.eqb_spec (occurrences seen y + 1) 0); [lia|].
           f_equal. lia.
      * rewrite dict_get_update_other by congruence. rewrite Hy, Nat.add_0_r. reflexivity.
    + assert (Hx0 : occurrences seen x = 0).
      { destruct (Nat.eq_dec (occurrences seen x) 0) as [E0|E0]; [exact E0|].
        apply occurrences_pos in E0. apply Hmem in E0. congruence. }
      destruct (string_dec x y) as [->|Hne].
      * rewrite dict_get_set_same, Hx0. reflexivity.
      * rewrite dict_get_set_other by congruence. rewrite Hy, Nat.add_0_r. reflexivity.
  - intros before s after Heq Hnot.
    destruct (exists_last (l := s :: after)) as [body [z Hlast]]; [discriminate|].
    replace (before ++ s :: after) with ((before ++ body) ++ [z]) in Heq
      by (rewrite <- app_assoc, <- Hlast; reflexivity).
    apply app_inj_tail in Heq. destruct Heq as [Hseen ->].
    destruct body as [|s0 body].
    + simpl in Hlast. injection Hlast as -> ->.
      rewrite app_nil_r in Hseen. subst before.
      assert (E : dict_mem z acc = false).
      { apply dict_mem_false. intros Hk. apply dict_mem_In in Hk.
        apply Hmem in Hk. contradiction. }
      rewrite E, dict_keys_set, E.
      exists (dict_keys acc), []. split; [reflexivity|].
      intros y Hy. eapply counted_keys; eassumption.
    + simpl in Hlast. injection Hlast as <- ->.
      destruct (counted_order _ _ H before s body Hseen Hnot) as [k1 [k2 [Hk Hincl]]].
      destruct (dict_mem z acc) eqn:E.
      * rewrite dict_keys_update. eauto.
      * rewrite dict_keys_set, E, Hk. exists k1, (k2 ++ [z]).
        split; [|exact Hincl]. rewrite <- app_assoc. reflexivity.
Qed.

Lemma counted_fold l : forall seen acc,
  counted seen acc -> counted (seen ++ l) (fold_left count_one l acc).
Proof.
  induction l as [|x l IH]; intros seen acc H; simpl.
  - rewrite app_nil_r. exact H.
  - replace (seen ++ x :: l) with ((seen ++ [x]) ++ l)
      by (rewrite <- app_assoc; reflexivity).
    apply IH. apply counted_step. exact H.
Qed.

Lemma Counter_counted l : counted l (Counter l).
Proof.
  apply (counted_fold l [] []). constructor.
  - constructor.
  - intros x. reflexivity.
  - intros [|b0 before] s0 after Heq; discriminate.
Qed.

Lemma first_max_spec rest : forall best pre mid,
  (forall y, In y pre -> snd y < snd best) ->
  (forall y, In y mid -> snd y <= snd best) ->
  exists pre' post',
    pre ++ best :: mid ++ rest = pre' ++ first_max best rest :: post'
    /\ (forall y, In y pre' -> snd y < snd (first_max best rest))
    /\ (forall y, In y post' -> snd y <= snd (first_max best rest)).
Proof.
  induction rest as [|kv rest IH]; intros best pre mid Hpre Hmid; simpl.
  - exists pre, mid. rewrite app_nil_r. auto.
  - destruct (Nat.ltb_spec (snd best) (snd kv)) as [Hlt|Hge].
    + destruct (IH kv (pre ++ best :: mid) []) as [pre' [post' [Heq HH]]].
      * intros y Hy. apply in_app_iff in Hy. destruct Hy as [Hy|[<-|Hy]].
        -- specialize (Hpre y Hy). lia.
        -- exact Hlt.
        -- specialize (Hmid y Hy). lia.
      * intros y [].
      * exists pre', post'. split; [|exact HH].
        rewrite <- Heq. rewrite <- app_assoc. reflexivity.
    + destruct (IH best pre (mid ++ [kv])) as [pre' [post' [Heq HH]]].
      * exact Hpre.
      * intros y Hy. apply in_app_iff in Hy. destruct Hy as [Hy|[<-|[]]]; auto.
      * exists pre', post'. split; [|exact HH].
        rewrite <- Heq. rewrite <- app_assoc. reflexivity.
Qed.

Lemma in_split_first (x : string) l :
  In x l -> exists before after, l = before ++ x :: after /\ ~ In x before.
Proof.
  induction l as [|y l IH]; [contradiction|].
  intros Hin. destruct (string_dec y x) as [->|Hne].
  - exists [], l. split; [reflexivity|tauto].
  - destruct Hin as [Heq|Hin]; [contradiction|].
    destruct (IH Hin) as [before [after [-> Hnot]]].
    exists (y :: before), after. split; [reflexivity|].
    intros [H|H]; contradiction.
Qed.

Lemma NoDup_split_unique (x : string) a1 : forall a2 b1 b2,
  NoDup (a1 ++ x :: a2) -> a1 ++ x :: a2 = b1 ++ x :: b2 -> a1 = b1.
Proof.
  induction a1 as [|y a1 IH]; intros a2 b1 b2 Hnd Heq.
  - destruct b1 as [|z b1]; [reflexivity|].
    simpl in Heq. injection Heq as <- Heq. exfalso.
    simpl in Hnd. inversion Hnd as [|? ? Hnot _]; subst. apply Hnot.
    apply in_app_iff. right. left. reflexivity.
  - destruct b1 as [|z b1]; simpl in Heq.
    + injection Heq as -> Heq. exfalso.
      simpl in Hnd. inversion Hnd as [|? ? Hnot _]; subst. apply Hnot.
      apply in_app_iff. right. left. reflexivity.
    + injection Heq as <- Heq. f_equal.
      simpl in Hnd. inversion Hnd; subst. eapply IH; eassumption.
Qed.

Lemma most_common_dominant default l :
  l <> [] -> dominant l (most_common_or default (Counter l)).
Proof.
  intros Hl. pose proof (Counter_counted l) as HC.
  destruct (Counter l) as [|kv rest] eqn:Hitems.
  - destruct l as [|x l]; [congruence|]. exfalso.
    assert (Hin : In x (dict_keys (@nil (string * nat)))).
    { eapply counted_keys; [exact HC|left; reflexivity]. }
    exact Hin.
  - simpl. destruct (first_max_spec rest kv [] []) as [pre [post [Heq [Hpre Hpost]]]];
      [intros y []|intros y []|].
    simpl in Heq. set (r := first_max kv rest) in *.
    assert (Hget : forall y, In y (kv :: rest) -> snd y = occurrences l (fst y)
                                                 /\ In (fst y) l).
    { intros [k n] Hy. simpl.
      apply (dict_In_get _ _ _ (counted_nodup _ _ HC)) in Hy.
      rewrite (counted_get _ _ HC) in Hy.
      destruct (Nat.eqb_spec (occurrences l k) 0) as [E|E]; [discriminate|].
      injection Hy as <-. split; [reflexivity|]. now apply occurrences_pos. }
    assert (Hr : In r (kv :: rest)).
    { rewrite Heq. apply in_app_iff. right. left. reflexivity. }
    destruct (Hget r Hr) as [Hrn Hrin].
    destruct (in_split_first _ _ Hrin) as [before [after [Hsplit Hnot]]].
    exists before, after. split; [exact Hsplit|]. split; [exact Hnot|]. split.
    + intros s' Hs'.
      destruct (counted_order _ _ HC before (fst r) after Hsplit Hnot)
        as [k1 [k2 [Hk Hincl]]].
      assert (Hk1 : k1 = dict_keys pre).
      { eapply (NoDup_split_unique (fst r) k1 k2 (dict_keys pre) (dict_keys post)).
        - rewrite <- Hk. apply (counted_nodup _ _ HC).
        - rewrite <- Hk, Heq. unfold dict_keys. rewrite map_app. reflexivity. }
      apply Hincl in Hs'. rewrite Hk1 in Hs'.
      apply in_map_iff in Hs'. destruct Hs' as [y [Hy1 Hy2]].
      assert (Hyin : In y (kv :: rest)) by (rewrite Heq; apply in_app_iff; auto).
      destruct (Hget y Hyin) as [Hyn _]. specialize (Hpre y Hy2).
      rewrite <- Hy1, <- Hyn, <- Hrn. exact Hpre.
    + intros s'. destruct (Nat.eq_dec (occurrences l s') 0) as [E|E]; [lia|].
      assert (Hs' : dict_get s' (kv :: rest) = Some (occurrences l s')).
      { rewrite (counted_get _ _ HC).
        destruct (Nat.eqb_spec (occurrences l s') 0); [contradiction|reflexivity]. }
      apply dict_get_In in Hs'. rewrite Heq in Hs'.
      rewrite <- Hrn. apply in_app_iff in Hs'. destruct Hs' as [H|[H|H]].
      * specialize (Hpre _ H). simpl in Hpre. lia.
      * pose proof (f_equal snd H) as H'. simpl in H'. lia.
      * specialize (Hpost _ H). simpl in Hpost. exact Hpost.
Qed.

Lemma add_to_group_get cid groups conv :
  truthy cid = true ->
  dict_get cid (add_to_group groups conv)
  = merge_group (dict_get cid groups) (if has_customer cid conv then [conv] else []).
Proof.
  intros Hcid. unfold add_to_group, has_customer.
  destruct (customer_id conv) as [x|].
  - destruct (String.eqb_spec x cid) as [->|Hne].
    + rewrite Hcid, dict_get_update_same.
      destruct (dict_mem cid groups) eqn:E.
      * apply dict_get_mem in E. destruct E as [v ->]. reflexivity.
      * rewrite dict_get_set_same. apply dict_get_none in E. rewrite E. reflexivity.
    + destruct (truthy x).
      * rewrite dict_get_update_other by congruence.
        destruct (dict_mem x groups).
        -- destruct (dict_get cid groups); simpl; [rewrite app_nil_r|]; reflexivity.
        -- rewrite dict_get_set_other by congruence.
           destruct (dict_get cid groups); simpl; [rewrite app_nil_r|]; reflexivity.
      * destruct (dict_get cid groups); simpl; [rewrite app_nil_r|]; reflexivity.
  - destruct (dict_get cid groups); simpl; [rewrite app_nil_r|]; reflexivity.
Qed.

Lemma merge_group_app o l1 l2 :
  merge_group (merge_group o l1) l2 = merge_group o (l1 ++ l2).
Proof.
  destruct o as [a|], l1 as [|x l1], l2 as [|y l2]; simpl;
    rewrite ?app_nil_r, <- ?app_assoc; reflexivity.
Qed.

Lemma group_fold_get cid l : forall groups,
  truthy cid = true ->
  dict_get cid (fold_left add_to_group l groups)
  = merge_group (dict_get cid groups) (filter (has_customer cid) l).
Proof.
  induction l as [|c l IH]; intros groups Hcid; simpl.
  - destruct (dict_get cid groups); simpl; [rewrite app_nil_r|]; reflexivity.
  - rewrite IH by exact Hcid. rewrite add_to_group_get by exact Hcid.
    rewrite merge_group_app. destruct (has_customer cid c); reflexivity.
Qed.

Lemma add_to_group_keys groups conv :
  NoDup (dict_keys groups) /\ ~ In "" (dict_keys groups) ->
  NoDup (dict_keys (add_to_group groups conv))
  /\ ~ In "" (dict_keys (add_to_group groups conv)).
Proof.
  intros [Hnd Hne]. unfold add_to_group.
  destruct (customer_id conv) as [x|]; [|auto].
  destruct (truthy x) eqn:Hx; [|auto].
  rewrite dict_keys_update. destruct (dict_mem x groups) eqn:E; [auto|].
  split; [apply dict_keys_set_NoDup; exact Hnd|].
  rewrite dict_keys_set, E, in_app_iff. intros [H|[H|[]]]; [contradiction|].
  subst x. discriminate.
Qed.

Lemma group_fold_keys l : forall groups,
  NoDup (dict_keys groups) /\ ~ In "" (dict_keys groups) ->
  NoDup (dict_keys (fold_left add_to_group l groups))
  /\ ~ In "" (dict_keys (fold_left add_to_group l groups)).
Proof.
  induction l as [|c l IH]; intros groups H; simpl; [exact H|].
  apply IH. apply add_to_group_keys. exact H.
Qed.

Lemma dict_get_cons {V : Type} k k0 (v0 : V) (d : Dict V) :
  dict_get k ((k0, v0) :: d) = if k0 =? k then Some v0 else dict_get k d.
Proof.
  unfold dict_get. simpl. destruct (k0 =? k); reflexivity.
Qed.

Lemma patterns_fold_get k groups : forall acc,
  NoDup (dict_keys groups) ->
  dict_get k
    (fold_left (fun patterns group => dict_set (fst group) (pattern_of (snd group)) patterns)
               groups acc)
  = match dict_get k groups with
    | Some convs => Some (pattern_of convs)
    | None => dict_get k acc
    end.
Proof.
  induction groups as [|[k0 v0] groups IH]; intros acc Hnd; simpl; [reflexivity|].
  inversion Hnd as [|? ? Hnot Hnd']; subst.
  rewrite IH by exact Hnd'. rewrite dict_get_cons.
  destruct (String.eqb_spec k0 k) as [->|Hne]; simpl.
  - assert (E : dict_get k groups = None).
    { apply dict_get_none. apply dict_mem_false. exact Hnot. }
    rewrite E. apply dict_get_set_same.
  - destruct (dict_get k groups); [reflexivity|].
    apply dict_get_set_other. congruence.
Qed.

Lemma calculate_customer_patterns_get conversations cid :
  dict_get cid (calculate_customer_patterns conversations)
  = if truthy cid then
      match conversations_of cid conversations with
      | [] => None
      | mine => Some (pattern_of mine)
      end
    else None.
Proof.
  unfold calculate_customer_patterns, group_by_customer.
  destruct (group_fold_keys conversations []) as [Hnd Hne];
    [split; [constructor|intros []]|].
  rewrite patterns_fold_get by exact Hnd.
  destruct (truthy cid) eqn:Hcid.
  - rewrite group_fold_get by exact Hcid. unfold conversations_of. simpl.
    destruct (filter (has_customer cid) conversations); reflexivity.
  - assert (cid = "") as ->.
    { unfold truthy in Hcid. apply negb_false_iff in Hcid. now apply String.eqb_eq. }
    assert (E : dict_get "" (fold_left add_to_group conversations []) = None).
    { apply dict_get_none. apply dict_mem_false. exact Hne. }
    rewrite E. reflexivity.
Qed.

(** C6.  [calculate_customer_patterns] has an entry for a customer id exactly
    when the id is not empty and some conversation of the list carries it
    (a missing or empty id groups nowhere).  The entry holds the dominant
    sentiment and the dominant category of that customer's conversations,
    read with the defaults "Neutral" and "Technical Issue (Simple / Minor)"
    for a conversation without the tag: the most frequent value, the first
    one encountered among equally frequent ones.  For sentiments
    [Negative, Negative, Positive] that is Negative. *)
Theorem calculate_customer_patterns_dominant :
  forall (conversations : list Conversation) (cid : string),
    let mine := conversations_of cid conversations in
    let sentiments :=
      map (fun c => match sentiment (tags c) with Some s => s | None => "Neutral" end)
          mine in
    let categories :=
      map (fun c => match nature_of_support (tags c) with
                    | Some s => s
                    | None => "Technical Issue (Simple / Minor)"
                    end)
          mine in
    (cid = "" \/ mine = [] ->
     dict_get cid (calculate_customer_patterns conversations) = None)
    /\ (cid <> "" -> mine <> [] ->
        exists p,
          dict_get cid (calculate_customer_patterns conversations) = Some p
          /\ dominant sentiments (pattern_sentiment p)
          /\ dominant categories (pattern_support_type p)
          /\ (sentiments = ["Negative"; "Negative"; "Positive"] ->
              pattern_sentiment p = "Negative")).
Proof.
  intros conversations cid mine sentiments categories.
  rewrite calculate_customer_patterns_get. fold mine. split.
  - intros [->|Hm]; [reflexivity|]. rewrite Hm. destruct (truthy cid); reflexivity.
  - intros Hcid Hm.
    assert (Ht : truthy cid = true).
    { unfold truthy. apply negb_true_iff. now apply String.eqb_neq. }
    rewrite Ht. exists (pattern_of mine). split; [destruct mine; congruence|].
    split; [|split].
    + apply (most_common_dominant default_sentiment sentiments).
      unfold sentiments. destruct mine; [congruence|discriminate].
    + apply (most_common_dominant default_support_nature categories).
      unfold categories. destruct mine; [congruence|discriminate].
    + intros Hs. unfold pattern_of. simpl.
      change (map get_sentiment mine) with sentiments. rewrite Hs. reflexivity.
Qed.

(** ** Ingestion: concrete runs *)

(** C3 (failing run).  First run: the thread 1 <- 2.  Second run: the same
    table grown by tweet 3, a reply to 2.  The root of 3 resolves to "1",
    which is the tail of no stored conversation, so a second record with
    root id "1" is opened next to the stored one. *)
Theorem rerun_on_grown_table_duplicates_root :
  map primary_tweet_id (ingest_all cpython [batch12; batch123]) = ["1"; "1"]
  /\ map (fun c => history_ids (chat_history c)) (ingest_all cpython [batch12; batch123])
     = [["1"; "2"]; ["3"]].
Proof. split; vm_compute; reflexivity. Qed.

(** The next load keys the records by root id, so the duplicate replaces the
    stored conversation. *)
Example duplicate_root_overwrites_on_next_run :
  map (fun c => history_ids (chat_history c))
      (ingest_all cpython [batch12; batch123; batch123])
  = [["3"]].
Proof. vm_compute. reflexivity. Qed.

(** C2 (counterexample).  A reply whose parent is absent from the table
    resolves to no root: the run succeeds and opens no conversation for it. *)
Lemma orphan_reply_is_not_a_root :
  exists result,
    convert_twitter_csv_to_json cpython orphan_reply [] = Ok result
    /\ ~ (exists c, In c result /\ primary_tweet_id c = "7")
    /\ ~ In "7" (store_ids result).
Proof.
  exists []. split; [vm_compute; reflexivity|].
  split; [intros [c [[] _]]|intros []].
Qed.

(** C1 (failing run).  The store holds the thread 1 <- 2, settled by a first
    pipeline run.  The table grows by tweet 3, a later reply to the tail 2.
    Tweet 3 resolves to the root "1", which is not the stored tail id "2":
    the settled record comes back as it was, still processed, two messages
    long, its tail id "2", and tweet 3 goes to a second record opened under
    the same root id.  When the table holds tweet 3 alone, its parent is in
    no row and the reply is dropped: the run returns the store as it was. *)
Theorem later_reply_to_a_stored_thread_is_not_attached :
  (exists c d,
     convert_twitter_csv_to_json cpython batch123 settled_thread = Ok [c; d]
     /\ settled_thread = [c]
     /\ processed c = Some true
     /\ history_ids (chat_history c) = ["1"; "2"]
     /\ tail_id c = "2"
     /\ primary_tweet_id d = primary_tweet_id c
     /\ history_ids (chat_history d) = ["3"]
     /\ filter is_unprocessed [c; d] = [d])
  /\ convert_twitter_csv_to_json cpython [tweet "3" "2" "alice" true (Some 30%Z)]
                                 settled_thread
     = Ok settled_thread.
Proof.
  split; [|vm_compute; reflexivity].
  eexists. eexists. split; [vm_compute; reflexivity|].
  repeat split.
Qed.

(** A settled conversation whose tail is its root tweet receives a reply
    stamped earlier than the root: it comes back unprocessed and one message
    longer, but the history is re-sorted by stamp and the tail stays "1". *)
Example early_reply_does_not_become_tail :
  exists c,
    convert_twitter_csv_to_json cpython early_reply [settled_root] = Ok [c]
    /\ primary_tweet_id c = "1"
    /\ processed c = Some false
    /\ List.length (chat_history c) = 2
    /\ history_ids (chat_history c) = ["2"; "1"]
    /\ tail_id c <> "2".
Proof.
  eexists. split; [vm_compute; reflexivity|].
  simpl. repeat split; discriminate.
Qed.

(** ** The cleaned table *)

Lemma drop_duplicates_from_spec df : forall seen,
  NoDup (map tweet_id (drop_duplicates_from seen df))
  /\ (forall r, In r (drop_duplicates_from seen df) ->
                In r df /\ ~ In (tweet_id r) seen).
Proof.
  induction df as [|r df IH]; intros seen; simpl.
  - split; [constructor|intros r []].
  - destruct (mem (tweet_id r) seen) eqn:E.
    + destruct (IH seen) as [Hnd Hin]. split; [exact Hnd|].
      intros r' Hr'. destruct (Hin r' Hr'). auto.
    + destruct (IH (tweet_id r :: seen)) as [Hnd Hin]. split.
      * simpl. constructor; [|exact Hnd].
        intros Hc. apply in_map_iff in Hc. destruct Hc as [r' [Heq Hr']].
        destruct (Hin r' Hr') as [_ Hnot]. apply Hnot. left. congruence.
      * intros r' [<-|Hr'].
        -- split; [auto|]. now apply mem_false.
        -- destruct (Hin r' Hr') as [H1 H2]. split; [auto|].
           intros Hc. apply H2. right. exact Hc.
Qed.

Lemma filter_rows_NoDup (keep : Row -> bool) (df : list Row) :
  NoDup (map tweet_id df) -> NoDup (map tweet_id (filter keep df)).
Proof.
  induction df as [|r df IH]; simpl; intros Hnd; [constructor|].
  apply NoDup_cons_iff in Hnd. destruct Hnd as [Hnot Hnd].
  destruct (keep r); simpl; [|auto].
  constructor; [|auto].
  rewrite in_map_iff. intros [r' [Heq Hr']]. apply filter_In in Hr'.
  apply Hnot. rewrite <- Heq. apply in_map. tauto.
Qed.

Lemma clean_frame_NoDup csv : NoDup (map tweet_id (clean_frame csv)).
Proof.
  unfold clean_frame, drop_duplicates. apply filter_rows_NoDup.
  apply drop_duplicates_from_spec.
Qed.

Lemma clean_frame_origin csv r :
  In r (clean_frame csv) ->
  tweet_id r <> "" /\ exists raw, In raw (firstn 4000 csv) /\ r = clean_row raw.
Proof.
  unfold clean_frame, drop_duplicates. intros Hr. apply filter_In in Hr.
  destruct Hr as [Hr Hne]. split.
  - apply negb_true_iff in Hne. now apply String.eqb_neq.
  - apply drop_duplicates_from_spec in Hr. destruct Hr as [Hr _].
    apply in_map_iff in Hr. destruct Hr as [raw [Heq Hraw]]. eauto.
Qed.

Lemma rows_with_id_some x df r :
  rows_with_id x df = Some r -> In r df /\ tweet_id r = x.
Proof.
  unfold rows_with_id. intros H. apply find_some in H. destruct H as [Hin Heq].
  split; [exact Hin|]. now apply String.eqb_eq.
Qed.

Lemma rows_with_id_none x df :
  rows_with_id x df = None <-> ~ In x (map tweet_id df).
Proof.
  unfold rows_with_id. split.
  - intros H Hin. apply in_map_iff in Hin. destruct Hin as [r [Heq Hr]].
    pose proof (find_none _ _ H r Hr) as Hf. simpl in Hf.
    apply String.eqb_neq in Hf. contradiction.
  - intros Hnot. destruct (find _ df) as [r|] eqn:E; [|reflexivity].
    apply find_some in E. destruct E as [Hr Heq]. apply String.eqb_eq in Heq.
    exfalso. apply Hnot. apply in_map_iff. eauto.
Qed.

Lemma rows_with_id_in df r :
  NoDup (map tweet_id df) -> In r df -> rows_with_id (tweet_id r) df = Some r.
Proof.
  unfold rows_with_id. induction df as [|r0 df IH]; simpl; [contradiction|].
  intros Hnd Hin. inversion Hnd as [|? ? Hnot Hnd']; subst.
  destruct (String.eqb_spec (tweet_id r0) (tweet_id r)) as [Heq|Hne].
  - destruct Hin as [->|Hin]; [reflexivity|].
    exfalso. apply Hnot. rewrite Heq. now apply in_map.
  - destruct Hin as [->|Hin]; [congruence|]. now apply IH.
Qed.

(** ** Root resolution *)

Lemma find_conversation_root_some depth : forall x df r,
  find_conversation_root depth x df = Ok (Some r) ->
  r <> ""
  /\ exists row, rows_with_id r df = Some row /\ in_response_to_tweet_id row = "".
Proof.
  induction depth as [|depth IH]; intros x df r; simpl; [discriminate|].
  destruct (String.eqb_spec x "") as [->|Hx]; [discriminate|].
  destruct (rows_with_id x df) as [row|] eqn:Hrow; [|discriminate].
  destruct (String.eqb_spec (in_response_to_tweet_id row) "") as [Hp|Hp].
  - intros [= <-]. split; [exact Hx|]. eauto.
  - apply IH.
Qed.

Lemma find_conversation_root_orphan depth x df row :
  2 <= depth ->
  rows_with_id x df = Some row ->
  x <> "" ->
  in_response_to_tweet_id row <> "" ->
  ~ In (in_response_to_tweet_id row) (map tweet_id df) ->
  find_conversation_root depth x df = Ok None.
Proof.
  intros Hd Hrow Hx Hp Hnot.
  destruct depth as [|[|depth]]; [lia|lia|]. simpl.
  apply String.eqb_neq in Hx. rewrite Hx, Hrow.
  apply String.eqb_neq in Hp. rewrite Hp.
  apply rows_with_id_none in Hnot. rewrite Hnot. reflexivity.
Qed.

(** ** Loops *)

Lemma for_each_inv {S A : Type} (body : S -> A -> result S) (I : S -> Prop) l :
  (forall s x s', In x l -> I s -> body s x = Ok s' -> I s') ->
  forall s s', I s -> for_each body l s = Ok s' -> I s'.
Proof.
  induction l as [|x l IH]; intros Hstep s s' Hs; simpl.
  - intros [= <-]. exact Hs.
  - destruct (body s x) as [s1|e] eqn:E; simpl; [|discriminate].
    apply IH.
    + intros s0 y s0' Hy. apply Hstep. now right.
    + eapply Hstep; [left; reflexivity|exact Hs|exact E].
Qed.

Lemma for_each_skip {S A : Type} (body : S -> A -> result S) l s :
  (forall x, In x l -> body s x = Ok s) -> for_each body l s = Ok s.
Proof.
  induction l as [|x l IH]; intros H; simpl; [reflexivity|].
  rewrite (H x (or_introl eq_refl)). simpl. apply IH.
  intros y Hy. apply H. now right.
Qed.

Lemma for_each_app {S A : Type} (body : S -> A -> result S) l1 l2 s :
  for_each body (l1 ++ l2) s = (s' <- for_each body l1 s ;; for_each body l2 s').
Proof.
  revert s. induction l1 as [|x l1 IH]; intros s; simpl; [reflexivity|].
  destruct (body s x); simpl; [apply IH|reflexivity].
Qed.

(** ** The first loop: opening conversations *)

Lemma dict_set_fresh {V : Type} k (v : V) d :
  dict_mem k d = false -> dict_set k v d = d ++ [(k, v)].
Proof.
  induction d as [|[k' v'] d IH]; simpl; [reflexivity|].
  destruct (k' =? k); simpl; [discriminate|]. intros H. now rewrite IH.
Qed.

Lemma identify_root_opened py df E X N t N' :
  identify_root py df E X N t = Ok N' ->
  NoDup (dict_keys N) /\ Forall (opened_at df) N ->
  NoDup (dict_keys N') /\ Forall (opened_at df) N'.
Proof.
  unfold identify_root. intros H HN.
  destruct (mem (tweet_id t) X); [injection H as <-; exact HN|].
  destruct (find_conversation_root (recursion_limit py) (tweet_id t) df)
    as [root|e] eqn:Hroot; simpl in H; [|discriminate].
  destruct (truthy_opt root); [|injection H as <-; exact HN].
  destruct (truthy_opt (matching_conversation E root)); [injection H as <-; exact HN|].
  destruct root as [r|]; [|injection H as <-; exact HN].
  destruct (dict_mem r N) eqn:Hmem; [injection H as <-; exact HN|].
  destruct (rows_with_id r df) as [row|] eqn:Hrow; [|injection H as <-; exact HN].
  injection H as <-. destruct HN as [Hnd HF]. split.
  - apply dict_keys_set_NoDup. exact Hnd.
  - rewrite dict_set_fresh by exact Hmem. apply Forall_app. split; [exact HF|].
    constructor; [|constructor]. exists row. simpl.
    apply find_conversation_root_some in Hroot. destruct Hroot as [_ [row' [Hrow' Hp]]].
    rewrite Hrow in Hrow'. injection Hrow' as <-. auto.
Qed.

Lemma identify_roots_opened py df E X l N N' :
  for_each (identify_root py df E X) l N = Ok N' ->
  NoDup (dict_keys N) /\ Forall (opened_at df) N ->
  NoDup (dict_keys N') /\ Forall (opened_at df) N'.
Proof.
  intros H HN.
  apply (for_each_inv (identify_root py df E X)
           (fun N0 => NoDup (dict_keys N0) /\ Forall (opened_at df) N0) l)
    with (s := N); [|exact HN|exact H].
  intros s x s' _ Hs Hstep. eapply identify_root_opened; eassumption.
Qed.

Lemma identify_root_mono py df E X N t N' r :
  identify_root py df E X N t = Ok N' -> dict_mem r N = true -> dict_mem r N' = true.
Proof.
  unfold identify_root. intros H Hr.
  destruct (mem (tweet_id t) X); [injection H as <-; exact Hr|].
  destruct (find_conversation_root (recursion_limit py) (tweet_id t) df)
    as [root|e]; simpl in H; [|discriminate].
  destruct (truthy_opt root); [|injection H as <-; exact Hr].
  destruct (truthy_opt (matching_conversation E root)); [injection H as <-; exact Hr|].
  destruct root as [r0|]; [|injection H as <-; exact Hr].
  destruct (dict_mem r0 N) eqn:Hmem; [injection H as <-; exact Hr|].
  destruct (rows_with_id r0 df) as [row|]; [|injection H as <-; exact Hr].
  injection H as <-. apply dict_mem_In. rewrite dict_keys_set, Hmem.
  apply in_app_iff. left. now apply dict_mem_In.
Qed.

(** A tweet that is new, resolves to a root and continues no stored
    conversation finds the conversation of its root opened. *)
Lemma identify_roots_cover py df E X l : forall N N' t r,
  for_each (identify_root py df E X) l N = Ok N' ->
  In t l ->
  mem (tweet_id t) X = false ->
  find_conversation_root (recursion_limit py) (tweet_id t) df = Ok (Some r) ->
  truthy_opt (matching_conversation E (Some r)) = false ->
  dict_mem r N' = true.
Proof.
  induction l as [|x l IH]; intros N N' t r Hloop Hin HX Hroot Hmatch; [contradiction|].
  simpl in Hloop.
  destruct (identify_root py df E X N x) as [N1|e] eqn:Hstep; simpl in Hloop; [|discriminate].
  destruct Hin as [->|Hin]; [|eapply IH; eassumption].
  assert (H1 : dict_mem r N1 = true).
  { unfold identify_root in Hstep. rewrite HX, Hroot in Hstep. unfold bind in Hstep.
    change (truthy_opt (Some r)) with (truthy r) in Hstep.
    pose proof (find_conversation_root_some _ _ _ _ Hroot) as [Hr [row [Hrow _]]].
    assert (Ht : truthy r = true).
    { unfold truthy. apply negb_true_iff. now apply String.eqb_neq. }
    rewrite Ht, Hmatch in Hstep.
    destruct (dict_mem r N) eqn:Hmem; [injection Hstep as <-; exact Hmem|].
    rewrite Hrow in Hstep. injection Hstep as <-.
    apply dict_get_mem. rewrite dict_get_set_same. eauto. }
  clear Hstep. revert Hloop H1. generalize N1. clear IH.
  induction l as [|y l IHl]; intros N2 Hloop H1; simpl in Hloop.
  - injection Hloop as <-. exact H1.
  - destruct (identify_root py df E X N2 y) as [N3|e] eqn:Hstep; simpl in Hloop;
      [|discriminate].
    eapply IHl; [exact Hloop|]. eapply identify_root_mono; eassumption.
Qed.

(** Tweets that are already stored, resolve to no root, or continue a stored
    conversation open nothing. *)
Lemma identify_roots_none py df E X l N :
  (forall t, In t l ->
             mem (tweet_id t) X = true
             \/ exists root,
                 find_conversation_root (recursion_limit py) (tweet_id t) df = Ok root
                 /\ (truthy_opt root = false
                     \/ truthy_opt (matching_conversation E root) = true)) ->
  for_each (identify_root py df E X) l N = Ok N.
Proof.
  intros H. apply for_each_skip. intros t Ht. unfold identify_root.
  destruct (H t Ht) as [HX|[root [Hroot Hcase]]].
  - rewrite HX. reflexivity.
  - destruct (mem (tweet_id t) X); [reflexivity|]. rewrite Hroot. simpl.
    destruct Hcase as [Hc|Hc]; rewrite Hc; [reflexivity|].
    destruct (truthy_opt root); reflexivity.
Qed.

(** ** The second loop: attaching messages *)

Lemma same_frame_refl st : same_frame st st.
Proof.
  unfold same_frame. repeat split; auto using incl_refl.
Qed.

Lemma same_frame_trans st1 st2 st3 :
  same_frame st1 st2 -> same_frame st2 st3 -> same_frame st1 st3.
Proof.
  intros [A1 [B1 [C1 D1]]] [A2 [B2 [C2 D2]]]. unfold same_frame.
  split; [congruence|]. split; [congruence|]. split.
  - intros o. rewrite C2. apply C1.
  - eapply incl_tran; eassumption.
Qed.

Lemma matching_conversation_update k f d o :
  (forall c, tail_id (f c) = tail_id c) ->
  matching_conversation (dict_update k f d) o = matching_conversation d o.
Proof.
  intros Hf. destruct o as [r|]; [|reflexivity]. unfold matching_conversation.
  induction d as [|[k' v'] d IH]; simpl; [reflexivity|].
  destruct (k' =? k); simpl.
  - rewrite Hf. destruct (tail_id v' =? r); reflexivity.
  - destruct (tail_id v' =? r); [reflexivity|exact IH].
Qed.

Lemma matching_conversation_key E o conv_id :
  matching_conversation E o = Some conv_id ->
  (exists r, o = Some r) /\ dict_mem conv_id E = true.
Proof.
  destruct o as [r|]; [|discriminate]. simpl.
  destruct (find _ E) as [[k c]|] eqn:Hf; [|discriminate].
  intros [= <-]. split; [eauto|]. apply find_some in Hf. destruct Hf as [Hin _].
  apply dict_mem_In. apply in_map_iff. exists (k, c). auto.
Qed.

Lemma store_ids_app l1 l2 : store_ids (l1 ++ l2) = store_ids l1 ++ store_ids l2.
Proof.
  unfold store_ids. apply flat_map_app.
Qed.

Lemma store_ids_cons c l :
  store_ids (c :: l) = history_ids (chat_history c) ++ store_ids l.
Proof. reflexivity. Qed.

Lemma dict_value_ids k c (d : Dict Conversation) :
  In (k, c) d -> incl (history_ids (chat_history c)) (store_ids (dict_values d)).
Proof.
  intros Hin x Hx. unfold store_ids. apply in_flat_map. exists c. split; [|exact Hx].
  unfold dict_values. apply in_map_iff. exists (k, c). auto.
Qed.

Lemma store_ids_update_append k f t (d : Dict Conversation) :
  (forall c, history_ids (chat_history (f c)) = history_ids (chat_history c) ++ [t]) ->
  dict_mem k d = true ->
  Permutation (store_ids (dict_values (dict_update k f d)))
              (t :: store_ids (dict_values d)).
Proof.
  intros Hf. induction d as [|[k' v'] d IH]; simpl; [discriminate|].
  destruct (k' =? k); simpl.
  - intros _. rewrite Hf. rewrite <- app_assoc. simpl.
    symmetry. apply Permutation_middle.
  - intros Hmem. specialize (IH Hmem).
    etransitivity; [apply Permutation_app_head; exact IH|].
    symmetry. apply Permutation_middle.
Qed.

Lemma build_thread_step py df st t st' :
  build_thread py df st t = Ok st' ->
  same_frame st st'
  /\ (st' = st
      \/ (mem (tweet_id t) (existing_tweet_ids st) = false
          /\ (exists r, find_conversation_root (recursion_limit py) (tweet_id t) df
                        = Ok (Some r))
          /\ Permutation (thread_ids st') (tweet_id t :: thread_ids st)
          /\ (forall x, In x (existing_tweet_ids st') ->
                        x = tweet_id t \/ In x (existing_tweet_ids st)))).
Proof.
  unfold build_thread. intros H.
  destruct (mem (tweet_id t) (existing_tweet_ids st)) eqn:HX;
    [injection H as <-; split; [apply same_frame_refl|now left]|].
  destruct (find_conversation_root (recursion_limit py) (tweet_id t) df)
    as [root|e] eqn:Hroot; simpl in H; [|discriminate].
  destruct (truthy_opt (matching_conversation (existing_convo st) root)) eqn:Hm.
  - destruct (matching_conversation (existing_convo st) root) as [conv_id|] eqn:Hmc;
      [|discriminate].
    injection H as <-.
    destruct (matching_conversation_key _ _ _ Hmc) as [[r ->] Hkey].
    unfold attach_existing.
    destruct (dict_get conv_id (existing_convo st)) as [c|] eqn:Hget;
      [|split; [apply same_frame_refl|now left]].
    destruct (mem (tweet_id t) (history_ids (chat_history c)));
      [split; [apply same_frame_refl|now left]|].
    split.
    + unfold same_frame. simpl. split; [apply dict_keys_update|].
      split; [reflexivity|]. split.
      * intros o. apply matching_conversation_update. reflexivity.
      * intros x Hx. apply set_add_In. now right.
    + right. split; [reflexivity|]. split; [eauto|]. split.
      * unfold thread_ids. simpl.
        apply (Permutation_app_tail (store_ids (dict_values (new_convo st)))
                 (l' := tweet_id t :: store_ids (dict_values (existing_convo st)))).
        apply store_ids_update_append; [|exact Hkey].
        intros c0. simpl. unfold history_ids. rewrite map_app. reflexivity.
      * intros x Hx. simpl in Hx. now apply set_add_In in Hx.
  - destruct root as [r|]; [|injection H as <-; split; [apply same_frame_refl|now left]].
    destruct (truthy r && dict_mem r (new_convo st)) eqn:Hc;
      [|injection H as <-; split; [apply same_frame_refl|now left]].
    injection H as <-. apply andb_true_iff in Hc. destruct Hc as [_ Hkey].
    unfold attach_new.
    destruct (dict_get r (new_convo st)) as [c|] eqn:Hget;
      [|split; [apply same_frame_refl|now left]].
    destruct (mem (tweet_id t) (history_ids (chat_history c)));
      [split; [apply same_frame_refl|now left]|].
    split.
    + unfold same_frame. simpl. split; [reflexivity|].
      split; [apply dict_keys_update|]. split; [reflexivity|apply incl_refl].
    + right. split; [reflexivity|]. split; [eauto|]. split.
      * unfold thread_ids. simpl.
        etransitivity;
          [apply Permutation_app_head;
           apply (store_ids_update_append r (append_entry t) (tweet_id t));
           [|exact Hkey]|].
        -- intros c0. simpl. unfold history_ids. rewrite map_app. reflexivity.
        -- symmetry. apply Permutation_middle.
      * intros x Hx. simpl in Hx. now right.
Qed.

(** The second loop adds each message id at most once, only ids that were
    not seen before, and only for tweets that resolve to a root. *)
Lemma build_threads_ids py df l : forall st st',
  for_each (build_thread py df) l st = Ok st' ->
  NoDup (map tweet_id l) ->
  same_frame st st'
  /\ exists added,
      Permutation (thread_ids st') (added ++ thread_ids st)
      /\ NoDup added
      /\ (forall x, In x added ->
                    ~ In x (existing_tweet_ids st)
                    /\ In x (map tweet_id l)
                    /\ exists r, find_conversation_root (recursion_limit py) x df
                                 = Ok (Some r))
      /\ (forall x, In x (existing_tweet_ids st') ->
                    In x added \/ In x (existing_tweet_ids st)).
Proof.
  induction l as [|t l IH]; intros st st' Hloop Hnd; simpl in Hloop.
  - injection Hloop as <-. split; [apply same_frame_refl|].
    exists []. simpl. split; [reflexivity|]. split; [constructor|].
    split; [intros y []|auto].
  - destruct (build_thread py df st t) as [st1|e] eqn:Hstep; simpl in Hloop; [|discriminate].
    inversion Hnd as [|? ? Hnot Hnd']; subst.
    destruct (IH st1 st' Hloop Hnd') as [Hframe' [added [Hperm [Hnda [Hadded HX']]]]].
    destruct (build_thread_step _ _ _ _ _ Hstep) as [Hframe Hcase].
    split; [eapply same_frame_trans; eassumption|].
    destruct Hcase as [->|[HX [Hr [Hperm1 HX1]]]].
    + exists added. split; [exact Hperm|]. split; [exact Hnda|]. split; [|exact HX'].
      intros x Hx. destruct (Hadded x Hx) as [H1 [H2 H3]].
      split; [exact H1|]. split; [now right|exact H3].
    + exists (added ++ [tweet_id t]). split; [|split; [|split]].
      * rewrite Hperm. rewrite <- app_assoc. simpl.
        apply Permutation_app_head. exact Hperm1.
      * apply NoDup_app; [exact Hnda|repeat constructor; simpl; tauto|].
        intros a Ha [<-|[]]. destruct (Hadded _ Ha) as [_ [Hin _]]. contradiction.
      * intros x Hx. apply in_app_iff in Hx. destruct Hx as [Hx|[<-|[]]].
        -- destruct (Hadded x Hx) as [H1 [H2 H3]]. split; [|split; [now right|exact H3]].
           intros Hc. apply H1. destruct Hframe as [_ [_ [_ Hincl]]]. now apply Hincl.
        -- split; [now apply mem_false|]. split; [now left|exact Hr].
      * intros x Hx. destruct (HX' x Hx) as [H|H].
        -- left. apply in_app_iff. now left.
        -- destruct (HX1 x H) as [->|H'].
           ++ left. apply in_app_iff. right. now left.
           ++ now right.
Qed.

(** Properties of the stored conversations that attaching a message
    preserves hold after the loop. *)
Lemma dict_update_entries {V : Type} (P : string -> V -> Prop) k f (d : Dict V) :
  (forall k0 v, P k0 v -> P k0 (f v)) ->
  Forall (fun kv => P (fst kv) (snd kv)) d ->
  Forall (fun kv => P (fst kv) (snd kv)) (dict_update k f d).
Proof.
  intros Hf. induction d as [|[k' v'] d IH]; simpl; intros HF; [constructor|].
  apply Forall_cons_iff in HF. destruct HF as [Hhd Htl].
  destruct (k' =? k); constructor; simpl; auto.
Qed.

Lemma build_thread_entries (PE PN : string -> Conversation -> Prop) py df st t st' :
  (forall k c row, PE k c -> PE k (set_processed false (append_entry row c))) ->
  (forall k c row, PN k c -> PN k (append_entry row c)) ->
  build_thread py df st t = Ok st' ->
  Forall (fun kv => PE (fst kv) (snd kv)) (existing_convo st)
  /\ Forall (fun kv => PN (fst kv) (snd kv)) (new_convo st) ->
  Forall (fun kv => PE (fst kv) (snd kv)) (existing_convo st')
  /\ Forall (fun kv => PN (fst kv) (snd kv)) (new_convo st').
Proof.
  intros HE HN H [HFE HFN]. unfold build_thread in H.
  destruct (mem (tweet_id t) (existing_tweet_ids st)); [injection H as <-; auto|].
  destruct (find_conversation_root (recursion_limit py) (tweet_id t) df) as [root|e];
    simpl in H; [|discriminate].
  destruct (truthy_opt (matching_conversation (existing_convo st) root)).
  - destruct (matching_conversation (existing_convo st) root) as [conv_id|];
      injection H as <-; [|auto].
    unfold attach_existing.
    destruct (dict_get conv_id (existing_convo st)) as [c|]; [|auto].
    destruct (mem (tweet_id t) (history_ids (chat_history c))); [auto|].
    simpl. split; [|exact HFN].
    apply (dict_update_entries PE); [|exact HFE]. intros k0 v. apply HE.
  - destruct root as [r|]; [|injection H as <-; auto].
    destruct (truthy r && dict_mem r (new_convo st)); injection H as <-; [|auto].
    unfold attach_new.
    destruct (dict_get r (new_convo st)) as [c|]; [|auto].
    destruct (mem (tweet_id t) (history_ids (chat_history c))); [auto|].
    simpl. split; [exact HFE|].
    apply (dict_update_entries PN); [|exact HFN]. intros k0 v. apply HN.
Qed.

Lemma build_threads_entries (PE PN : string -> Conversation -> Prop) py df l st st' :
  (forall k c row, PE k c -> PE k (set_processed false (append_entry row c))) ->
  (forall k c row, PN k c -> PN k (append_entry row c)) ->
  for_each (build_thread py df) l st = Ok st' ->
  Forall (fun kv => PE (fst kv) (snd kv)) (existing_convo st)
  /\ Forall (fun kv => PN (fst kv) (snd kv)) (new_convo st) ->
  Forall (fun kv => PE (fst kv) (snd kv)) (existing_convo st')
  /\ Forall (fun kv => PN (fst kv) (snd kv)) (new_convo st').
Proof.
  intros HE HN Hloop Hst.
  apply (for_each_inv (build_thread py df)
           (fun s => Forall (fun kv => PE (fst kv) (snd kv)) (existing_convo s)
                     /\ Forall (fun kv => PN (fst kv) (snd kv)) (new_convo s)) l)
    with (s := st); [|exact Hst|exact Hloop].
  intros s x s' _ Hs Hstep. eapply build_thread_entries; eassumption.
Qed.

(** ** Finalization *)

Lemma insert_by_key_perm x l : Permutation (insert_by_key x l) (x :: l).
Proof.
  induction l as [|y l IH]; simpl; [reflexivity|].
  destruct (fst x <=? fst y)%Z; [reflexivity|].
  rewrite IH. apply perm_swap.
Qed.

Lemma sort_by_key_perm l : Permutation (sort_by_key l) l.
Proof.
  induction l as [|x l IH]; simpl; [reflexivity|].
  rewrite insert_by_key_perm. now apply perm_skip.
Qed.

Lemma sort_keys_snd h : forall keyed, sort_keys h = Some keyed -> map snd keyed = h.
Proof.
  induction h as [|m h IH]; simpl; intros keyed.
  - intros [= <-]. reflexivity.
  - destruct (msg_created_at m) as [t|]; [|discriminate].
    destruct (sort_keys h) as [k|]; [|discriminate].
    intros [= <-]. simpl. f_equal. now apply IH.
Qed.

Lemma sort_chat_history_perm h : Permutation (sort_chat_history h) h.
Proof.
  unfold sort_chat_history. destruct (sort_keys h) as [keyed|] eqn:E; [|reflexivity].
  rewrite <- (sort_keys_snd h keyed E).
  apply Permutation_map. apply sort_by_key_perm.
Qed.

Lemma history_ids_del h : history_ids (map del_customer_id h) = history_ids h.
Proof.
  unfold history_ids. rewrite map_map. reflexivity.
Qed.

Lemma finalize_existing_ids py df c :
  Permutation (history_ids (chat_history (finalize_existing py df c)))
              (history_ids (chat_history c)).
Proof.
  simpl. rewrite history_ids_del. apply Permutation_map. apply sort_chat_history_perm.
Qed.

Lemma finalize_new_ids py df c :
  Permutation (history_ids (chat_history (finalize_new py df c)))
              (history_ids (chat_history c)).
Proof.
  simpl. rewrite history_ids_del. apply Permutation_map. apply sort_chat_history_perm.
Qed.

Lemma store_ids_map_perm (f : Conversation -> Conversation) l :
  (forall c, Permutation (history_ids (chat_history (f c))) (history_ids (chat_history c))) ->
  Permutation (store_ids (map f l)) (store_ids l).
Proof.
  intros Hf. induction l as [|c l IH]; simpl; [reflexivity|].
  apply Permutation_app; [apply Hf|exact IH].
Qed.

Lemma finalized_ids py df st :
  Permutation
    (store_ids (map (finalize_existing py df) (dict_values (existing_convo st))
                ++ map (finalize_new py df) (dict_values (new_convo st))))
    (thread_ids st).
Proof.
  rewrite store_ids_app. unfold thread_ids.
  apply Permutation_app; apply store_ids_map_perm; intros c;
    [apply finalize_existing_ids|apply finalize_new_ids].
Qed.

(** ** Loading the store *)

Lemma load_existing_fold l : forall acc,
  fst (fold_left
         (fun acc conv =>
            (dict_set (primary_tweet_id conv) conv (fst acc),
             fold_left (fun s m => set_add (msg_tweet_id m) s) (chat_history conv) (snd acc)))
         l acc)
  = fold_left (fun d conv => dict_set (primary_tweet_id conv) conv d) l (fst acc).
Proof.
  induction l as [|c l IH]; intros acc; simpl; [reflexivity|]. rewrite IH. reflexivity.
Qed.

Lemma seen_fold_In h : forall s x,
  In x (fold_left (fun s m => set_add (msg_tweet_id m) s) h s)
  <-> In x s \/ In x (history_ids h).
Proof.
  induction h as [|m h IH]; intros s x; simpl; [tauto|].
  rewrite IH, set_add_In. intuition auto.
Qed.

Lemma load_existing_seen l : forall acc x,
  In x (snd (fold_left
               (fun acc conv =>
                  (dict_set (primary_tweet_id conv) conv (fst acc),
                   fold_left (fun s m => set_add (msg_tweet_id m) s)
                             (chat_history conv) (snd acc)))
               l acc))
  <-> In x (snd acc) \/ In x (store_ids l).
Proof.
  induction l as [|c l IH]; intros acc x; simpl; [tauto|].
  rewrite IH. simpl. rewrite seen_fold_In, in_app_iff. tauto.
Qed.

Lemma load_existing_ids store x :
  In x (snd (load_existing store)) <-> In x (store_ids store).
Proof.
  unfold load_existing. rewrite load_existing_seen. simpl. tauto.
Qed.

Lemma dict_set_ids k c (d : Dict Conversation) :
  exists replaced,
    Permutation (history_ids (chat_history c) ++ store_ids (dict_values d))
                (store_ids (dict_values (dict_set k c d)) ++ replaced).
Proof.
  induction d as [|[k' v'] d IH]; simpl.
  - exists []. rewrite !app_nil_r. reflexivity.
  - destruct (k' =? k); simpl.
    + exists (history_ids (chat_history v')).
      rewrite <- app_assoc. apply Permutation_app_head. apply Permutation_app_comm.
    + destruct IH as [replaced IH]. exists replaced.
      rewrite <- app_assoc. rewrite Permutation_app_swap_app.
      apply Permutation_app_head. exact IH.
Qed.

Lemma load_fold_ids l : forall d,
  exists replaced,
    Permutation (store_ids (dict_values d) ++ store_ids l)
                (store_ids
                   (dict_values
                      (fold_left (fun d conv => dict_set (primary_tweet_id conv) conv d) l d))
                 ++ replaced).
Proof.
  induction l as [|c l IH]; intros d; simpl.
  - exists []. reflexivity.
  - destruct (IH (dict_set (primary_tweet_id c) c d)) as [r1 H1].
    destruct (dict_set_ids (primary_tweet_id c) c d) as [r2 H2].
    exists (r1 ++ r2).
    transitivity ((store_ids (dict_values (dict_set (primary_tweet_id c) c d)) ++ r2)
                  ++ store_ids l).
    + rewrite <- H2. rewrite <- app_assoc. apply Permutation_app_swap_app.
    + transitivity ((store_ids (dict_values (dict_set (primary_tweet_id c) c d))
                     ++ store_ids l) ++ r2).
      * rewrite <- !app_assoc. apply Permutation_app_head. apply Permutation_app_comm.
      * rewrite H1. rewrite <- app_assoc. reflexivity.
Qed.

Lemma load_existing_values store :
  exists replaced,
    Permutation (store_ids store)
                (store_ids (dict_values (fst (load_existing store))) ++ replaced).
Proof.
  unfold load_existing. rewrite load_existing_fold. simpl.
  destruct (load_fold_ids store []) as [replaced H]. exists replaced. exact H.
Qed.

Lemma opened_no_ids df N : Forall (opened_at df) N -> store_ids (dict_values N) = [].
Proof.
  induction 1 as [|[k c] N [row [_ [_ Hc]]] _ IH]; simpl; [reflexivity|].
  simpl in Hc. rewrite Hc. exact IH.
Qed.

(** ** A run, step by step *)

Lemma convert_steps py csv store result :
  convert_twitter_csv_to_json py csv store = Ok result ->
  exists roots st,
    for_each (identify_root py (clean_frame csv)
                (fst (load_existing store)) (snd (load_existing store)))
             (clean_frame csv) [] = Ok roots
    /\ for_each (build_thread py (clean_frame csv)) (clean_frame csv)
                {| existing_convo := fst (load_existing store);
                   existing_tweet_ids := snd (load_existing store);
                   new_convo := roots |} = Ok st
    /\ result = map (finalize_existing py (clean_frame csv)) (dict_values (existing_convo st))
                ++ map (finalize_new py (clean_frame csv)) (dict_values (new_convo st)).
Proof.
  unfold convert_twitter_csv_to_json. cbv zeta.
  destruct (for_each (identify_root _ _ _ _) (clean_frame csv) []) as [roots|e];
    simpl; [|discriminate].
  destruct (for_each (build_thread _ _) (clean_frame csv) _) as [st|e] eqn:Hst;
    simpl; [|discriminate].
  intros [= <-]. exists roots, st. auto.
Qed.

(** Where the message ids of the result come from: the store, or a tweet of
    the cleaned table that was not stored yet and resolves to a root; the
    latter are added once each. *)
Lemma convert_ids py csv store result :
  convert_twitter_csv_to_json py csv store = Ok result ->
  exists added,
    Permutation (store_ids result)
                (added ++ store_ids (dict_values (fst (load_existing store))))
    /\ NoDup added
    /\ (forall x, In x added ->
                  ~ In x (store_ids store)
                  /\ In x (map tweet_id (clean_frame csv))
                  /\ exists r, find_conversation_root (recursion_limit py) x (clean_frame csv)
                               = Ok (Some r)).
Proof.
  intros H. destruct (convert_steps _ _ _ _ H) as [roots [st [Hroots [Hst ->]]]].
  destruct (build_threads_ids _ _ _ _ _ Hst (clean_frame_NoDup csv))
    as [_ [added [Hperm [Hnd [Hadded _]]]]].
  exists added. split; [|split; [exact Hnd|]].
  - rewrite finalized_ids, Hperm. unfold thread_ids. simpl.
    destruct (identify_roots_opened _ _ _ _ _ _ _ Hroots) as [_ Hop];
      [split; constructor|].
    rewrite (opened_no_ids _ _ Hop), app_nil_r. reflexivity.
  - intros x Hx. destruct (Hadded x Hx) as [H1 H2]. split; [|exact H2].
    simpl in H1. now rewrite load_existing_ids in H1.
Qed.

Lemma convert_keeps_ids_distinct py csv store result :
  NoDup (store_ids store) ->
  convert_twitter_csv_to_json py csv store = Ok result ->
  NoDup (store_ids result).
Proof.
  intros Hnd H. destruct (convert_ids _ _ _ _ H) as [added [Hperm [Hnda Hadded]]].
  destruct (load_existing_values store) as [replaced Hload].
  apply (Permutation_NoDup (Permutation_sym Hperm)).
  apply NoDup_app; [exact Hnda| |].
  - apply (Permutation_NoDup Hload) in Hnd. now apply NoDup_app_remove_r in Hnd.
  - intros x Hx Hc. destruct (Hadded x Hx) as [Hnot _]. apply Hnot.
    apply (Permutation_in x (Permutation_sym Hload)). apply in_app_iff. now left.
Qed.

Lemma ingest_keeps_ids_distinct py store csv :
  NoDup (store_ids store) -> NoDup (store_ids (ingest py store csv)).
Proof.
  intros Hnd. unfold ingest.
  destruct (convert_twitter_csv_to_json py csv store) as [result|e] eqn:H; [|exact Hnd].
  eapply convert_keeps_ids_distinct; eassumption.
Qed.

Lemma ingest_all_from py batches : forall store,
  NoDup (store_ids store) -> NoDup (store_ids (fold_left (ingest py) batches store)).
Proof.
  induction batches as [|csv batches IH]; intros store Hnd; simpl; [exact Hnd|].
  apply IH. apply ingest_keeps_ids_distinct. exact Hnd.
Qed.

Lemma store_ids_distinct_spelled store :
  NoDup (store_ids store) ->
  (forall c, In c store -> NoDup (history_ids (chat_history c)))
  /\ (forall before c1 between c2 after x,
        store = before ++ c1 :: between ++ c2 :: after ->
        In x (history_ids (chat_history c1)) ->
        ~ In x (history_ids (chat_history c2))).
Proof.
  intros Hnd. split.
  - intros c Hc. apply in_split in Hc. destruct Hc as [l1 [l2 ->]].
    rewrite store_ids_app in Hnd. apply NoDup_app_remove_l in Hnd.
    simpl in Hnd. now apply NoDup_app_remove_r in Hnd.
  - intros before c1 between c2 after x -> H1 H2.
    assert (E : store_ids (before ++ c1 :: between ++ c2 :: after)
                = store_ids before
                  ++ history_ids (chat_history c1)
                  ++ store_ids between
                  ++ history_ids (chat_history c2) ++ store_ids after).
    { rewrite store_ids_app, store_ids_cons, store_ids_app, store_ids_cons.
      reflexivity. }
    rewrite E in Hnd. apply NoDup_app_remove_l in Hnd.
    apply in_split in H1. destruct H1 as [a1 [a2 Ha]].
    rewrite Ha, <- app_assoc in Hnd. apply NoDup_app_remove_l in Hnd.
    simpl in Hnd. apply NoDup_cons_iff in Hnd. destruct Hnd as [Hnot _].
    apply Hnot. rewrite !in_app_iff. right. right. now left.
Qed.

(** C4.  Over any sequence of runs that starts without a JSON file, the ids
    of all messages of the store, taken over every [chat_history], are
    pairwise distinct: no id occurs twice in one history, and no id occurs
    in the histories of two conversations. *)
Theorem message_ids_are_globally_distinct :
  forall (py : Interp) (batches : list (list RawRow)),
    let store := ingest_all py batches in
    NoDup (store_ids store)
    /\ (forall c, In c store -> NoDup (history_ids (chat_history c)))
    /\ (forall before c1 between c2 after x,
          store = before ++ c1 :: between ++ c2 :: after ->
          In x (history_ids (chat_history c1)) ->
          ~ In x (history_ids (chat_history c2))).
Proof.
  intros py batches store.
  assert (Hnd : NoDup (store_ids store)).
  { apply ingest_all_from. constructor. }
  split; [exact Hnd|]. apply store_ids_distinct_spelled. exact Hnd.
Qed.

(** ** Where conversations come from *)

Lemma dict_set_In {V : Type} k (v : V) d kv :
  In kv (dict_set k v d) -> kv = (k, v) \/ In kv d.
Proof.
  induction d as [|[k' v'] d IH]; simpl.
  - intros [<-|[]]. now left.
  - destruct (k' =? k); simpl.
    + intros [<-|H]; auto.
    + intros [<-|H]; [auto|]. destruct (IH H); auto.
Qed.

Lemma load_fold_In l : forall d kv,
  In kv (fold_left (fun d conv => dict_set (primary_tweet_id conv) conv d) l d) ->
  In kv d \/ (In (snd kv) l /\ fst kv = primary_tweet_id (snd kv)).
Proof.
  induction l as [|c l IH]; intros d kv; simpl; [auto|].
  intros H. destruct (IH _ _ H) as [H1|[H1 H2]]; [|auto].
  apply dict_set_In in H1. destruct H1 as [->|H1]; auto.
Qed.

Lemma load_existing_In store kv :
  In kv (fst (load_existing store)) ->
  In (snd kv) store /\ fst kv = primary_tweet_id (snd kv).
Proof.
  unfold load_existing. rewrite load_existing_fold. simpl. intros H.
  destruct (load_fold_In _ _ _ H) as [[]|H1]. exact H1.
Qed.

(** Every conversation of the result has the root id of a stored
    conversation, or is rooted at a row of the cleaned table that answers no
    tweet. *)
Lemma convert_roots py csv store result c :
  convert_twitter_csv_to_json py csv store = Ok result ->
  In c result ->
  (exists c0, In c0 store /\ primary_tweet_id c0 = primary_tweet_id c)
  \/ (exists row, rows_with_id (primary_tweet_id c) (clean_frame csv) = Some row
                  /\ in_response_to_tweet_id row = "").
Proof.
  intros H Hc. destruct (convert_steps _ _ _ _ H) as [roots [st [Hroots [Hst ->]]]].
  destruct (identify_roots_opened _ _ _ _ _ _ _ Hroots) as [_ Hop]; [split; constructor|].
  destruct (build_threads_entries
              (fun _ c1 => exists c0, In c0 store /\ primary_tweet_id c0 = primary_tweet_id c1)
              (fun k c1 => primary_tweet_id c1 = k
                           /\ exists row, rows_with_id k (clean_frame csv) = Some row
                                          /\ in_response_to_tweet_id row = "")
              _ _ _ _ _ (fun _ _ _ H0 => H0) (fun _ _ _ H0 => H0) Hst) as [HE HN].
  { simpl. split.
    - apply Forall_forall. intros kv Hkv.
      apply load_existing_In in Hkv. destruct Hkv as [Hin _]. eauto.
    - eapply Forall_impl; [|exact Hop].
      intros [k c1] [row [Hrow [Hp Hc1]]]. simpl in *. subst c1. split; [reflexivity|eauto]. }
  apply in_app_iff in Hc. destruct Hc as [Hc|Hc];
    apply in_map_iff in Hc; destruct Hc as [c1 [<- Hc1]];
    apply in_map_iff in Hc1; destruct Hc1 as [kv [<- Hkv]].
  - left. rewrite Forall_forall in HE. apply (HE kv Hkv).
  - right. rewrite Forall_forall in HN. destruct (HN kv Hkv) as [Hk Hrow].
    simpl. rewrite Hk. exact Hrow.
Qed.

(** ** When a run returns *)

Lemma for_each_returns {S A : Type} (body : S -> A -> result S) (I : S -> Prop) l :
  (forall s x, In x l -> I s -> exists s', body s x = Ok s' /\ I s') ->
  forall s, I s -> exists s', for_each body l s = Ok s' /\ I s'.
Proof.
  induction l as [|x l IH]; intros Hstep s Hs; simpl; [eauto|].
  destruct (Hstep s x (or_introl eq_refl) Hs) as [s1 [E H1]]. rewrite E. simpl.
  apply IH; [|exact H1]. intros s0 y Hy. apply Hstep. now right.
Qed.

Lemma identify_root_returns py df E X N t :
  (mem (tweet_id t) X = false ->
   exists root, find_conversation_root (recursion_limit py) (tweet_id t) df = Ok root) ->
  exists N', identify_root py df E X N t = Ok N'.
Proof.
  unfold identify_root. intros H.
  destruct (mem (tweet_id t) X); [eauto|].
  destruct (H eq_refl) as [root ->]. simpl.
  destruct (truthy_opt root); [|eauto].
  destruct (truthy_opt (matching_conversation E root)); [eauto|].
  destruct root as [r|]; [|eauto].
  destruct (dict_mem r N); [eauto|].
  destruct (rows_with_id r df); eauto.
Qed.

Lemma build_thread_returns py df st t :
  (mem (tweet_id t) (existing_tweet_ids st) = false ->
   exists root, find_conversation_root (recursion_limit py) (tweet_id t) df = Ok root) ->
  exists st', build_thread py df st t = Ok st'.
Proof.
  unfold build_thread. intros H.
  destruct (mem (tweet_id t) (existing_tweet_ids st)); [eauto|].
  destruct (H eq_refl) as [root ->]. simpl.
  destruct (truthy_opt (matching_conversation (existing_convo st) root)).
  - destruct (matching_conversation (existing_convo st) root); eauto.
  - destruct root as [r|]; [|eauto].
    destruct (truthy r && dict_mem r (new_convo st)); eauto.
Qed.

(** A run returns as soon as every tweet that is not stored yet resolves
    without exhausting the interpreter's stack. *)
Lemma convert_returns py csv store :
  (forall t, In t (clean_frame csv) ->
             ~ In (tweet_id t) (store_ids store) ->
             exists root,
               find_conversation_root (recursion_limit py) (tweet_id t) (clean_frame csv)
               = Ok root) ->
  exists result, convert_twitter_csv_to_json py csv store = Ok result.
Proof.
  intros Hres. unfold convert_twitter_csv_to_json. cbv zeta.
  destruct (for_each_returns
              (identify_root py (clean_frame csv)
                 (fst (load_existing store)) (snd (load_existing store)))
              (fun _ => True) (clean_frame csv)) with (s := @nil (string * Conversation))
    as [roots [Hroots _]]; [|exact I|].
  { intros s t Ht _.
    destruct (identify_root_returns py (clean_frame csv) (fst (load_existing store))
                (snd (load_existing store)) s t) as [N' HN']; [|eauto].
    intros HX. apply Hres; [exact Ht|].
    apply mem_false in HX. now rewrite load_existing_ids in HX. }
  rewrite Hroots. simpl.
  destruct (for_each_returns (build_thread py (clean_frame csv))
              (fun s => incl (snd (load_existing store)) (existing_tweet_ids s))
              (clean_frame csv))
    with (s := {| existing_convo := fst (load_existing store);
                  existing_tweet_ids := snd (load_existing store);
                  new_convo := roots |})
    as [st [Hst _]]; [|apply incl_refl|].
  { intros s t Ht Hs.
    destruct (build_thread_returns py (clean_frame csv) s t) as [s' Hs'].
    - intros HX. apply Hres; [exact Ht|]. apply mem_false in HX.
      intros Hc. apply HX. apply Hs. now apply load_existing_ids.
    - exists s'. split; [exact Hs'|].
      destruct (build_thread_step _ _ _ _ _ Hs') as [[_ [_ [_ Hincl]]] _].
      eapply incl_tran; eassumption. }
  rewrite Hst. simpl. eauto.
Qed.

(** C2 (amended).  A tweet of the cleaned table whose parent id is not empty
    and is the id of no row resolves to no root, without raising.  The run
    returns when the other new tweets resolve, and it neither adds the tweet
    to a history nor opens a conversation rooted at it. *)
Theorem unresolvable_parent_drops_the_message :
  forall (py : Interp) (csv : list RawRow) (store : list Conversation) (t : Row),
    2 <= recursion_limit py ->
    In t (clean_frame csv) ->
    in_response_to_tweet_id t <> "" ->
    ~ In (in_response_to_tweet_id t) (map tweet_id (clean_frame csv)) ->
    (forall t', In t' (clean_frame csv) -> tweet_id t' <> tweet_id t ->
                ~ In (tweet_id t') (store_ids store) ->
                exists root,
                  find_conversation_root (recursion_limit py) (tweet_id t') (clean_frame csv)
                  = Ok root) ->
    find_conversation_root (recursion_limit py) (tweet_id t) (clean_frame csv) = Ok None
    /\ exists result,
        convert_twitter_csv_to_json py csv store = Ok result
        /\ (In (tweet_id t) (store_ids result) -> In (tweet_id t) (store_ids store))
        /\ (forall c, In c result -> primary_tweet_id c = tweet_id t ->
                      exists c0, In c0 store /\ primary_tweet_id c0 = tweet_id t).
Proof.
  intros py csv store t Hlimit Ht Hp Hmissing Hothers.
  pose proof (clean_frame_NoDup csv) as Hnd.
  pose proof (rows_with_id_in _ _ Hnd Ht) as Hrow.
  destruct (clean_frame_origin _ _ Ht) as [Hid _].
  assert (Hnone : find_conversation_root (recursion_limit py) (tweet_id t) (clean_frame csv)
                  = Ok None).
  { eapply find_conversation_root_orphan; eassumption. }
  split; [exact Hnone|].
  destruct (convert_returns py csv store) as [result Hres].
  { intros t' Ht' Hnew. destruct (string_dec (tweet_id t') (tweet_id t)) as [->|Hne];
      [eauto|]. now apply Hothers. }
  exists result. split; [exact Hres|]. split.
  - intros Hin. destruct (convert_ids _ _ _ _ Hres) as [added [Hperm [_ Hadded]]].
    apply (Permutation_in _ Hperm) in Hin. apply in_app_iff in Hin.
    destruct Hin as [Hin|Hin].
    + destruct (Hadded _ Hin) as [_ [_ [r Hr]]]. congruence.
    + destruct (load_existing_values store) as [replaced Hload].
      apply (Permutation_in _ (Permutation_sym Hload)). apply in_app_iff. now left.
  - intros c Hc Hprim. destruct (convert_roots _ _ _ _ _ Hres Hc) as [[c0 H0]|[row [H1 H2]]].
    + exists c0. rewrite <- Hprim. exact H0.
    + rewrite Hprim, Hrow in H1. injection H1 as <-. contradiction.
Qed.

Lemma unresolvable_parent_witness :
  find_conversation_root (recursion_limit cpython) (tweet_id orphan_row)
                         (clean_frame orphan_reply) = Ok None
  /\ exists result,
      convert_twitter_csv_to_json cpython orphan_reply [] = Ok result
      /\ (In (tweet_id orphan_row) (store_ids result) -> In (tweet_id orphan_row) (store_ids []))
      /\ (forall c, In c result -> primary_tweet_id c = tweet_id orphan_row ->
                    exists c0, In c0 [] /\ primary_tweet_id c0 = tweet_id orphan_row).
Proof.
  apply (unresolvable_parent_drops_the_message cpython orphan_reply [] orphan_row).
  - apply Nat.leb_le. vm_compute. reflexivity.
  - vm_compute. left. reflexivity.
  - vm_compute. discriminate.
  - vm_compute. intros [H|[]]. discriminate.
  - intros t' Ht' Hne. vm_compute in Ht'. destruct Ht' as [<-|[]].
    exfalso. apply Hne. reflexivity.
Defined.

(** ** The row limit *)

(** C9.  Only the first 4000 rows of the table are read: the outcome of a
    run, returned list or exception, is that of the run on the first 4000
    rows, and every message id and every root id of the result is in the
    store already or is the cleaned id of one of the first 4000 rows. *)
Theorem only_the_first_4000_rows_are_read :
  forall (py : Interp) (csv : list RawRow) (store : list Conversation),
    convert_twitter_csv_to_json py csv store
    = convert_twitter_csv_to_json py (firstn 4000 csv) store
    /\ (forall result x,
          convert_twitter_csv_to_json py csv store = Ok result ->
          In x (store_ids result) ->
          In x (store_ids store)
          \/ exists raw, In raw (firstn 4000 csv) /\ tweet_id (clean_row raw) = x)
    /\ (forall result c,
          convert_twitter_csv_to_json py csv store = Ok result ->
          In c result ->
          (exists c0, In c0 store /\ primary_tweet_id c0 = primary_tweet_id c)
          \/ exists raw, In raw (firstn 4000 csv)
                         /\ tweet_id (clean_row raw) = primary_tweet_id c).
Proof.
  intros py csv store. split; [|split].
  - unfold convert_twitter_csv_to_json, clean_frame. rewrite firstn_firstn.
    reflexivity.
  - intros result x Hres Hx.
    destruct (convert_ids _ _ _ _ Hres) as [added [Hperm [_ Hadded]]].
    apply (Permutation_in _ Hperm) in Hx. apply in_app_iff in Hx.
    destruct Hx as [Hx|Hx].
    + right. destruct (Hadded _ Hx) as [_ [Hin _]].
      apply in_map_iff in Hin. destruct Hin as [r [Hr Hin]].
      destruct (clean_frame_origin _ _ Hin) as [_ [raw [Hraw ->]]]. eauto.
    + left. destruct (load_existing_values store) as [replaced Hload].
      apply (Permutation_in _ (Permutation_sym Hload)). apply in_app_iff. now left.
  - intros result c Hres Hc.
    destruct (convert_roots _ _ _ _ _ Hres Hc) as [H|[row [Hrow _]]]; [now left|].
    right. apply rows_with_id_some in Hrow. destruct Hrow as [Hin Hid].
    destruct (clean_frame_origin _ _ Hin) as [_ [raw [Hraw ->]]]. eauto.
Qed.

Example row_4001_is_ignored :
  exists c,
    convert_twitter_csv_to_json cpython long_table [] = Ok [c]
    /\ primary_tweet_id c = "1"
    /\ history_ids (chat_history c) = ["1"].
Proof. eexists. split; [vm_compute; reflexivity|]. split; reflexivity. Qed.

(** ** Finalizing twice *)

Lemma insert_by_key_sorted x l : key_sorted l -> key_sorted (insert_by_key x l).
Proof.
  induction l as [|y l IH]; simpl; [tauto|].
  intros [Hy Hl]. destruct (Z.leb_spec (fst x) (fst y)) as [Hle|Hgt].
  - simpl. tauto.
  - specialize (IH Hl). destruct l as [|z l]; simpl in *.
    + split; [lia|tauto].
    + destruct (fst x <=? fst z)%Z; simpl in *; split; try tauto; lia.
Qed.

Lemma sort_by_key_sorted l : key_sorted (sort_by_key l).
Proof.
  induction l as [|x l IH]; simpl; [exact I|]. now apply insert_by_key_sorted.
Qed.

Lemma sort_by_key_fixed l : key_sorted l -> sort_by_key l = l.
Proof.
  induction l as [|x l IH]; simpl; [reflexivity|].
  intros [Hx Hl]. rewrite (IH Hl). destruct l as [|y l]; simpl; [reflexivity|].
  apply Z.leb_le in Hx. now rewrite Hx.
Qed.

Lemma sort_keys_of_keyed keyed :
  Forall (fun p => msg_created_at (snd p) = Some (fst p)) keyed ->
  sort_keys (map snd keyed) = Some keyed.
Proof.
  induction 1 as [|[t m] keyed Hx _ IH]; simpl; [reflexivity|].
  simpl in Hx. rewrite Hx, IH. reflexivity.
Qed.

Lemma sort_keys_keyed h : forall keyed,
  sort_keys h = Some keyed ->
  Forall (fun p => msg_created_at (snd p) = Some (fst p)) keyed.
Proof.
  induction h as [|m h IH]; simpl; intros keyed.
  - intros [= <-]. constructor.
  - destruct (msg_created_at m) as [t|] eqn:Ht; [|discriminate].
    destruct (sort_keys h) as [k|]; [|discriminate].
    intros [= <-]. constructor; [exact Ht|]. now apply IH.
Qed.

Lemma sort_chat_history_idem h :
  sort_chat_history (sort_chat_history h) = sort_chat_history h.
Proof.
  destruct (sort_keys h) as [keyed|] eqn:E.
  - assert (Hs : sort_chat_history h = map snd (sort_by_key keyed)).
    { unfold sort_chat_history. rewrite E. reflexivity. }
    rewrite Hs. unfold sort_chat_history. rewrite sort_keys_of_keyed.
    + rewrite sort_by_key_fixed; [reflexivity|apply sort_by_key_sorted].
    + eapply Permutation_Forall; [symmetry; apply sort_by_key_perm|].
      eapply sort_keys_keyed. exact E.
  - assert (Hs : sort_chat_history h = h).
    { unfold sort_chat_history. rewrite E. reflexivity. }
    rewrite Hs. exact Hs.
Qed.

Lemma insert_by_key_del x l :
  insert_by_key (del_keyed x) (map del_keyed l) = map del_keyed (insert_by_key x l).
Proof.
  induction l as [|y l IH]; simpl; [reflexivity|].
  destruct (fst x <=? fst y)%Z; simpl; [reflexivity|]. now rewrite IH.
Qed.

Lemma sort_by_key_del l : sort_by_key (map del_keyed l) = map del_keyed (sort_by_key l).
Proof.
  induction l as [|x l IH]; simpl; [reflexivity|].
  rewrite IH. apply insert_by_key_del.
Qed.

Lemma sort_keys_del h :
  sort_keys (map del_customer_id h) = option_map (map del_keyed) (sort_keys h).
Proof.
  induction h as [|m h IH]; simpl; [reflexivity|].
  rewrite IH. destruct (msg_created_at m); [|reflexivity].
  destruct (sort_keys h); reflexivity.
Qed.

Lemma sort_chat_history_del h :
  sort_chat_history (map del_customer_id h) = map del_customer_id (sort_chat_history h).
Proof.
  unfold sort_chat_history. rewrite sort_keys_del.
  destruct (sort_keys h) as [keyed|]; simpl; [|reflexivity].
  rewrite sort_by_key_del, !map_map. reflexivity.
Qed.

Lemma sort_finalized h :
  sort_chat_history (map del_customer_id (sort_chat_history h))
  = map del_customer_id (sort_chat_history h).
Proof.
  rewrite sort_chat_history_del, sort_chat_history_idem. reflexivity.
Qed.

Lemma customer_ids_of_del h : customer_ids_of (map del_customer_id h) = [].
Proof.
  unfold customer_ids_of. generalize (@nil string).
  induction h as [|m h IH]; intros acc; simpl; [reflexivity|].
  destruct (msg_response_type m); apply IH.
Qed.

Lemma company_ids_of_del df h :
  company_ids_of df (map del_customer_id h) = company_ids_of df h.
Proof.
  unfold company_ids_of. generalize (@nil string).
  induction h as [|m h IH]; intros acc; simpl; [reflexivity|]. apply IH.
Qed.

Lemma del_customer_id_idem h :
  map del_customer_id (map del_customer_id h) = map del_customer_id h.
Proof.
  rewrite map_map. reflexivity.
Qed.

Lemma last_of_last (l : list string) d : last l (last l d) = last l d.
Proof.
  induction l as [|x l IH]; [reflexivity|].
  destruct l as [|y l]; [reflexivity|]. exact IH.
Qed.

Lemma finalize_existing_new py df c :
  finalize_existing py df (finalize_new py df c) = finalize_new py df c.
Proof.
  unfold finalize_existing. simpl.
  rewrite sort_finalized, customer_ids_of_del, company_ids_of_del, del_customer_id_idem.
  rewrite history_ids_del, last_of_last.
  unfold finalize_new. f_equal.
  destruct (company_ids_of df (sort_chat_history (chat_history c))); reflexivity.
Qed.

Lemma finalize_existing_idem py df c :
  finalize_existing py df (finalize_existing py df c) = finalize_existing py df c.
Proof.
  unfold finalize_existing at 1. simpl.
  rewrite sort_finalized, customer_ids_of_del, company_ids_of_del, del_customer_id_idem.
  rewrite history_ids_del, last_of_last.
  unfold finalize_existing. f_equal.
  destruct (company_ids_of df (sort_chat_history (chat_history c))); reflexivity.
Qed.

(** ** Loading a store with distinct root ids *)

Lemma load_fold_fresh l : forall d,
  NoDup (dict_keys d ++ map primary_tweet_id l) ->
  fold_left (fun d conv => dict_set (primary_tweet_id conv) conv d) l d = d ++ as_dict l.
Proof.
  induction l as [|c l IH]; intros d Hnd; simpl; [now rewrite app_nil_r|].
  assert (Hfresh : dict_mem (primary_tweet_id c) d = false).
  { apply dict_mem_false. intros Hin. apply NoDup_remove_2 in Hnd. apply Hnd.
    apply in_app_iff. now left. }
  rewrite dict_set_fresh by exact Hfresh. rewrite IH.
  - rewrite <- app_assoc. reflexivity.
  - unfold dict_keys. rewrite map_app. simpl. rewrite <- app_assoc. exact Hnd.
Qed.

Lemma load_existing_distinct store :
  NoDup (map primary_tweet_id store) -> fst (load_existing store) = as_dict store.
Proof.
  intros Hnd. unfold load_existing. rewrite load_existing_fold. simpl.
  now rewrite load_fold_fresh.
Qed.

Lemma as_dict_values store : dict_values (as_dict store) = store.
Proof.
  unfold dict_values, as_dict. rewrite map_map. simpl. apply map_id.
Qed.

(** ** Every resolved tweet is attached *)

Lemma build_thread_attaches py df st t st' r :
  mem (tweet_id t) (existing_tweet_ids st) = false ->
  find_conversation_root (recursion_limit py) (tweet_id t) df = Ok (Some r) ->
  truthy_opt (matching_conversation (existing_convo st) (Some r)) = true
  \/ dict_mem r (new_convo st) = true ->
  build_thread py df st t = Ok st' ->
  In (tweet_id t) (thread_ids st').
Proof.
  intros HX Hroot Hcase H. unfold build_thread in H. rewrite HX, Hroot in H.
  unfold bind in H. cbv zeta in H.
  destruct (truthy_opt (matching_conversation (existing_convo st) (Some r))) eqn:Hm.
  - destruct (matching_conversation (existing_convo st) (Some r)) as [conv_id|] eqn:Hmc;
      [|discriminate].
    injection H as <-.
    destruct (matching_conversation_key _ _ _ Hmc) as [_ Hkey].
    unfold attach_existing. pose proof Hkey as Hget. apply dict_get_mem in Hget.
    destruct Hget as [c Hget]. rewrite Hget.
    destruct (mem (tweet_id t) (history_ids (chat_history c))) eqn:Hh.
    + unfold thread_ids. apply in_app_iff. left.
      apply (dict_value_ids conv_id c); [now apply dict_get_In|now apply mem_In].
    + unfold thread_ids. simpl. apply in_app_iff. left.
      eapply Permutation_in;
        [symmetry;
         apply (store_ids_update_append conv_id
                  (fun c0 => set_processed false (append_entry t c0)) (tweet_id t));
         [|exact Hkey]|now left].
      intros c0. simpl. unfold history_ids. rewrite map_app. reflexivity.
  - destruct Hcase as [Hc|Hkey]; [discriminate|].
    pose proof (find_conversation_root_some _ _ _ _ Hroot) as [Hr _].
    assert (Ht : truthy r = true).
    { unfold truthy. apply negb_true_iff. now apply String.eqb_neq. }
    rewrite Ht, Hkey in H. simpl in H. injection H as <-.
    unfold attach_new. pose proof Hkey as Hget. apply dict_get_mem in Hget.
    destruct Hget as [c Hget]. rewrite Hget.
    destruct (mem (tweet_id t) (history_ids (chat_history c))) eqn:Hh.
    + unfold thread_ids. apply in_app_iff. right.
      apply (dict_value_ids r c); [now apply dict_get_In|now apply mem_In].
    + unfold thread_ids. simpl. apply in_app_iff. right.
      eapply Permutation_in;
        [symmetry;
         apply (store_ids_update_append r (append_entry t) (tweet_id t)); [|exact Hkey]
        |now left].
      intros c0. simpl. unfold history_ids. rewrite map_app. reflexivity.
Qed.

Lemma build_threads_keep py df l st st' x :
  for_each (build_thread py df) l st = Ok st' ->
  NoDup (map tweet_id l) ->
  In x (thread_ids st) -> In x (thread_ids st').
Proof.
  intros Hloop Hnd Hx.
  destruct (build_threads_ids _ _ _ _ _ Hloop Hnd) as [_ [added [Hperm _]]].
  apply (Permutation_in _ (Permutation_sym Hperm)). apply in_app_iff. now right.
Qed.

Lemma build_threads_cover py df l : forall st st' t r,
  for_each (build_thread py df) l st = Ok st' ->
  NoDup (map tweet_id l) ->
  In t l ->
  mem (tweet_id t) (existing_tweet_ids st) = false ->
  find_conversation_root (recursion_limit py) (tweet_id t) df = Ok (Some r) ->
  truthy_opt (matching_conversation (existing_convo st) (Some r)) = true
  \/ dict_mem r (new_convo st) = true ->
  In (tweet_id t) (thread_ids st').
Proof.
  induction l as [|x l IH]; intros st st' t r Hloop Hnd Hin HX Hroot Hcase; [contradiction|].
  simpl in Hloop.
  destruct (build_thread py df st x) as [st1|e] eqn:Hstep; simpl in Hloop; [|discriminate].
  apply NoDup_cons_iff in Hnd. destruct Hnd as [Hnot Hnd].
  destruct Hin as [->|Hin].
  - eapply build_threads_keep; [exact Hloop|exact Hnd|].
    eapply build_thread_attaches; eassumption.
  - destruct (build_thread_step _ _ _ _ _ Hstep) as [[HkE [HkN [Hmatch _]]] Hst1].
    eapply IH; try eassumption.
    + destruct Hst1 as [->|[_ [_ [_ HX1]]]]; [exact HX|].
      apply mem_false. intros Hc. destruct (HX1 _ Hc) as [Heq|Hold].
      * apply Hnot. rewrite <- Heq. now apply in_map.
      * apply mem_false in HX. contradiction.
    + destruct Hcase as [Hc|Hc]; [left; now rewrite Hmatch|right].
      apply dict_mem_In. rewrite HkN. now apply dict_mem_In.
Qed.

Lemma for_each_step_returns {S A : Type} (body : S -> A -> result S) l : forall s s' x,
  for_each body l s = Ok s' -> In x l -> exists s1 s2, body s1 x = Ok s2.
Proof.
  induction l as [|y l IH]; intros s s' x Hloop Hin; [contradiction|].
  simpl in Hloop. destruct (body s y) as [s1|e] eqn:E; simpl in Hloop; [|discriminate].
  destruct Hin as [->|Hin]; [eauto|]. eapply IH; eassumption.
Qed.

(** A tweet of the table that is not stored yet resolves to no root, or is
    in a history of the result. *)
Lemma convert_new_tweets py csv store result t :
  convert_twitter_csv_to_json py csv store = Ok result ->
  In t (clean_frame csv) ->
  ~ In (tweet_id t) (store_ids store) ->
  find_conversation_root (recursion_limit py) (tweet_id t) (clean_frame csv) = Ok None
  \/ In (tweet_id t) (store_ids result).
Proof.
  intros H Ht Hnew. destruct (convert_steps _ _ _ _ H) as [roots [st [Hroots [Hst ->]]]].
  assert (HX : mem (tweet_id t) (snd (load_existing store)) = false).
  { apply mem_false. now rewrite load_existing_ids. }
  destruct (for_each_step_returns _ _ _ _ _ Hroots Ht) as [N1 [N2 Hstep]].
  unfold identify_root in Hstep. rewrite HX in Hstep.
  destruct (find_conversation_root (recursion_limit py) (tweet_id t) (clean_frame csv))
    as [[r|]|e] eqn:Hroot; simpl in Hstep; [|now left|discriminate].
  right. apply (Permutation_in _ (Permutation_sym (finalized_ids py (clean_frame csv) st))).
  eapply build_threads_cover; try eassumption; [apply clean_frame_NoDup|]. simpl.
  destruct (truthy_opt (matching_conversation (fst (load_existing store)) (Some r)))
    eqn:Hm; [now left|right].
  eapply identify_roots_cover; eassumption.
Qed.

Lemma convert_keeps_store_ids py csv store result :
  NoDup (map primary_tweet_id store) ->
  convert_twitter_csv_to_json py csv store = Ok result ->
  incl (store_ids store) (store_ids result).
Proof.
  intros Hkeys H x Hx. destruct (convert_ids _ _ _ _ H) as [added [Hperm _]].
  apply (Permutation_in _ (Permutation_sym Hperm)). apply in_app_iff. right.
  rewrite load_existing_distinct by exact Hkeys. now rewrite as_dict_values.
Qed.

(** ** Running a batch again *)

Lemma build_thread_skip py df st t :
  mem (tweet_id t) (existing_tweet_ids st) = true
  \/ find_conversation_root (recursion_limit py) (tweet_id t) df = Ok None ->
  build_thread py df st t = Ok st.
Proof.
  unfold build_thread. intros [H|H].
  - now rewrite H.
  - destruct (mem (tweet_id t) (existing_tweet_ids st)); [reflexivity|].
    rewrite H. reflexivity.
Qed.

Lemma convert_again py csv store result :
  NoDup (map primary_tweet_id store) ->
  convert_twitter_csv_to_json py csv store = Ok result ->
  NoDup (map primary_tweet_id result) ->
  convert_twitter_csv_to_json py csv result = Ok result.
Proof.
  intros Hkeys H Hkeys'.
  assert (Hseen : forall t, In t (clean_frame csv) ->
                            mem (tweet_id t) (snd (load_existing result)) = true
                            \/ find_conversation_root (recursion_limit py) (tweet_id t)
                                                      (clean_frame csv) = Ok None).
  { intros t Ht.
    destruct (in_dec string_dec (tweet_id t) (store_ids store)) as [Hin|Hnew].
    - left. apply mem_In. apply load_existing_ids.
      apply (convert_keeps_store_ids py csv store result Hkeys H). exact Hin.
    - destruct (convert_new_tweets _ _ _ _ _ H Ht Hnew) as [Hn|Hin]; [now right|].
      left. apply mem_In. now apply load_existing_ids. }
  destruct (convert_steps _ _ _ _ H) as [roots [st [_ [_ Hresult]]]].
  unfold convert_twitter_csv_to_json. cbv zeta.
  rewrite identify_roots_none.
  - simpl. rewrite for_each_skip.
    + simpl. rewrite app_nil_r, load_existing_distinct by exact Hkeys'.
      rewrite as_dict_values. f_equal. clear H Hkeys' Hseen. subst result.
      rewrite map_app, !map_map. f_equal; apply map_ext; intros c.
      * apply finalize_existing_idem.
      * apply finalize_existing_new.
    + intros t Ht. apply build_thread_skip. simpl. now apply Hseen.
  - intros t Ht. destruct (Hseen t Ht) as [Hs|Hn]; [now left|right].
    exists None. split; [exact Hn|now left].
Qed.


(** ** Running a batch again *)

Lemma convert_nothing_new py csv store :
  NoDup (map primary_tweet_id store) ->
  (forall t, In t (clean_frame csv) ->
             In (tweet_id t) (store_ids store)
             \/ find_conversation_root (recursion_limit py) (tweet_id t) (clean_frame csv)
                = Ok None) ->
  convert_twitter_csv_to_json py csv store
  = Ok (map (finalize_existing py (clean_frame csv)) store).
Proof.
  intros Hkeys Hseen.
  unfold convert_twitter_csv_to_json. cbv zeta.
  rewrite identify_roots_none.
  - simpl. rewrite for_each_skip.
    + simpl. rewrite app_nil_r, load_existing_distinct by exact Hkeys.
      rewrite as_dict_values. reflexivity.
    + intros t Ht. apply build_thread_skip. simpl.
      destruct (Hseen t Ht) as [Hs|Hn]; [left|now right].
      apply mem_In. now apply load_existing_ids.
  - intros t Ht. destruct (Hseen t Ht) as [Hs|Hn]; [left|right].
    + apply mem_In. now apply load_existing_ids.
    + exists None. split; [exact Hn|now left].
Qed.

Lemma rerun_sees_every_tweet py csv store result t :
  NoDup (map primary_tweet_id store) ->
  convert_twitter_csv_to_json py csv store = Ok result ->
  In t (clean_frame csv) ->
  In (tweet_id t) (store_ids result)
  \/ find_conversation_root (recursion_limit py) (tweet_id t) (clean_frame csv) = Ok None.
Proof.
  intros Hkeys H Ht.
  destruct (in_dec string_dec (tweet_id t) (store_ids store)) as [Hin|Hnew].
  - left. apply (convert_keeps_store_ids py csv store result Hkeys H). exact Hin.
  - destruct (convert_new_tweets _ _ _ _ _ H Ht Hnew) as [Hn|Hin]; [now right|now left].
Qed.

Lemma finalize_new_finalized py df c : finalized_by py df (finalize_new py df c).
Proof.
  unfold finalized_by, finalize_new.
  cbn [chat_history tail_id company_id].
  rewrite sort_finalized, del_customer_id_idem, history_ids_del, last_of_last,
    company_ids_of_del.
  repeat split.
  destruct (company_ids_of df (sort_chat_history (chat_history c))); [exact I|reflexivity].
Qed.

Lemma finalize_existing_finalized py df c : finalized_by py df (finalize_existing py df c).
Proof.
  unfold finalized_by, finalize_existing.
  cbn [chat_history tail_id company_id].
  rewrite sort_finalized, del_customer_id_idem, history_ids_del, last_of_last,
    company_ids_of_del.
  repeat split.
  destruct (company_ids_of df (sort_chat_history (chat_history c))); [exact I|reflexivity].
Qed.

Lemma returned_finalized py csv store result c :
  convert_twitter_csv_to_json py csv store = Ok result ->
  In c result ->
  finalized_by py (clean_frame csv) c.
Proof.
  intros H Hc. destruct (convert_steps _ _ _ _ H) as [roots [st [_ [_ ->]]]].
  apply in_app_iff in Hc. destruct Hc as [Hc|Hc];
    apply in_map_iff in Hc; destruct Hc as [c0 [<- _]].
  - apply finalize_existing_finalized.
  - apply finalize_new_finalized.
Qed.

Lemma set_company_id_same c : set_company_id (company_id c) c = c.
Proof. destruct c. reflexivity. Qed.

Lemma finalize_existing_repicks py py' df c :
  finalized_by py df c -> repicked py py' df c (finalize_existing py' df c).
Proof.
  intros [Hs [Hd [Ht Hc]]].
  assert (Hcust : customer_ids_of (chat_history c) = []).
  { rewrite <- Hd. apply customer_ids_of_del. }
  unfold repicked, finalize_existing. cbv zeta.
  rewrite Hs, Hcust, Hd, Ht. cbn [company_id]. split.
  - destruct c. reflexivity.
  - destruct (company_ids_of df (chat_history c)); [reflexivity|].
    split; [exact Hc|reflexivity].
Qed.

Lemma repicked_alike py py' df c c' :
  (forall ids, set_first py' ids = set_first py ids) ->
  repicked py py' df c c' -> c' = c.
Proof.
  intros Hsame [Hc Hid].
  assert (E : company_id c' = company_id c).
  { destruct (company_ids_of df (chat_history c)) as [|a ids]; [exact Hid|].
    destruct Hid as [-> ->]. apply Hsame. }
  rewrite Hc, E. apply set_company_id_same.
Qed.

Lemma rerun_repicks py py' df l :
  Forall (finalized_by py df) l ->
  Forall2 (repicked py py' df) l (map (finalize_existing py' df) l).
Proof.
  induction 1 as [|c l Hc _ IH]; simpl; constructor; [|exact IH].
  now apply finalize_existing_repicks.
Qed.

Lemma rerun_alike py py' df l l' :
  (forall ids, set_first py' ids = set_first py ids) ->
  Forall2 (repicked py py' df) l l' -> l' = l.
Proof.
  intros Hsame. induction 1 as [|c c' l l' Hc _ IH]; [reflexivity|].
  rewrite IH. f_equal. exact (repicked_alike py py' df c c' Hsame Hc).
Qed.




(** ** Reopening a stored conversation *)

Lemma insert_by_key_snoc y x l :
  (fst y <= fst x)%Z -> insert_by_key y (l ++ [x]) = insert_by_key y l ++ [x].
Proof.
  intros Hle. induction l as [|z l IH]; simpl.
  - apply Z.leb_le in Hle. now rewrite Hle.
  - destruct (fst y <=? fst z)%Z; [reflexivity|]. now rewrite IH.
Qed.

Lemma sort_by_key_snoc x l :
  (forall p, In p l -> (fst p <= fst x)%Z) ->
  sort_by_key (l ++ [x]) = sort_by_key l ++ [x].
Proof.
  induction l as [|y l IH]; intros Hle; simpl; [reflexivity|].
  rewrite IH by (intros p Hp; apply Hle; now right).
  apply insert_by_key_snoc. apply Hle. now left.
Qed.

Lemma sort_keys_snoc h e : forall keyed,
  sort_keys (h ++ [e]) = Some keyed ->
  exists kh tn,
    sort_keys h = Some kh /\ msg_created_at e = Some tn /\ keyed = kh ++ [(tn, e)].
Proof.
  induction h as [|m h IH]; simpl; intros keyed.
  - destruct (msg_created_at e) as [tn|]; [|discriminate].
    intros [= <-]. exists [], tn. auto.
  - destruct (msg_created_at m) as [t|]; [|discriminate].
    destruct (sort_keys (h ++ [e])) as [k|]; [|discriminate].
    intros [= <-]. destruct (IH k eq_refl) as [kh [tn [-> [Htn ->]]]].
    exists ((t, m) :: kh), tn. auto.
Qed.

Lemma sort_chat_history_last n h :
  not_earlier n h ->
  exists sorted, sort_chat_history (h ++ [message_entry n]) = sorted ++ [message_entry n].
Proof.
  intros Hle. unfold sort_chat_history.
  destruct (sort_keys (h ++ [message_entry n])) as [keyed|] eqn:E; [|eauto].
  destruct (sort_keys_snoc _ _ _ E) as [kh [tn [Hkh [Htn ->]]]].
  rewrite sort_by_key_snoc.
  - rewrite map_app. simpl. eauto.
  - intros [t0 m] Hp. simpl.
    pose proof (sort_keys_keyed _ _ Hkh) as Hk. rewrite Forall_forall in Hk.
    apply (Hle m t0 tn).
    + rewrite <- (sort_keys_snd _ _ Hkh). apply in_map_iff. exists (t0, m). auto.
    + apply (Hk (t0, m) Hp).
    + exact Htn.
Qed.

Lemma matching_as_dict store c :
  In c store ->
  (forall c', In c' store -> tail_id c' = tail_id c -> c' = c) ->
  matching_conversation (as_dict store) (Some (tail_id c)) = Some (primary_tweet_id c).
Proof.
  unfold matching_conversation. induction store as [|c0 store IH]; [contradiction|].
  intros Hin Huniq. simpl.
  destruct (String.eqb_spec (tail_id c0) (tail_id c)) as [Heq|Hne].
  - rewrite (Huniq c0 (or_introl eq_refl) Heq). reflexivity.
  - destruct Hin as [->|Hin]; [congruence|].
    apply IH; [exact Hin|]. intros c' Hc'. apply Huniq. now right.
Qed.

Lemma dict_get_as_dict store c :
  NoDup (map primary_tweet_id store) ->
  In c store ->
  dict_get (primary_tweet_id c) (as_dict store) = Some c.
Proof.
  intros Hnd Hin. apply dict_In_get.
  - unfold dict_keys, as_dict. rewrite map_map. exact Hnd.
  - unfold as_dict. apply in_map_iff. eauto.
Qed.

Lemma dict_update_value {V : Type} k (f : V -> V) d v :
  dict_get k d = Some v -> In (f v) (dict_values (dict_update k f d)).
Proof.
  unfold dict_get, dict_values. induction d as [|[k' v'] d IH]; simpl; [discriminate|].
  destruct (k' =? k); simpl.
  - intros [= <-]. now left.
  - intros H. right. now apply IH.
Qed.

Lemma dict_update_length {V : Type} k (f : V -> V) (d : Dict V) :
  List.length (dict_update k f d) = List.length d.
Proof.
  induction d as [|[k' v'] d IH]; simpl; [reflexivity|].
  destruct (k' =? k); simpl; [reflexivity|]. now rewrite IH.
Qed.

(** The run when exactly one tweet [n] of the table is new and it continues
    the stored conversation [c]. *)
Lemma convert_one_reply py csv store c n :
  NoDup (map primary_tweet_id store) ->
  In c store ->
  primary_tweet_id c <> "" ->
  (forall c', In c' store -> tail_id c' = tail_id c -> c' = c) ->
  In n (clean_frame csv) ->
  ~ In (tweet_id n) (store_ids store) ->
  (forall t, In t (clean_frame csv) -> tweet_id t <> tweet_id n ->
             In (tweet_id t) (store_ids store)) ->
  find_conversation_root (recursion_limit py) (tweet_id n) (clean_frame csv)
  = Ok (Some (tail_id c)) ->
  convert_twitter_csv_to_json py csv store
  = Ok (map (finalize_existing py (clean_frame csv))
            (dict_values
               (dict_update (primary_tweet_id c)
                  (fun c0 => set_processed false (append_entry n c0))
                  (as_dict store)))).
Proof.
  intros Hkeys Hc Hprim Huniq Hn Hnew Hold Hroot.
  pose proof (clean_frame_NoDup csv) as Hnd.
  assert (Hmatch : matching_conversation (as_dict store) (Some (tail_id c))
                   = Some (primary_tweet_id c)) by now apply matching_as_dict.
  assert (Htruthy : truthy (primary_tweet_id c) = true).
  { unfold truthy. apply negb_true_iff. now apply String.eqb_neq. }
  assert (HX : mem (tweet_id n) (snd (load_existing store)) = false).
  { apply mem_false. now rewrite load_existing_ids. }
  assert (Hseen : forall t, In t (clean_frame csv) -> tweet_id t <> tweet_id n ->
                            mem (tweet_id t) (snd (load_existing store)) = true).
  { intros t Ht Hne. apply mem_In. apply load_existing_ids. now apply Hold. }
  unfold convert_twitter_csv_to_json. cbv zeta.
  rewrite (load_existing_distinct store Hkeys).
  rewrite identify_roots_none.
  2:{ intros t Ht. destruct (string_dec (tweet_id t) (tweet_id n)) as [Heq|Hne].
      - right. exists (Some (tail_id c)). rewrite Heq. split; [exact Hroot|].
        right. rewrite Hmatch. exact Htruthy.
      - left. now apply Hseen. }
  simpl.
  destruct (in_split _ _ Hn) as [pre [post Hsplit]].
  assert (Hpre : forall t, In t pre -> tweet_id t <> tweet_id n).
  { intros t Ht Heq. rewrite Hsplit, map_app in Hnd. simpl in Hnd.
    apply NoDup_remove_2 in Hnd. apply Hnd. apply in_app_iff. left.
    rewrite <- Heq. now apply in_map. }
  assert (Hpost : forall t, In t post -> tweet_id t <> tweet_id n).
  { intros t Ht Heq. rewrite Hsplit, map_app in Hnd. simpl in Hnd.
    apply NoDup_remove_2 in Hnd. apply Hnd. apply in_app_iff. right.
    rewrite <- Heq. now apply in_map. }
  assert (Hin : forall t, In t pre \/ In t post -> In t (clean_frame csv)).
  { intros t Ht. rewrite Hsplit. apply in_app_iff. simpl. tauto. }
  rewrite Hsplit at 2. rewrite for_each_app. rewrite for_each_skip.
  2:{ intros t Ht. apply build_thread_skip. left. simpl. apply Hseen; auto. }
  simpl.
  assert (Hstep : build_thread py (clean_frame csv)
                    {| existing_convo := as_dict store;
                       existing_tweet_ids := snd (load_existing store);
                       new_convo := [] |} n
                  = Ok {| existing_convo :=
                            dict_update (primary_tweet_id c)
                              (fun c0 => set_processed false (append_entry n c0))
                              (as_dict store);
                          existing_tweet_ids := set_add (tweet_id n) (snd (load_existing store));
                          new_convo := [] |}).
  { unfold build_thread. simpl. rewrite HX, Hroot. unfold bind. cbv zeta.
    rewrite Hmatch. simpl. rewrite Htruthy.
    unfold attach_existing. simpl. rewrite (dict_get_as_dict store c Hkeys Hc).
    assert (Hh : mem (tweet_id n) (history_ids (chat_history c)) = false).
    { apply mem_false. intros Hc'. apply Hnew. unfold store_ids.
      apply in_flat_map. eauto. }
    rewrite Hh. reflexivity. }
  rewrite Hstep. simpl. rewrite for_each_skip.
  - simpl. rewrite app_nil_r. reflexivity.
  - intros t Ht. apply build_thread_skip. left. simpl.
    apply mem_In. apply set_add_In. right. apply mem_In. apply Hseen; auto.
Qed.

(** X16.  What the continuation branch does when its test succeeds.  The
    store has distinct root ids and holds a settled conversation [c] with a
    non-empty root id, the only one with its tail id.  The table holds
    exactly one tweet [n] that is not stored yet, and
    [find_conversation_root] resolves it to a root that equals the tail id
    of [c].  Then the run returns as many records as the store has; the
    record of [c] comes back unprocessed, its history one entry longer and
    holding [n], and its tail id is the last id of the history re-sorted by
    stamp: the id of [n] when no stored message of [c] is stamped later
    than [n]. *)
Theorem reply_to_tail_reopens_the_conversation :
  forall (py : Interp) (csv : list RawRow) (store : list Conversation)
         (c : Conversation) (n : Row),
    NoDup (map primary_tweet_id store) ->
    In c store ->
    processed c = Some true ->
    primary_tweet_id c <> "" ->
    (forall c', In c' store -> tail_id c' = tail_id c -> c' = c) ->
    In n (clean_frame csv) ->
    ~ In (tweet_id n) (store_ids store) ->
    (forall t, In t (clean_frame csv) -> tweet_id t <> tweet_id n ->
               In (tweet_id t) (store_ids store)) ->
    find_conversation_root (recursion_limit py) (tweet_id n) (clean_frame csv)
    = Ok (Some (tail_id c)) ->
    exists result c',
      convert_twitter_csv_to_json py csv store = Ok result
      /\ List.length result = List.length store
      /\ In c' (filter is_unprocessed result)
      /\ primary_tweet_id c' = primary_tweet_id c
      /\ List.length (chat_history c') = S (List.length (chat_history c))
      /\ In (tweet_id n) (history_ids (chat_history c'))
      /\ tail_id c'
         = last (history_ids (sort_chat_history (chat_history c ++ [message_entry n])))
                (tail_id c)
      /\ (not_earlier n (chat_history c) -> tail_id c' = tweet_id n).
Proof.
  intros py csv store c n Hkeys Hc Hsettled Hprim Huniq Hn Hnew Hold Hroot.
  eexists. exists (finalize_existing py (clean_frame csv)
                     (set_processed false (append_entry n c))).
  split; [apply (convert_one_reply py csv store c n); assumption|].
  split; [|split; [|split; [|split; [|split; [|split]]]]].
  - unfold dict_values, as_dict. rewrite !length_map, dict_update_length, length_map.
    reflexivity.
  - apply filter_In. split; [|reflexivity].
    apply in_map.
    apply (dict_update_value (primary_tweet_id c)
             (fun c0 => set_processed false (append_entry n c0)) (as_dict store) c).
    now apply dict_get_as_dict.
  - reflexivity.
  - simpl. rewrite length_map.
    rewrite (Permutation_length (sort_chat_history_perm _)), length_app. simpl. lia.
  - apply (Permutation_in _ (Permutation_sym (finalize_existing_ids _ _ _))).
    simpl. unfold history_ids. rewrite map_app. apply in_app_iff. right. now left.
  - reflexivity.
  - intros Hle. simpl. destruct (sort_chat_history_last n _ Hle) as [sorted ->].
    unfold history_ids. rewrite map_app. simpl. apply last_last.
Qed.

Lemma reply_to_tail_witness :
  exists result c',
    convert_twitter_csv_to_json cpython late_reply [settled_root] = Ok result
    /\ List.length result = List.length [settled_root]
    /\ In c' (filter is_unprocessed result)
    /\ primary_tweet_id c' = primary_tweet_id settled_root
    /\ List.length (chat_history c') = S (List.length (chat_history settled_root))
    /\ In (tweet_id reply_row) (history_ids (chat_history c'))
    /\ tail_id c'
       = last (history_ids
                 (sort_chat_history (chat_history settled_root ++ [message_entry reply_row])))
              (tail_id settled_root)
    /\ (not_earlier reply_row (chat_history settled_root) -> tail_id c' = tweet_id reply_row).
Proof.
  apply (reply_to_tail_reopens_the_conversation cpython late_reply [settled_root]
           settled_root reply_row).
  - repeat constructor. simpl. tauto.
  - left. reflexivity.
  - reflexivity.
  - discriminate.
  - intros c' [<-|[]] _. reflexivity.
  - vm_compute. right. left. reflexivity.
  - vm_compute. intros [H|[]]. discriminate.
  - intros t Ht Hne. vm_compute in Ht. destruct Ht as [<-|[<-|[]]].
    + vm_compute. left. reflexivity.
    + exfalso. apply Hne. reflexivity.
  - vm_compute. reflexivity.
Defined.

Example late_reply_becomes_tail :
  exists c,
    convert_twitter_csv_to_json cpython late_reply [settled_root] = Ok [c]
    /\ processed c = Some false
    /\ history_ids (chat_history c) = ["1"; "2"]
    /\ tail_id c = "2".
Proof. eexists. split; [vm_compute; reflexivity|]. repeat split. Qed.

(** ** More concrete runs *)

Example customer_x_is_mostly_negative :
  calculate_customer_patterns customer_x
  = [("X", {| pattern_sentiment := "Negative";
              pattern_support_type := "Technical Issue (Simple / Minor)" |})].
Proof. reflexivity. Qed.

(** A tie goes to the value met first. *)
Example tie_goes_to_the_first :
  most_common_or "Neutral" (Counter ["Positive"; "Negative"; "Negative"; "Positive"])
  = "Positive".
Proof. reflexivity. Qed.

Example collaborator_down_sample :
  exists run,
    tag_conversations (Some "key") llm_down (ingest_all cpython [batch12]) [] = Ok run
    /\ map (fun c => (nature_of_support (tags c), sentiment (tags c), resolved (tags c)))
           (tagged run)
       = [(Some "Technical Issue (Simple / Minor)", Some "Neutral", Some false)].
Proof. eexists. split; reflexivity. Qed.

(** A second row with an id already met, in the same table or in a later
    one, is dropped; the first one stays. *)
Example repeated_id_keeps_the_first :
  map (fun c => map (fun m => (msg_tweet_id m, msg_text m)) (chat_history c))
      (ingest_all cpython
         [[tweet "1" "" "alice" true (Some 10%Z);
           {| raw_tweet_id := Str "1"; raw_author_id := "eve"; raw_inbound := FlagBool true;
              raw_created_at := Some 11%Z; raw_text := "another text";
              raw_in_response_to_tweet_id := NaN |}];
          [{| raw_tweet_id := Str " 1 "; raw_author_id := "eve"; raw_inbound := FlagBool true;
              raw_created_at := Some 12%Z; raw_text := "a third text";
              raw_in_response_to_tweet_id := NaN |}]])
  = [[("1", "text of 1")]].
Proof. vm_compute. reflexivity. Qed.

(** The tagged file, unlike the raw one, is written through a dictionary
    keyed by root id: its records have distinct root ids. *)
Lemma upsert_fold_keys l : forall d,
  NoDup (dict_keys d)
  /\ Forall (fun kv => primary_tweet_id (snd kv) = fst kv) d ->
  let d' := fold_left (fun by_id c => dict_set (primary_tweet_id c) c by_id) l d in
  NoDup (dict_keys d') /\ Forall (fun kv => primary_tweet_id (snd kv) = fst kv) d'.
Proof.
  induction l as [|c l IH]; intros d Hd; simpl; [exact Hd|].
  apply IH. destruct Hd as [Hnd HF]. split; [now apply dict_keys_set_NoDup|].
  apply Forall_forall. intros kv Hkv. apply dict_set_In in Hkv.
  destruct Hkv as [->|Hkv]; [reflexivity|].
  rewrite Forall_forall in HF. now apply HF.
Qed.

Lemma upsert_by_id_distinct existing unprocessed :
  NoDup (map primary_tweet_id (upsert_by_id existing unprocessed)).
Proof.
  unfold upsert_by_id.
  destruct (upsert_fold_keys (existing ++ unprocessed) []) as [Hnd HF];
    [split; constructor|].
  unfold dict_values. rewrite map_map.
  erewrite map_ext_in; [exact Hnd|].
  intros kv Hkv. rewrite Forall_forall in HF. now apply HF.
Qed.

(** * Further properties *)

(** ** Root resolution *)

Lemma rows_with_id_reordered x df df' :
  NoDup (map tweet_id df) -> Permutation df df' ->
  rows_with_id x df = rows_with_id x df'.
Proof.
  intros Hnd Hperm.
  assert (Hnd' : NoDup (map tweet_id df')).
  { eapply Permutation_NoDup; [apply Permutation_map; exact Hperm|exact Hnd]. }
  destruct (rows_with_id x df) as [r|] eqn:E.
  - apply rows_with_id_some in E. destruct E as [Hin <-].
    symmetry. apply rows_with_id_in; [exact Hnd'|].
    eapply Permutation_in; eassumption.
  - symmetry. apply rows_with_id_none. apply rows_with_id_none in E.
    intros Hc. apply E. eapply Permutation_in; [|exact Hc].
    apply Permutation_map. now symmetry.
Qed.

(** X1.  The root a tweet resolves to does not depend on the order of the
    rows of a table with distinct ids. *)
Theorem root_does_not_depend_on_row_order :
  forall (depth : nat) (x : string) (df df' : list Row),
    NoDup (map tweet_id df) ->
    Permutation df df' ->
    find_conversation_root depth x df = find_conversation_root depth x df'.
Proof.
  induction depth as [|depth IH]; intros x df df' Hnd Hperm; simpl; [reflexivity|].
  rewrite (rows_with_id_reordered x df df' Hnd Hperm).
  destruct (x =? ""); [reflexivity|].
  destruct (rows_with_id x df') as [row|]; [|reflexivity].
  destruct (in_response_to_tweet_id row =? ""); [reflexivity|].
  now apply IH.
Qed.

Lemma root_does_not_depend_on_row_order_witness :
  find_conversation_root 5 "c" (clean_frame thread_up)
  = find_conversation_root 5 "c" (clean_frame thread_down).
Proof.
  apply root_does_not_depend_on_row_order.
  - apply clean_frame_NoDup.
  - vm_compute. apply Permutation_rev.
Defined.

Lemma last_below (p : Row) path : forall d, last (p :: path) d = last path p.
Proof.
  revert p. induction path as [|r path IH]; intros p d; [reflexivity|].
  change (last (p :: r :: path) d) with (last (r :: path) d).
  change (last (r :: path) p) with (last (r :: path) p).
  rewrite (IH r d), (IH r p). reflexivity.
Qed.

(** X2.  A tweet at the bottom of a path of [k] parent references resolves
    to the root at the top of the path when more than [k] nested calls are
    allowed, and raises [RecursionError] otherwise. *)
Theorem thread_resolves_to_its_root_within_the_stack :
  forall (df : list Row) (path : list Row) (t : Row) (depth : nat),
    NoDup (map tweet_id df) ->
    (forall r, In r (t :: path) -> In r df /\ tweet_id r <> "") ->
    climbs (t :: path) ->
    find_conversation_root depth (tweet_id t) df
    = if Nat.leb depth (List.length path) then Raised RecursionError
      else Ok (Some (tweet_id (last path t))).
Proof.
  intros df path. induction path as [|p path IH]; intros t depth Hnd Hin Hclimb.
  - destruct depth as [|depth]; [reflexivity|]. simpl in *.
    destruct (Hin t (or_introl eq_refl)) as [Ht Hid].
    apply String.eqb_neq in Hid. rewrite Hid.
    rewrite (rows_with_id_in df t Hnd Ht), Hclimb. reflexivity.
  - destruct depth as [|depth]; [reflexivity|].
    destruct Hclimb as [Hparent Hclimb].
    destruct (Hin t (or_introl eq_refl)) as [Ht Hid].
    destruct (Hin p (or_intror (or_introl eq_refl))) as [_ Hpid].
    cbn [find_conversation_root].
    apply String.eqb_neq in Hid. rewrite Hid.
    rewrite (rows_with_id_in df t Hnd Ht), Hparent.
    apply String.eqb_neq in Hpid. rewrite Hpid.
    rewrite (IH p depth Hnd); [|intros r Hr; apply Hin; now right|exact Hclimb].
    change (List.length (p :: path)) with (S (List.length path)).
    change (Nat.leb (S depth) (S (List.length path)))
      with (Nat.leb depth (List.length path)).
    destruct (Nat.leb depth (List.length path)); [reflexivity|].
    rewrite last_below. reflexivity.
Qed.

Lemma thread_resolves_witness :
  find_conversation_root 5 "c" (clean_frame thread_down)
  = if Nat.leb 5 2 then Raised RecursionError else Ok (Some "a").
Proof.
  apply (thread_resolves_to_its_root_within_the_stack
           (clean_frame thread_down)
           [clean_row (tweet "b" "a" "acme" false (Some 2%Z));
            clean_row (tweet "a" "" "alice" true (Some 1%Z))]
           (clean_row (tweet "c" "b" "alice" true (Some 3%Z))) 5).
  - apply clean_frame_NoDup.
  - intros r Hr. split.
    + vm_compute. vm_compute in Hr. tauto.
    + destruct Hr as [<-|[<-|[<-|[]]]]; vm_compute; discriminate.
  - vm_compute. auto.
Defined.

Lemma find_conversation_root_raises depth x df e :
  find_conversation_root depth x df = Raised e -> e = RecursionError.
Proof.
  revert x. induction depth as [|depth IH]; intros x; simpl; [congruence|].
  destruct (x =? ""); [discriminate|].
  destruct (rows_with_id x df) as [row|]; [|discriminate].
  destruct (in_response_to_tweet_id row =? ""); [discriminate|]. apply IH.
Qed.

Lemma trapped_never_resolves df ids :
  trapped df ids ->
  forall depth x, In x ids -> find_conversation_root depth x df = Raised RecursionError.
Proof.
  intros Htrap. induction depth as [|depth IH]; intros x Hx; simpl; [reflexivity|].
  destruct (Htrap x Hx) as [Hne [row [Hrow [Hp Hin]]]].
  apply String.eqb_neq in Hne. rewrite Hne, Hrow.
  apply String.eqb_neq in Hp. rewrite Hp. now apply IH.
Qed.

Lemma for_each_raises {S A : Type} (body : S -> A -> result S) (e : exn) l x :
  (forall s y e', body s y = Raised e' -> e' = e) ->
  In x l ->
  (forall s, body s x = Raised e) ->
  forall s, for_each body l s = Raised e.
Proof.
  intros Honly. induction l as [|y l IH]; intros Hin Hx s; [contradiction|].
  simpl. destruct (body s y) as [s1|e'] eqn:E; simpl.
  - destruct Hin as [->|Hin]; [rewrite Hx in E; discriminate|]. now apply IH.
  - f_equal. eapply Honly. exact E.
Qed.

(** X3.  There is no guard against cycles: when a tweet that is not stored
    yet lies in a set of ids that parent references never leave, root
    resolution exhausts any stack and the whole run raises
    [RecursionError]. *)
Theorem cyclic_thread_aborts_the_run :
  forall (py : Interp) (csv : list RawRow) (store : list Conversation)
         (ids : list string) (t : Row),
    trapped (clean_frame csv) ids ->
    In t (clean_frame csv) ->
    In (tweet_id t) ids ->
    ~ In (tweet_id t) (store_ids store) ->
    convert_twitter_csv_to_json py csv store = Raised RecursionError
    /\ ingest py store csv = store.
Proof.
  intros py csv store ids t Htrap Ht Hid Hnew.
  assert (H : convert_twitter_csv_to_json py csv store = Raised RecursionError).
  { unfold convert_twitter_csv_to_json. cbv zeta.
    rewrite (for_each_raises _ RecursionError (clean_frame csv) t); [reflexivity| |exact Ht|].
    - intros s y e'. unfold identify_root.
      destruct (mem (tweet_id y) (snd (load_existing store))); [discriminate|].
      destruct (find_conversation_root _ _ _) as [root|e0] eqn:E; simpl.
      + destruct (truthy_opt root); [|discriminate].
        destruct (truthy_opt (matching_conversation _ root)); [discriminate|].
        destruct root as [r|]; [|discriminate].
        destruct (dict_mem r s); [discriminate|].
        destruct (rows_with_id r (clean_frame csv)); discriminate.
      + intros [= <-]. eapply find_conversation_root_raises. exact E.
    - intros s. unfold identify_root.
      assert (HX : mem (tweet_id t) (snd (load_existing store)) = false).
      { apply mem_false. now rewrite load_existing_ids. }
      rewrite HX, (trapped_never_resolves _ _ Htrap _ _ Hid). reflexivity. }
  split; [exact H|]. unfold ingest. rewrite H. reflexivity.
Qed.

Lemma cyclic_thread_witness :
  convert_twitter_csv_to_json cpython self_reply [settled_root] = Raised RecursionError
  /\ ingest cpython [settled_root] self_reply = [settled_root].
Proof.
  apply (cyclic_thread_aborts_the_run cpython self_reply [settled_root] ["5"]
           (clean_row (tweet "5" "5" "bob" true (Some 1%Z)))).
  - intros x [<-|[]]. split; [discriminate|].
    eexists. split; [vm_compute; reflexivity|]. split; [vm_compute; discriminate|].
    vm_compute. auto.
  - vm_compute. auto.
  - vm_compute. auto.
  - vm_compute. intros [H|[]]. discriminate.
Defined.

(** ** What a run returns *)

Lemma key_sorted_del keyed : key_sorted keyed -> key_sorted (map del_keyed keyed).
Proof.
  induction keyed as [|x keyed IH]; simpl; [trivial|].
  intros [Hx Hrest]. split; [|now apply IH].
  destruct keyed as [|y keyed]; simpl; [trivial|exact Hx].
Qed.

Lemma sorted_history_keys h keyed :
  sort_keys (map del_customer_id (sort_chat_history h)) = Some keyed -> key_sorted keyed.
Proof.
  rewrite sort_keys_del.
  destruct (sort_keys (sort_chat_history h)) as [k|] eqn:E; [|discriminate].
  intros [= <-]. apply key_sorted_del.
  unfold sort_chat_history in E. destruct (sort_keys h) as [k0|] eqn:E0.
  - rewrite sort_keys_of_keyed in E.
    + injection E as <-. apply sort_by_key_sorted.
    + eapply Permutation_Forall; [symmetry; apply sort_by_key_perm|].
      eapply sort_keys_keyed. exact E0.
  - congruence.
Qed.

Lemma returned_shape py csv store result c :
  convert_twitter_csv_to_json py csv store = Ok result ->
  In c result ->
  exists h d,
    chat_history c = map del_customer_id (sort_chat_history h)
    /\ tail_id c = last (history_ids (sort_chat_history h)) d.
Proof.
  intros H Hc. destruct (convert_steps _ _ _ _ H) as [roots [st [_ [_ ->]]]].
  apply in_app_iff in Hc. destruct Hc as [Hc|Hc];
    apply in_map_iff in Hc; destruct Hc as [c0 [<- _]]; simpl; eauto.
Qed.

(** X4.  Every conversation a run returns is finalized: its tail id is the
    id of the last entry of its history, no entry carries the transient
    customer id, and when all stamps of the history parse they are in
    nondecreasing order. *)
Theorem every_returned_conversation_is_finalized :
  forall (py : Interp) (csv : list RawRow) (store result : list Conversation)
         (c : Conversation),
    convert_twitter_csv_to_json py csv store = Ok result ->
    In c result ->
    (forall h m, chat_history c = h ++ [m] -> tail_id c = msg_tweet_id m)
    /\ Forall (fun m => msg_customer_id m = None) (chat_history c)
    /\ (forall keyed, sort_keys (chat_history c) = Some keyed -> key_sorted keyed).
Proof.
  intros py csv store result c H Hc.
  destruct (returned_shape _ _ _ _ _ H Hc) as [h0 [d [Hh Ht]]].
  split; [|split].
  - intros h m Hm. rewrite Ht, <- history_ids_del, <- Hh, Hm.
    unfold history_ids. rewrite map_app. simpl. apply last_last.
  - rewrite Hh. apply Forall_forall. intros m Hm.
    apply in_map_iff in Hm. destruct Hm as [m0 [<- _]]. reflexivity.
  - intros keyed Hk. rewrite Hh in Hk. eapply sorted_history_keys. exact Hk.
Qed.

Lemma every_returned_conversation_witness :
  let c := hd settled_root (ingest_all cpython [batch123]) in
  (forall h m, chat_history c = h ++ [m] -> tail_id c = msg_tweet_id m)
  /\ Forall (fun m => msg_customer_id m = None) (chat_history c)
  /\ (forall keyed, sort_keys (chat_history c) = Some keyed -> key_sorted keyed).
Proof.
  apply (every_returned_conversation_is_finalized cpython batch123 []
           (ingest_all cpython [batch123])).
  - vm_compute. reflexivity.
  - vm_compute. left. reflexivity.
Defined.

(** X5.  A table that holds no tweet beyond those already stored, an empty
    table included, makes the run return the stored records, each one
    re-finalized, and nothing else; root resolution is never called, so this
    holds whatever the stack limit and whatever cycles the table has. *)
Theorem table_without_new_tweets_creates_nothing :
  forall (py : Interp) (csv : list RawRow) (store : list Conversation),
    NoDup (map primary_tweet_id store) ->
    (forall t, In t (clean_frame csv) -> In (tweet_id t) (store_ids store)) ->
    convert_twitter_csv_to_json py csv store
    = Ok (map (finalize_existing py (clean_frame csv)) store).
Proof.
  intros py csv store Hkeys Hseen.
  assert (HX : forall t, In t (clean_frame csv) ->
                         mem (tweet_id t) (snd (load_existing store)) = true).
  { intros t Ht. apply mem_In. apply load_existing_ids. now apply Hseen. }
  unfold convert_twitter_csv_to_json. cbv zeta.
  rewrite identify_roots_none by (intros t Ht; left; now apply HX).
  simpl. rewrite for_each_skip.
  - simpl. rewrite app_nil_r, load_existing_distinct, as_dict_values by exact Hkeys.
    reflexivity.
  - intros t Ht. apply build_thread_skip. left. simpl. now apply HX.
Qed.

Lemma table_without_new_tweets_witness :
  convert_twitter_csv_to_json {| recursion_limit := 0; set_first := hd "" |}
                              batch12 (ingest_all cpython [batch123])
  = Ok (map (finalize_existing {| recursion_limit := 0; set_first := hd "" |}
                               (clean_frame batch12))
            (ingest_all cpython [batch123])).
Proof.
  apply table_without_new_tweets_creates_nothing.
  - vm_compute. repeat constructor. simpl. tauto.
  - intros t Ht. vm_compute in Ht. destruct Ht as [<-|[<-|[]]]; vm_compute; tauto.
Defined.

Lemma grown_refl c : grown c c.
Proof.
  unfold grown. repeat split. exists []. rewrite app_nil_r. auto.
Qed.

Lemma grown_attach c c' t :
  grown c c' -> grown c (set_processed false (append_entry t c')).
Proof.
  intros [H1 [H2 [H3 [extra [Hh _]]]]]. unfold grown. simpl.
  repeat split; try assumption.
  exists (extra ++ [message_entry t]). split; [rewrite Hh, app_assoc; reflexivity|].
  right. split; [|reflexivity]. destruct extra; discriminate.
Qed.

Lemma dict_update_grown k t (E0 E : Dict Conversation) :
  Forall2 (fun kv kv' => fst kv' = fst kv /\ grown (snd kv) (snd kv')) E0 E ->
  Forall2 (fun kv kv' => fst kv' = fst kv /\ grown (snd kv) (snd kv')) E0
          (dict_update k (fun c => set_processed false (append_entry t c)) E).
Proof.
  induction 1 as [|kv0 [k' v'] E0 E [Hk Hg] HF IH]; simpl; [constructor|].
  destruct (k' =? k); constructor; auto.
  simpl in *. split; [exact Hk|]. now apply grown_attach.
Qed.

Lemma build_thread_grown py df E0 st t st' :
  build_thread py df st t = Ok st' ->
  Forall2 (fun kv kv' => fst kv' = fst kv /\ grown (snd kv) (snd kv')) E0 (existing_convo st) ->
  Forall2 (fun kv kv' => fst kv' = fst kv /\ grown (snd kv) (snd kv')) E0 (existing_convo st').
Proof.
  intros H HF. unfold build_thread in H.
  destruct (mem (tweet_id t) (existing_tweet_ids st)); [injection H as <-; exact HF|].
  destruct (find_conversation_root (recursion_limit py) (tweet_id t) df) as [root|e];
    simpl in H; [|discriminate].
  destruct (truthy_opt (matching_conversation (existing_convo st) root)).
  - destruct (matching_conversation (existing_convo st) root) as [conv_id|];
      injection H as <-; [|exact HF].
    unfold attach_existing.
    destruct (dict_get conv_id (existing_convo st)) as [c|]; [|exact HF].
    destruct (mem (tweet_id t) (history_ids (chat_history c))); [exact HF|].
    simpl. now apply dict_update_grown.
  - destruct root as [r|]; [|injection H as <-; exact HF].
    destruct (truthy r && dict_mem r (new_convo st)); injection H as <-; [|exact HF].
    unfold attach_new.
    destruct (dict_get r (new_convo st)) as [c|]; [|exact HF].
    destruct (mem (tweet_id t) (history_ids (chat_history c))); exact HF.
Qed.

Lemma grown_finalized py df c c' :
  grown c c' -> carried c (finalize_existing py df c').
Proof.
  intros [H1 [H2 [H3 [extra [Hh Hp]]]]]. unfold carried. simpl.
  split; [exact H1|]. split; [exact H2|]. split; [exact H3|]. split.
  - intros x Hx. rewrite history_ids_del.
    apply (Permutation_in x
             (Permutation_sym (Permutation_map msg_tweet_id (sort_chat_history_perm _)))).
    rewrite Hh. unfold history_ids. rewrite map_app. apply in_app_iff. now left.
  - rewrite length_map, (Permutation_length (sort_chat_history_perm _)), Hh, length_app.
    destruct Hp as [[-> Hp]|[Hne Hp]].
    + left. simpl. split; [lia|exact Hp].
    + right. split; [|exact Hp]. destruct extra; [congruence|simpl; lia].
Qed.

(** X6.  A run on a store with distinct root ids returns the stored
    conversations first, in their order, then the ones it opened.  A stored
    conversation keeps its root, root text, tags and all its messages; its
    flag is the stored one unless messages were attached, in which case it
    is unprocessed.  An opened conversation is unprocessed and untagged. *)
Theorem stored_conversations_are_carried_over :
  forall (py : Interp) (csv : list RawRow) (store result : list Conversation),
    NoDup (map primary_tweet_id store) ->
    convert_twitter_csv_to_json py csv store = Ok result ->
    exists kept opened,
      result = kept ++ opened
      /\ Forall2 carried store kept
      /\ Forall (fun c => processed c = Some false /\ tags c = no_tags) opened.
Proof.
  intros py csv store result Hkeys H.
  destruct (convert_steps _ _ _ _ H) as [roots [st [Hroots [Hst ->]]]].
  rewrite (load_existing_distinct store Hkeys) in Hst.
  eexists. eexists. split; [reflexivity|]. split.
  - assert (HF : Forall2 (fun kv kv' => fst kv' = fst kv /\ grown (snd kv) (snd kv'))
                         (as_dict store) (existing_convo st)).
    { apply (for_each_inv (build_thread py (clean_frame csv))
               (fun s => Forall2 (fun kv kv' => fst kv' = fst kv /\ grown (snd kv) (snd kv'))
                                 (as_dict store) (existing_convo s))
               (clean_frame csv)) with (3 := Hst).
      - intros s x s' _ Hs Hstep. eapply build_thread_grown; eassumption.
      - simpl. clear. induction store as [|c store IH]; simpl; constructor; [|exact IH].
        split; [reflexivity|apply grown_refl]. }
    clear Hst Hroots H. revert HF. generalize (existing_convo st). clear.
    induction store as [|c store IH]; intros E HF; inversion HF; subst; simpl;
      constructor.
    + apply grown_finalized. simpl in *. tauto.
    + now apply IH.
  - destruct (identify_roots_opened _ _ _ _ _ _ _ Hroots) as [_ Hop];
      [split; constructor|].
    destruct (build_threads_entries (fun _ _ => True)
                (fun _ c => processed c = Some false /\ tags c = no_tags)
                _ _ _ _ _ (fun _ _ _ H0 => H0) (fun _ _ _ H0 => H0) Hst) as [_ HN].
    { simpl. split.
      - apply Forall_forall. trivial.
      - eapply Forall_impl; [|exact Hop].
        intros [k c] [row [_ [_ Hc]]]. simpl in *. subst c. split; reflexivity. }
    apply Forall_forall. intros c Hc. apply in_map_iff in Hc.
    destruct Hc as [c0 [<- Hc0]]. apply in_map_iff in Hc0. destruct Hc0 as [kv [<- Hkv]].
    rewrite Forall_forall in HN. apply (HN kv Hkv).
Qed.

Lemma stored_conversations_witness :
  exists kept opened,
    ingest_all cpython [batch12; batch123] = kept ++ opened
    /\ Forall2 carried (ingest_all cpython [batch12]) kept
    /\ Forall (fun c => processed c = Some false /\ tags c = no_tags) opened.
Proof.
  apply (stored_conversations_are_carried_over cpython batch123
           (ingest_all cpython [batch12])).
  - vm_compute. repeat constructor. simpl. tauto.
  - vm_compute. reflexivity.
Defined.

(** ** Settling conversations *)

Lemma set_processed_true_fixed c :
  is_unprocessed c = false -> set_processed true c = c.
Proof.
  unfold is_unprocessed. destruct c as [a b t cu co h [[|]|] tg]; simpl;
    try discriminate. reflexivity.
Qed.

Lemma nothing_unprocessed l :
  filter is_unprocessed l = [] -> map (set_processed true) l = l.
Proof.
  induction l as [|c l IH]; simpl; [reflexivity|].
  destruct (is_unprocessed c) eqn:E; [discriminate|].
  intros H. rewrite (set_processed_true_fixed c E), (IH H). reflexivity.
Qed.

Lemma settled_has_nothing_unprocessed l :
  filter is_unprocessed (map (set_processed true) l) = [].
Proof.
  induction l as [|c l IH]; simpl; [reflexivity|exact IH].
Qed.

Lemma mark_all_unprocessed (mark : Conversation -> Conversation) l :
  (forall c, In c l -> is_unprocessed c = true -> mark c = set_processed true c) ->
  (forall c, In c l -> is_unprocessed c = false -> mark c = c \/ mark c = set_processed true c) ->
  map mark l = map (set_processed true) l.
Proof.
  intros Hu Hp. apply map_ext_in. intros c Hc.
  destruct (is_unprocessed c) eqn:E; [now apply Hu|].
  destruct (Hp c Hc E) as [H|H]; [|exact H].
  rewrite H. symmetry. now apply set_processed_true_fixed.
Qed.

Lemma tagged_ids_spec api_key llm l tagged0 :
  Forall2 (tagged_from api_key llm) l tagged0 ->
  map primary_tweet_id tagged0 = map primary_tweet_id l.
Proof.
  induction 1 as [|c c' l l' H _ IH]; simpl; [reflexivity|].
  rewrite IH, (tf_same_id _ _ _ _ H). reflexivity.
Qed.

(** The three components of a tagging run. *)
Lemma tag_conversations_files api_key llm conversations existing :
  exists run,
    tag_conversations api_key llm conversations existing = Ok run
    /\ Forall2 (tagged_from api_key llm) (filter is_unprocessed conversations) (tagged run)
    /\ raw_file run = map (set_processed true) conversations
    /\ tagged_file run = match tagged run with
                         | [] => existing
                         | _ :: _ => upsert_by_id existing (tagged run)
                         end
    /\ Forall (fun c => processed c = Some false) (tagged run).
Proof.
  destruct (tag_conversations_spec api_key llm conversations existing) as [run [Hrun HF]].
  exists run. split; [exact Hrun|]. split; [exact HF|].
  pose proof (tagged_ids_spec _ _ _ _ HF) as Hids.
  unfold tag_conversations in Hrun.
  destruct (filter is_unprocessed conversations) as [|c0 rest] eqn:Hu.
  - injection Hrun as <-. simpl. split; [|split; [reflexivity|constructor]].
    symmetry. now apply nothing_unprocessed.
  - destruct (map_each (tag_one api_key llm) (c0 :: rest)) as [tagged0|e];
      simpl in Hrun; [|discriminate].
    injection Hrun as <-. cbn [tagged raw_file tagged_file] in *. split; [|split].
    + apply mark_all_unprocessed.
      * intros c Hc Huc. unfold mark_tagged.
        assert (Hm : mem (primary_tweet_id c)
                         (map primary_tweet_id
                            (map (set_processed false)
                               (map (add_patterns (calculate_customer_patterns tagged0))
                                    tagged0))) = true).
        { apply mem_In.
          assert (Hin : In (primary_tweet_id c) (map primary_tweet_id (c0 :: rest))).
          { rewrite <- Hu. apply in_map. apply filter_In. auto. }
          rewrite <- Hids in Hin. exact Hin. }
        rewrite Hm. reflexivity.
      * intros c _ _. unfold mark_tagged.
        destruct (mem (primary_tweet_id c) _); auto.
    + inversion HF as [|? c1 ? l1 _ _ E1 E2]; subst.
      destruct tagged0 as [|t0 tagged0]; [discriminate|]. reflexivity.
    + apply Forall_forall. intros c Hc. apply in_map_iff in Hc.
      destruct Hc as [c1 [<- _]]. reflexivity.
Qed.

(** X7.  A tagging run settles the raw file: whatever the collaborator
    does, afterwards every conversation of the raw file is marked processed
    and nothing else in it has changed, so a second tagging run on it tags
    nothing and leaves both files as they are. *)
Theorem tagging_settles_the_raw_file :
  forall (api_key : option string) (llm : Collaborator)
         (conversations existing : list Conversation),
  exists run,
    tag_conversations api_key llm conversations existing = Ok run
    /\ raw_file run = map (set_processed true) conversations
    /\ (forall api_key' llm' existing',
          tag_conversations api_key' llm' (raw_file run) existing'
          = Ok {| tagged := []; tagged_file := existing'; raw_file := raw_file run |}).
Proof.
  intros api_key llm conversations existing.
  destruct (tag_conversations_files api_key llm conversations existing)
    as [run [Hrun [_ [Hraw _]]]].
  exists run. split; [exact Hrun|]. split; [exact Hraw|].
  intros api_key' llm' existing'. unfold tag_conversations.
  rewrite Hraw, settled_has_nothing_unprocessed. reflexivity.
Qed.

Lemma dict_set_In_distinct {V : Type} k (v : V) d k0 v0 :
  NoDup (dict_keys d) ->
  In (k0, v0) (dict_set k v d) ->
  (k0 = k /\ v0 = v) \/ (k0 <> k /\ In (k0, v0) d).
Proof.
  induction d as [|[k' v'] d IH]; simpl; intros Hnd.
  - intros [[= <- <-]|[]]. now left.
  - apply NoDup_cons_iff in Hnd. destruct Hnd as [Hnot Hnd].
    destruct (String.eqb_spec k' k) as [->|Hne]; simpl.
    + intros [[= <- <-]|Hin]; [now left|]. right. split; [|now right].
      intros ->. apply Hnot. apply in_map_iff. exists (k, v0). auto.
    + intros [[= <- <-]|Hin]; [right; split; [exact Hne|now left]|].
      destruct (IH Hnd Hin) as [H|[H1 H2]]; [now left|]. right. auto.
Qed.

Lemma upsert_fold_In l : forall d k c,
  NoDup (dict_keys d) ->
  In (k, c) (fold_left (fun by_id c0 => dict_set (primary_tweet_id c0) c0 by_id) l d) ->
  (In c l /\ primary_tweet_id c = k)
  \/ (In (k, c) d /\ ~ In k (map primary_tweet_id l)).
Proof.
  induction l as [|x l IH]; intros d k c Hnd; simpl; [auto|].
  intros Hin. destruct (IH _ k c (dict_keys_set_NoDup _ x d Hnd) Hin) as [[H1 H2]|[H1 H2]].
  - left. auto.
  - destruct (dict_set_In_distinct _ _ _ _ _ Hnd H1) as [[-> ->]|[Hne Hd]].
    + left. auto.
    + right. split; [exact Hd|]. intros [Heq|Hc]; [congruence|contradiction].
Qed.

(** X8.  The tagged file is an upsert by root id.  After a run that tagged
    something, no two of its records share a root id; each record is a
    freshly tagged one, or a record it held before whose root id was not
    tagged in this run; every tagged root id is in the file; and every
    tagged record is written unprocessed. *)
Theorem tagged_file_is_an_upsert_by_root_id :
  forall (api_key : option string) (llm : Collaborator)
         (conversations existing : list Conversation),
  exists run,
    tag_conversations api_key llm conversations existing = Ok run
    /\ (tagged run <> [] -> NoDup (map primary_tweet_id (tagged_file run)))
    /\ (forall c, In c (tagged_file run) ->
                  In c (tagged run)
                  \/ (In c existing
                      /\ ~ In (primary_tweet_id c) (map primary_tweet_id (tagged run))))
    /\ (forall c, In c (tagged run) ->
                  processed c = Some false
                  /\ In (primary_tweet_id c) (map primary_tweet_id (tagged_file run))).
Proof.
  intros api_key llm conversations existing.
  destruct (tag_conversations_files api_key llm conversations existing)
    as [run [Hrun [_ [_ [Hfile Hflags]]]]].
  exists run. split; [exact Hrun|].
  destruct (tagged run) as [|t0 rest] eqn:Ht.
  - rewrite Hfile. split; [congruence|]. split; [|intros c []].
    intros c Hc. right. auto.
  - rewrite Hfile. split; [intros _; apply upsert_by_id_distinct|]. split.
    + intros c Hc. unfold upsert_by_id, dict_values in Hc.
      apply in_map_iff in Hc. destruct Hc as [[k c'] [Heq Hkv]]. simpl in Heq. subst c'.
      rewrite fold_left_app in Hkv.
      destruct (upsert_fold_keys existing []) as [Hnd _]; [split; constructor|].
      destruct (upsert_fold_In _ _ _ _ Hnd Hkv) as [[H1 _]|[H1 H2]]; [now left|].
      right. apply load_fold_In in H1. destruct H1 as [[]|[H1 H3]].
      simpl in *. split; [exact H1|]. now rewrite <- H3.
    + intros c Hc. rewrite Forall_forall in Hflags. split; [now apply Hflags|].
      destruct (upsert_fold_keys (existing ++ t0 :: rest) []) as [Hnd HF];
        [split; constructor|].
      unfold upsert_by_id, dict_values. rewrite map_map.
      erewrite map_ext_in;
        [|intros kv Hkv; rewrite Forall_forall in HF; apply (HF kv Hkv)].
      fold (dict_keys (fold_left (fun by_id c0 => dict_set (primary_tweet_id c0) c0 by_id)
                                 (existing ++ t0 :: rest) [])).
      apply dict_mem_In. rewrite fold_left_app.
      clear Hnd HF. revert Hc.
      generalize (fold_left (fun by_id c0 => dict_set (primary_tweet_id c0) c0 by_id)
                            existing []).
      generalize (t0 :: rest). clear.
      intros l. induction l as [|x l IH]; intros d Hc; [contradiction|]. simpl.
      destruct Hc as [->|Hc]; [|now apply IH].
      assert (Hm : dict_mem (primary_tweet_id c) (dict_set (primary_tweet_id c) c d) = true).
      { apply dict_get_mem. rewrite dict_get_set_same. eauto. }
      revert Hm. generalize (dict_set (primary_tweet_id c) c d). clear.
      induction l as [|y l IH]; intros d Hm; simpl; [exact Hm|].
      apply IH. apply dict_mem_In. rewrite dict_keys_set.
      destruct (dict_mem (primary_tweet_id y) d); [now apply dict_mem_In|].
      apply in_app_iff. left. now apply dict_mem_In.
Qed.

(** ** Patterns written back by the tagging run *)

Lemma map_each_tagged api_key llm l tagged0 :
  map_each (tag_one api_key llm) l = Ok tagged0 ->
  Forall (fun c => sentiment (tags c) <> None /\ nature_of_support (tags c) <> None) tagged0.
Proof.
  revert tagged0. induction l as [|c l IH]; simpl; intros tagged0.
  - intros [= <-]. constructor.
  - destruct (tag_one_spec api_key llm c) as [c' [Hc' Hfrom]]. rewrite Hc'. simpl.
    destruct (map_each (tag_one api_key llm) l) as [ys|e]; simpl; [|discriminate].
    intros [= <-]. constructor; [|now apply IH].
    destruct Hfrom as [_ _ _ [_ Hn] [_ Hs] _]. auto.
Qed.

Lemma tag_conversations_tagged api_key llm conversations existing :
  exists run tagged0,
    tag_conversations api_key llm conversations existing = Ok run
    /\ tagged run
       = map (fun c => set_processed false
                         (add_patterns (calculate_customer_patterns tagged0) c))
             tagged0
    /\ Forall (fun c => sentiment (tags c) <> None /\ nature_of_support (tags c) <> None)
              tagged0.
Proof.
  destruct (tag_conversations_spec api_key llm conversations existing) as [run [Hrun _]].
  exists run. pose proof Hrun as Hrun0. unfold tag_conversations in Hrun.
  destruct (filter is_unprocessed conversations) as [|c0 rest].
  - injection Hrun as <-. exists []. split; [exact Hrun0|]. split; [reflexivity|constructor].
  - destruct (map_each (tag_one api_key llm) (c0 :: rest)) as [tagged0|e] eqn:E;
      simpl in Hrun; [|discriminate].
    injection Hrun as <-. exists tagged0. split; [exact Hrun0|]. split.
    + cbn [tagged]. now rewrite map_map.
    + eapply map_each_tagged. exact E.
Qed.

Lemma conversations_of_map cid (g : Conversation -> Conversation) l :
  (forall c, customer_id (g c) = customer_id c) ->
  conversations_of cid (map g l) = map g (conversations_of cid l).
Proof.
  intros Hg. unfold conversations_of. rewrite filter_map_comm.
  f_equal. apply filter_ext. intros c. unfold has_customer. now rewrite Hg.
Qed.

(** X9.  What the tagging run writes back as a customer's pattern.  A
    tagged conversation with a non-empty customer id carries the dominant
    sentiment and the dominant category of the conversations of that
    customer tagged in the same run, so all of them carry the same pair; a
    conversation without a customer id carries its own sentiment and
    category. *)
Theorem tagged_conversations_carry_their_customer_pattern :
  forall (api_key : option string) (llm : Collaborator)
         (conversations existing : list Conversation),
  exists run,
    tag_conversations api_key llm conversations existing = Ok run
    /\ (forall c cid,
          In c (tagged run) -> customer_id c = Some cid -> cid <> "" ->
          exists s k,
            most_frequent_sentiment (tags c) = Some s
            /\ most_frequent_support_type (tags c) = Some k
            /\ dominant (map get_sentiment (conversations_of cid (tagged run))) s
            /\ dominant (map get_nature_of_support (conversations_of cid (tagged run))) k)
    /\ (forall c,
          In c (tagged run) -> customer_id c = None \/ customer_id c = Some "" ->
          most_frequent_sentiment (tags c) = sentiment (tags c)
          /\ most_frequent_support_type (tags c) = nature_of_support (tags c)).
Proof.
  intros api_key llm conversations existing.
  destruct (tag_conversations_tagged api_key llm conversations existing)
    as [run [tagged0 [Hrun [Ht Htags]]]].
  exists run. split; [exact Hrun|]. rewrite Ht. split.
  - intros c cid Hc Hcid Hne. apply in_map_iff in Hc. destruct Hc as [c0 [<- Hc0]].
    simpl in Hcid.
    assert (Htruthy : truthy cid = true).
    { unfold truthy. apply negb_true_iff. now apply String.eqb_neq. }
    assert (Hmine : In c0 (conversations_of cid tagged0)).
    { apply filter_In. split; [exact Hc0|]. unfold has_customer. rewrite Hcid.
      apply String.eqb_refl. }
    rewrite (conversations_of_map cid) by reflexivity. rewrite !map_map. simpl.
    unfold add_patterns at 1 2. rewrite Hcid, Htruthy.
    rewrite calculate_customer_patterns_get, Htruthy.
    destruct (conversations_of cid tagged0) as [|m mine] eqn:E; [contradiction|].
    simpl. eexists. eexists. split; [reflexivity|]. split; [reflexivity|].
    split.
    + apply (most_common_dominant default_sentiment (map get_sentiment (m :: mine))).
      discriminate.
    + apply (most_common_dominant default_support_nature
               (map get_nature_of_support (m :: mine))).
      discriminate.
  - intros c Hc Hcid. apply in_map_iff in Hc. destruct Hc as [c0 [<- Hc0]].
    rewrite Forall_forall in Htags. destruct (Htags c0 Hc0) as [Hs Hn].
    simpl in *. unfold get_sentiment, get_nature_of_support.
    destruct (sentiment (tags c0)); [|congruence].
    destruct (nature_of_support (tags c0)); [|congruence].
    destruct Hcid as [->| ->]; simpl; auto.
Qed.

(** ** The recommendation run settles the tagged file *)

Lemma recommend_from_length self clock waiting :
  forall k, List.length (recommend_from self clock k waiting) = List.length waiting.
Proof.
  induction waiting as [|f rest IH]; intros k; simpl; [reflexivity|]. now rewrite IH.
Qed.

Lemma filter_length_le {A : Type} (p : A -> bool) (l : list A) :
  List.length (filter p l) <= List.length l.
Proof.
  induction l as [|a l IH]; simpl; [lia|]. destruct (p a); simpl; lia.
Qed.

Lemma process_conversations_file self clock all_conversations :
  snd (process_conversations self clock all_conversations)
  = map (set_processed true) all_conversations.
Proof.
  unfold process_conversations. simpl. apply mark_all_unprocessed.
  - intros c Hc Hu. unfold mark_handled. rewrite Hu.
    assert (Hm : mem (primary_tweet_id c)
                     (map primary_tweet_id (filter is_unprocessed all_conversations))
                 = true).
    { apply mem_In. apply in_map. apply filter_In. auto. }
    rewrite Hm. reflexivity.
  - intros c _ Hu. unfold mark_handled. rewrite Hu. now left.
Qed.

Lemma process_conversations_settled self clock l :
  process_conversations self clock (map (set_processed true) l)
  = ([], map (set_processed true) l).
Proof.
  unfold process_conversations.
  rewrite settled_has_nothing_unprocessed. simpl. f_equal.
  rewrite <- (map_id (map (set_processed true) l)) at 2.
  apply map_ext. intros c. unfold mark_handled. simpl.
  destruct (is_unprocessed c); reflexivity.
Qed.

(** X10.  A recommendation run marks every conversation it loaded as
    processed, recommended or not, and returns at most one recommendation
    per unprocessed conversation; a second run on the file it leaves
    recommends nothing and changes nothing. *)
Theorem recommendation_run_settles_the_file :
  forall (self : NBA) (clock : nat -> string) (all_conversations : list Conversation),
    snd (process_conversations self clock all_conversations)
    = map (set_processed true) all_conversations
    /\ List.length (fst (process_conversations self clock all_conversations))
       <= List.length (filter is_unprocessed all_conversations)
    /\ (forall self' clock',
          process_conversations self' clock'
            (snd (process_conversations self clock all_conversations))
          = ([], snd (process_conversations self clock all_conversations))).
Proof.
  intros self clock all_conversations.
  split; [apply process_conversations_file|]. split.
  - unfold process_conversations. simpl.
    rewrite recommend_from_length.
    etransitivity; [apply filter_length_le|]. now rewrite length_map.
  - intros self' clock'. rewrite process_conversations_file.
    apply process_conversations_settled.
Qed.

(** ** Running the pipeline again *)

Lemma store_ids_settled l : store_ids (map (set_processed true) l) = store_ids l.
Proof.
  induction l as [|c l IH]; [reflexivity|].
  change (map (set_processed true) (c :: l))
    with (set_processed true c :: map (set_processed true) l).
  rewrite !store_ids_cons, IH. reflexivity.
Qed.

Lemma finalize_existing_settled py df c :
  finalize_existing py df (set_processed true c)
  = set_processed true (finalize_existing py df c).
Proof. reflexivity. Qed.

Lemma tagged_file_after_some before run l :
  tagged_file_after before run = Some l -> l = tagged_file run.
Proof.
  unfold tagged_file_after.
  destruct (tagged run), before; intros H; try discriminate; now injection H as <-.
Qed.

Lemma main_stages_steps py api_key llm client clock csv files files' :
  main_stages py api_key llm client clock csv files = Ok files' ->
  exists R run,
    convert_twitter_csv_to_json py csv (raw_json files) = Ok R
    /\ tag_conversations api_key llm R (read_or_empty (tagged_json files)) = Ok run
    /\ files' = {| raw_json := map (set_processed true) R;
                   tagged_json := Some (map (set_processed true) (tagged_file run));
                   nba_json :=
                     nba_json files
                     ++ fst (process_conversations (nba_init api_key client) clock
                                                   (tagged_file run)) |}.
Proof.
  intros H. unfold main_stages in H.
  destruct (convert_twitter_csv_to_json py csv (raw_json files)) as [R|e] eqn:HR;
    cbn [bind] in H; [|discriminate].
  destruct (tag_conversations_files api_key llm R (read_or_empty (tagged_json files)))
    as [run [Hrun [_ [Hraw _]]]].
  rewrite Hrun in H. cbn [bind] in H. cbv zeta in H.
  destruct (tagged_file_after (tagged_json files) run) as [l|] eqn:Hl; [|discriminate].
  apply tagged_file_after_some in Hl. subst l.
  rewrite process_conversations_file, Hraw in H. injection H as <-.
  exists R, run. repeat split; assumption.
Qed.

Lemma settled_all l : all_settled (map (set_processed true) l).
Proof.
  apply Forall_forall. intros c Hc. apply in_map_iff in Hc.
  destruct Hc as [c0 [<- _]]. reflexivity.
Qed.

(** X11.  Running the pipeline twice on the same table.  After a run of the
    three stages that returns, from files whose raw store has distinct root
    ids before and after, a second run on the same table, in a process with
    the same stack limit and any iteration order of its sets, whatever the
    key, the collaborator and the clock then are, returns too and ingests,
    tags and recommends nothing: the tagged file and the recommendation
    file are as they were, and the raw file holds the same conversations
    but for their company ids, which the second process picks again among
    the company accounts of each conversation.  When the two processes pick
    alike, the raw file is as it was. *)
Theorem rerunning_the_pipeline_adds_nothing :
  forall (py : Interp) (api_key : option string) (llm : Collaborator)
         (client : result (string -> result string)) (clock : nat -> string)
         (csv : list RawRow) (files files' : Files),
    NoDup (map primary_tweet_id (raw_json files)) ->
    main_stages py api_key llm client clock csv files = Ok files' ->
    NoDup (map primary_tweet_id (raw_json files')) ->
    forall (py' : Interp) api_key' llm' client' clock',
      recursion_limit py' = recursion_limit py ->
      exists raw',
        main_stages py' api_key' llm' client' clock' csv files'
        = Ok {| raw_json := raw';
                tagged_json := tagged_json files';
                nba_json := nba_json files' |}
        /\ Forall2 (repicked py py' (clean_frame csv)) (raw_json files') raw'
        /\ ((forall ids, set_first py' ids = set_first py ids) -> raw' = raw_json files').
Proof.
  intros py api_key llm client clock csv files files' Hkeys H Hkeys'
         py' api_key' llm' client' clock' Hlimit.
  destruct (main_stages_steps _ _ _ _ _ _ _ _ H) as [R [run [HR [Hrun ->]]]].
  cbn [raw_json tagged_json nba_json] in *.
  set (df := clean_frame csv).
  set (settled := map (set_processed true) R) in *.
  assert (Hfin : Forall (finalized_by py df) settled).
  { apply Forall_forall. intros c Hc. apply in_map_iff in Hc.
    destruct Hc as [c0 [<- Hc0]].
    exact (returned_finalized py csv (raw_json files) R c0 HR Hc0). }
  assert (Hconv : convert_twitter_csv_to_json py' csv settled
                  = Ok (map (finalize_existing py' df) settled)).
  { apply convert_nothing_new; [exact Hkeys'|].
    intros t Ht. rewrite Hlimit. unfold settled. rewrite store_ids_settled.
    exact (rerun_sees_every_tweet py csv (raw_json files) R t Hkeys HR Ht). }
  assert (Hset : map (finalize_existing py' df) settled
                 = map (set_processed true) (map (finalize_existing py' df) R)).
  { unfold settled. rewrite !map_map. apply map_ext. intros c.
    apply finalize_existing_settled. }
  exists (map (finalize_existing py' df) settled). split; [|split].
  - unfold main_stages. cbn [raw_json tagged_json nba_json read_or_empty].
    rewrite Hconv. cbn [bind]. rewrite Hset.
    unfold tag_conversations. rewrite settled_has_nothing_unprocessed.
    cbn [bind]. unfold tagged_file_after. cbn [tagged tagged_file raw_file].
    rewrite process_conversations_settled. cbn [fst snd].
    rewrite app_nil_r. reflexivity.
  - apply rerun_repicks. exact Hfin.
  - intros Hsame. apply (rerun_alike py py' df _ _ Hsame).
    apply rerun_repicks. exact Hfin.
Qed.

Lemma rerunning_the_pipeline_witness :
  exists raw',
    main_stages other_process (Some "key") (llm_says "resolved") (Raised CollaboratorError)
      (fun _ => "later") two_agents
      (match main_stages cpython None llm_down (Raised CollaboratorError)
                         (fun _ => "now") two_agents no_files with
       | Ok files' => files'
       | Raised _ => no_files
       end)
    = Ok {| raw_json := raw';
            tagged_json :=
              tagged_json
                (match main_stages cpython None llm_down (Raised CollaboratorError)
                                   (fun _ => "now") two_agents no_files with
                 | Ok files' => files'
                 | Raised _ => no_files
                 end);
            nba_json :=
              nba_json
                (match main_stages cpython None llm_down (Raised CollaboratorError)
                                   (fun _ => "now") two_agents no_files with
                 | Ok files' => files'
                 | Raised _ => no_files
                 end) |}
    /\ Forall2 (repicked cpython other_process (clean_frame two_agents))
               (raw_json
                  (match main_stages cpython None llm_down (Raised CollaboratorError)
                                     (fun _ => "now") two_agents no_files with
                   | Ok files' => files'
                   | Raised _ => no_files
                   end))
               raw'
    /\ ((forall ids, set_first other_process ids = set_first cpython ids) ->
        raw' = raw_json
                 (match main_stages cpython None llm_down (Raised CollaboratorError)
                                    (fun _ => "now") two_agents no_files with
                  | Ok files' => files'
                  | Raised _ => no_files
                  end)).
Proof.
  apply (rerunning_the_pipeline_adds_nothing cpython None llm_down
           (Raised CollaboratorError) (fun _ => "now") two_agents no_files).
  - constructor.
  - vm_compute. reflexivity.
  - vm_compute. repeat constructor. simpl. tauto.
  - reflexivity.
Defined.

(** X12.  After a run of the three stages that returns, every conversation
    of the raw file and of the tagged file is marked processed, the raw file
    holds exactly the conversations the ingestion returned, the tagged file
    exists, and the recommendation file has only grown at its end, by at
    most one record per conversation of the tagged file. *)
Theorem pipeline_run_settles_both_files :
  forall (py : Interp) (api_key : option string) (llm : Collaborator)
         (client : result (string -> result string)) (clock : nat -> string)
         (csv : list RawRow) (files files' : Files),
    main_stages py api_key llm client clock csv files = Ok files' ->
    all_settled (raw_json files')
    /\ (exists ingested,
          convert_twitter_csv_to_json py csv (raw_json files) = Ok ingested
          /\ raw_json files' = map (set_processed true) ingested)
    /\ exists tagged_now recommendations,
        tagged_json files' = Some tagged_now
        /\ all_settled tagged_now
        /\ nba_json files' = nba_json files ++ recommendations
        /\ List.length recommendations <= List.length tagged_now.
Proof.
  intros py api_key llm client clock csv files files' H.
  destruct (main_stages_steps _ _ _ _ _ _ _ _ H) as [R [run [HR [Hrun ->]]]].
  cbn [raw_json tagged_json nba_json].
  split; [apply settled_all|]. split; [eauto|].
  eexists. eexists. split; [reflexivity|]. split; [apply settled_all|].
  split; [reflexivity|].
  unfold process_conversations. cbn [fst].
  rewrite recommend_from_length, length_map.
  etransitivity; [apply filter_length_le|]. rewrite length_map. apply filter_length_le.
Qed.

Lemma pipeline_run_witness :
  all_settled
    (raw_json (match main_stages cpython None llm_down (Raised CollaboratorError)
                                 (fun _ => "now") batch123 no_files with
               | Ok files' => files'
               | Raised _ => no_files
               end))
  /\ (exists ingested,
        convert_twitter_csv_to_json cpython batch123 (raw_json no_files) = Ok ingested
        /\ raw_json (match main_stages cpython None llm_down (Raised CollaboratorError)
                                       (fun _ => "now") batch123 no_files with
                     | Ok files' => files'
                     | Raised _ => no_files
                     end)
           = map (set_processed true) ingested)
  /\ exists tagged_now recommendations,
      tagged_json (match main_stages cpython None llm_down (Raised CollaboratorError)
                                     (fun _ => "now") batch123 no_files with
                   | Ok files' => files'
                   | Raised _ => no_files
                   end)
      = Some tagged_now
      /\ all_settled tagged_now
      /\ nba_json (match main_stages cpython None llm_down (Raised CollaboratorError)
                                     (fun _ => "now") batch123 no_files with
                   | Ok files' => files'
                   | Raised _ => no_files
                   end)
         = nba_json no_files ++ recommendations
      /\ List.length recommendations <= List.length tagged_now.
Proof.
  apply (pipeline_run_settles_both_files cpython None llm_down (Raised CollaboratorError)
           (fun _ => "now") batch123 no_files).
  vm_compute. reflexivity.
Defined.

(** X17.  When the ingestion returns, the three stages return unless there
    is no tagged file and nothing to tag: the tagging stage then writes no
    file, the recommendation stage opens the missing file, and the run stops
    with [FileNotFoundError] before anything is recommended. *)
Theorem pipeline_stops_without_a_tagged_file :
  forall (py : Interp) (api_key : option string) (llm : Collaborator)
         (client : result (string -> result string)) (clock : nat -> string)
         (csv : list RawRow) (files : Files) (conversations : list Conversation),
    convert_twitter_csv_to_json py csv (raw_json files) = Ok conversations ->
    match tagged_json files, filter is_unprocessed conversations with
    | None, [] =>
        main_stages py api_key llm client clock csv files = Raised FileNotFoundError
    | _, _ =>
        exists files', main_stages py api_key llm client clock csv files = Ok files'
    end.
Proof.
  intros py api_key llm client clock csv files conversations HR.
  destruct (tag_conversations_files api_key llm conversations
              (read_or_empty (tagged_json files)))
    as [run [Hrun [Htagged _]]].
  unfold main_stages. rewrite HR. cbn [bind]. rewrite Hrun. cbn [bind]. cbv zeta.
  unfold tagged_file_after.
  destruct (tagged_json files) as [existing|];
    destruct (filter is_unprocessed conversations) as [|c rest];
    inversion Htagged; subst; eauto.
Qed.

Lemma pipeline_stops_witness :
  match tagged_json no_files, filter is_unprocessed (@nil Conversation) with
  | None, [] =>
      main_stages cpython None llm_down (Raised CollaboratorError) (fun _ => "now") []
                  no_files
      = Raised FileNotFoundError
  | _, _ =>
      exists files',
        main_stages cpython None llm_down (Raised CollaboratorError) (fun _ => "now") []
                    no_files
        = Ok files'
  end.
Proof.
  apply (pipeline_stops_without_a_tagged_file cpython None llm_down
           (Raised CollaboratorError) (fun _ => "now") [] no_files []).
  vm_compute. reflexivity.
Defined.

(** ** The export *)

Lemma by_customer_other cid l : forall d,
  (forall c, In c l -> customer_id c <> Some cid) ->
  dict_get cid
    (fold_left
       (fun data conv =>
          match customer_id conv with
          | Some x => if truthy x then dict_set x conv data else data
          | None => data
          end) l d)
  = dict_get cid d.
Proof.
  induction l as [|c l IH]; intros d Hl; simpl; [reflexivity|].
  rewrite IH by (intros c' Hc'; apply Hl; now right).
  specialize (Hl c (or_introl eq_refl)).
  destruct (customer_id c) as [x|]; [|reflexivity].
  destruct (truthy x); [|reflexivity].
  apply dict_get_set_other. congruence.
Qed.

Lemma by_customer_last cid before conv after :
  customer_id conv = Some cid ->
  cid <> "" ->
  (forall c, In c after -> customer_id c <> Some cid) ->
  dict_get cid (conversations_by_customer (before ++ conv :: after)) = Some conv.
Proof.
  intros Hcid Hne Hafter. unfold conversations_by_customer.
  rewrite fold_left_app. simpl. rewrite by_customer_other by exact Hafter.
  rewrite Hcid.
  assert (Ht : truthy cid = true).
  { unfold truthy. apply negb_true_iff. now apply String.eqb_neq. }
  rewrite Ht. apply dict_get_set_same.
Qed.

(** X13.  The export writes one row per recommendation, in order, with the
    six fields of the recommendation.  The chat log of a row is joined by
    customer id, not by conversation: it is empty when no conversation of
    the file carries the customer id of the recommendation, and otherwise it
    is built from the last conversation of the file that carries it, as the
    lines of its history followed by the recommended message, or as the
    empty text when that history is empty. *)
Theorem export_joins_by_customer_id :
  forall (nba_data : list Recommendation) (conversations : list Conversation),
    Forall2
      (fun item row =>
         csv_customer_id row = rec_customer_id item
         /\ csv_channel row = rec_channel item
         /\ csv_send_time row = rec_send_time item
         /\ csv_message row = rec_message item
         /\ csv_reasoning row = rec_reasoning item
         /\ csv_issue_status row = rec_issue_status item
         /\ ((forall c, In c conversations -> customer_id c <> Some (rec_customer_id item)) ->
             csv_chat_log row = "")
         /\ (forall before conv after,
               conversations = before ++ conv :: after ->
               customer_id conv = Some (rec_customer_id item) ->
               rec_customer_id item <> "" ->
               (forall c, In c after -> customer_id c <> Some (rec_customer_id item)) ->
               csv_chat_log row
               = match chat_history conv with
                 | [] => ""
                 | _ :: _ =>
                     String.concat newline
                       (map chat_line (chat_history conv)
                        ++ [("[Company - RECOMMENDED]: " ++ rec_message item)%string])
                 end))
      nba_data (export_nba_to_csv nba_data conversations).
Proof.
  intros nba_data conversations. unfold export_nba_to_csv.
  induction nba_data as [|item nba_data IH]; simpl; constructor; [|exact IH].
  repeat (split; [reflexivity|]). split.
  - intros Hnone. simpl. unfold conversations_by_customer.
    rewrite by_customer_other by exact Hnone. reflexivity.
  - intros before conv after -> Hcid Hne Hafter. simpl.
    rewrite (by_customer_last _ before conv after Hcid Hne Hafter).
    unfold chat_lines_with. destruct (chat_history conv); reflexivity.
Qed.

Example export_takes_the_later_conversation :
  map csv_chat_log (export_nba_to_csv [for_bob] two_of_bob)
  = [String.concat newline ["[Customer]: second"; "[Company - RECOMMENDED]: hello"]].
Proof. reflexivity. Qed.

(** ** Normalising the collaborator's reply *)

Lemma lstrip_spaces ws s : all_spaces ws = true -> lstrip (ws ++ s)%string = lstrip s.
Proof.
  induction ws as [|c ws IH]; simpl; [reflexivity|].
  intros H. apply andb_true_iff in H. destruct H as [Hc Hws]. rewrite Hc. now apply IH.
Qed.

Lemma rstrip_all_spaces ws : all_spaces ws = true -> rstrip ws = EmptyString.
Proof.
  induction ws as [|c ws IH]; simpl; [reflexivity|].
  intros H. apply andb_true_iff in H. destruct H as [Hc Hws].
  rewrite (IH Hws), Hc. reflexivity.
Qed.

Lemma rstrip_spaces s ws : all_spaces ws = true -> rstrip (s ++ ws)%string = rstrip s.
Proof.
  intros Hws. induction s as [|c s IH]; simpl.
  - now apply rstrip_all_spaces.
  - rewrite IH. reflexivity.
Qed.

Lemma append_not_empty x y : y <> EmptyString -> (x ++ y)%string <> EmptyString.
Proof.
  destruct x; simpl; [auto|discriminate].
Qed.

Lemma rstrip_append x y :
  rstrip y <> EmptyString -> rstrip (x ++ y)%string = (x ++ rstrip y)%string.
Proof.
  intros Hy. induction x as [|c x IH]; simpl; [reflexivity|].
  rewrite IH. destruct (x ++ rstrip y)%string eqn:E; [|reflexivity].
  exfalso. revert E. now apply append_not_empty.
Qed.

Lemma digit_is_not_space c : is_digit c = true -> is_space c = false.
Proof.
  unfold is_digit, is_space. intros H. apply andb_true_iff in H.
  destruct H as [H1 H2]. apply Nat.leb_le in H1. apply Nat.leb_le in H2.
  repeat (apply orb_false_iff; split).
  - apply andb_false_iff. right. apply Nat.leb_gt. lia.
  - apply andb_false_iff. right. apply Nat.leb_gt. lia.
  - apply Nat.eqb_neq. lia.
  - apply Nat.eqb_neq. lia.
Qed.

Lemma drop_digits_marker d rest :
  all_digits d = true ->
  drop_digits (d ++ String "."%char rest)%string = String "."%char rest.
Proof.
  induction d as [|c d IH]; simpl; [reflexivity|].
  intros H. apply andb_true_iff in H. destruct H as [Hc Hd]. rewrite Hc. now apply IH.
Qed.

Lemma remove_enumeration_marker d rest :
  all_digits d = true -> d <> EmptyString ->
  remove_enumeration (d ++ String "."%char rest)%string = lstrip rest.
Proof.
  intros Hd Hne. pose proof (drop_digits_marker d rest Hd) as Hdrop.
  destruct d as [|c d']; [congruence|].
  simpl in Hd. apply andb_true_iff in Hd. destruct Hd as [Hc _].
  unfold remove_enumeration. rewrite Hdrop.
  cbn [String.append]. rewrite Hc. reflexivity.
Qed.

Lemma strip_bare label : bare label -> strip label = label.
Proof.
  intros [_ [Hl Hr]]. unfold strip. now rewrite Hr.
Qed.

Lemma strip_padded reply label : bare label -> padded reply label -> strip reply = label.
Proof.
  intros [Hne [Hl Hr]] [before [after [H1 [H3 ->]]]]. unfold strip.
  rewrite rstrip_append; rewrite rstrip_spaces by exact H3; rewrite Hr; [|exact Hne].
  rewrite lstrip_spaces by exact H1. exact Hl.
Qed.

Lemma strip_enumerated reply label :
  bare label -> enumerated reply label ->
  strip (remove_enumeration (strip reply)) = label.
Proof.
  intros Hbare [ws1 [d [ws2 [ws3 [H1 [H2 [H3 [Hd [Hdne ->]]]]]]]]].
  pose proof (strip_bare label Hbare) as Hstrip.
  destruct Hbare as [Hne [Hl Hr]].
  assert (Hs : strip (ws1 ++ d ++ "." ++ ws2 ++ label ++ ws3)%string
               = (d ++ "." ++ ws2 ++ label)%string).
  { unfold strip.
    assert (E1 : rstrip (label ++ ws3)%string = label)
      by (rewrite rstrip_spaces by exact H3; exact Hr).
    assert (E2 : rstrip (ws2 ++ label ++ ws3)%string = (ws2 ++ label)%string)
      by (rewrite rstrip_append; rewrite E1; [reflexivity|exact Hne]).
    assert (E3 : rstrip ("." ++ ws2 ++ label ++ ws3)%string = ("." ++ ws2 ++ label)%string).
    { rewrite rstrip_append; rewrite E2; [reflexivity|].
      now apply append_not_empty. }
    assert (E4 : rstrip (d ++ "." ++ ws2 ++ label ++ ws3)%string
                 = (d ++ "." ++ ws2 ++ label)%string).
    { rewrite rstrip_append; rewrite E3; [reflexivity|discriminate]. }
    rewrite rstrip_append; rewrite E4; [|].
    - rewrite lstrip_spaces by exact H1.
      destruct d as [|c d']; [congruence|]. simpl in Hd.
      apply andb_true_iff in Hd. destruct Hd as [Hc _].
      simpl. now rewrite (digit_is_not_space c Hc).
    - destruct d; [congruence|discriminate]. }
  rewrite Hs.
  change (d ++ "." ++ ws2 ++ label)%string
    with (d ++ String "."%char (ws2 ++ label))%string.
  rewrite remove_enumeration_marker by assumption.
  rewrite lstrip_spaces by exact H2. rewrite Hl. exact Hstrip.
Qed.

Lemma strip_unnumbered reply label :
  bare label -> padded reply label ->
  (forall c s, label = String c s -> is_digit c = false) ->
  strip (remove_enumeration (strip reply)) = label.
Proof.
  intros Hbare Hpad Hfirst. rewrite (strip_padded reply label Hbare Hpad).
  pose proof (strip_bare label Hbare) as Hstrip.
  destruct label as [|c s]; [exact Hstrip|].
  unfold remove_enumeration. rewrite (Hfirst c s eq_refl). exact Hstrip.
Qed.

(** X14.  The replies of the collaborator are normalised.  With a key set
    and a conversation that has a history, let the collaborator answer the
    three prompts with labels that have no whitespace at either end: the
    category behind an enumeration marker (digits and a dot) with whitespace
    anywhere around, or with whitespace around it only when it does not
    start with a digit; the sentiment and the status with whitespace around
    them.  Then the three functions return the bare labels. *)
Theorem collaborator_replies_are_normalised :
  forall (key : string) (llm : Collaborator) (p : string) (h : list Message)
         (nature senti status reply_n reply_s reply_r : string),
    key <> "" ->
    h <> [] ->
    bare nature -> bare senti -> bare status ->
    enumerated reply_n nature
    \/ (padded reply_n nature /\ forall c s, nature = String c s -> is_digit c = false) ->
    padded reply_s senti ->
    padded reply_r status ->
    llm SupportNaturePrompt (customer_context p h) = Ok reply_n ->
    llm SentimentPrompt (customer_context p h) = Ok reply_s ->
    llm ResolutionPrompt (resolution_context h) = Ok reply_r ->
    classify_support_nature_llm (Some key) llm p h = Ok nature
    /\ analyze_sentiment_llm (Some key) llm p h = Ok senti
    /\ determine_resolution_status_llm (Some key) llm h = Ok (PyText status).
Proof.
  intros key llm p h nature senti status reply_n reply_s reply_r
         Hkey Hh Hbn Hbs Hbr Hn Hs Hr Hln Hls Hlr.
  assert (Ht : truthy_opt (Some key) = true).
  { simpl. unfold truthy. apply negb_true_iff. now apply String.eqb_neq. }
  split; [|split].
  - unfold classify_support_nature_llm. rewrite Ht, Hln. cbn [bind try_except].
    f_equal. destruct Hn as [Hn|[Hn Hfirst]].
    + now apply strip_enumerated.
    + now apply strip_unnumbered.
  - unfold analyze_sentiment_llm. rewrite Ht, Hls. cbn [bind try_except].
    f_equal. now apply strip_padded.
  - unfold determine_resolution_status_llm.
    destruct h as [|m h']; [congruence|]. rewrite Hlr, Ht.
    cbn [bind try_except]. do 2 f_equal. now apply strip_padded.
Qed.

Lemma collaborator_replies_witness :
  classify_support_nature_llm (Some "key")
    (llm_answers "  3.  Other   " " Negative  " "resolved ") ""
    (chat_history settled_root) = Ok "Other"
  /\ analyze_sentiment_llm (Some "key")
       (llm_answers "  3.  Other   " " Negative  " "resolved ") ""
       (chat_history settled_root) = Ok "Negative"
  /\ determine_resolution_status_llm (Some "key")
       (llm_answers "  3.  Other   " " Negative  " "resolved ")
       (chat_history settled_root) = Ok (PyText "resolved").
Proof.
  apply (collaborator_replies_are_normalised "key"
           (llm_answers "  3.  Other   " " Negative  " "resolved ") ""
           (chat_history settled_root) "Other" "Negative" "resolved"
           "  3.  Other   " " Negative  " "resolved ").
  - discriminate.
  - discriminate.
  - repeat split; discriminate.
  - repeat split; discriminate.
  - repeat split; discriminate.
  - left. exists "  ", "3", "  ", "   ". repeat split. discriminate.
  - exists " ", "  ". repeat split.
  - exists "", " ". repeat split.
  - reflexivity.
  - reflexivity.
  - reflexivity.
Defined.

(** The no-break space is whitespace: it is stripped like a blank. *)
Example no_break_space_is_stripped :
  strip (String (ascii_of_nat 160) "Other") = "Other".
Proof. reflexivity. Qed.

(** ** The cleaned table *)

Lemma drop_duplicates_from_lookup x df :
  forall seen,
    rows_with_id x (drop_duplicates_from seen df)
    = if mem x seen then None else rows_with_id x df.
Proof.
  unfold rows_with_id. induction df as [|r rest IH]; intros seen.
  - simpl. now destruct (mem x seen).
  - cbn [drop_duplicates_from find].
    destruct (mem (tweet_id r) seen) eqn:Hseen.
    + rewrite IH. destruct (mem x seen) eqn:Hx; [reflexivity|].
      destruct (tweet_id r =? x) eqn:E; [|reflexivity].
      apply String.eqb_eq in E. congruence.
    + cbn [find]. destruct (tweet_id r =? x) eqn:E.
      * apply String.eqb_eq in E. subst x. now rewrite Hseen.
      * rewrite IH.
        destruct (mem x seen) eqn:Hx.
        -- assert (Hm : mem x (tweet_id r :: seen) = true).
           { apply mem_In. right. now apply mem_In. }
           now rewrite Hm.
        -- assert (Hm : mem x (tweet_id r :: seen) = false).
           { apply mem_false. intros [Heq|Hin].
             - apply String.eqb_neq in E. congruence.
             - apply mem_In in Hin. congruence. }
           now rewrite Hm.
Qed.

Lemma named_rows_lookup x df :
  x <> "" ->
  rows_with_id x (filter (fun r => negb (tweet_id r =? "")) df) = rows_with_id x df.
Proof.
  intros Hx. unfold rows_with_id. induction df as [|r rest IH]; [reflexivity|].
  cbn [filter find]. destruct (tweet_id r =? "") eqn:E; cbn [negb find].
  - apply String.eqb_eq in E. destruct (tweet_id r =? x) eqn:E'.
    + apply String.eqb_eq in E'. congruence.
    + exact IH.
  - now rewrite IH.
Qed.

(** X15.  Cleaning the table keeps, for every tweet id, the first of the
    first 4000 rows that carries it (after stripping the id), and no row at
    all for the empty id; the ids of the cleaned table are pairwise
    distinct. *)
Theorem cleaning_keeps_the_first_row_of_each_id :
  forall (csv : list RawRow) (x : string),
    NoDup (map tweet_id (clean_frame csv))
    /\ rows_with_id x (clean_frame csv)
       = if x =? "" then None else rows_with_id x (map clean_row (firstn 4000 csv)).
Proof.
  intros csv x. split; [apply clean_frame_NoDup|].
  destruct (x =? "") eqn:E.
  - apply String.eqb_eq in E. subst x.
    destruct (rows_with_id "" (clean_frame csv)) as [r|] eqn:Hr; [|reflexivity].
    apply rows_with_id_some in Hr. destruct Hr as [Hin Hid].
    apply clean_frame_origin in Hin. destruct Hin as [Hne _]. congruence.
  - apply String.eqb_neq in E. unfold clean_frame, drop_duplicates.
    rewrite named_rows_lookup by exact E.
    rewrite drop_duplicates_from_lookup. reflexivity.
Qed.
